(** * cere-cli: the chat session engine, embedded and verified

    A shallow embedding of the TypeScript sources

      - [src/api.ts]           (the streaming response parser),
      - [src/tools.ts]         (tool registry, dispatcher, calculator),
      - [src/conversation.ts]  (message store and session store),
      - the [InteractiveChat] class (slash-commands, message sending,
        search) and the [Config] singleton it uses,

    followed by the properties of the specification, each settled against
    these definitions.

    Conventions.  JavaScript strings are modelled as [string]: the
    sequences of code units below U+0100.  The string methods the sources
    call are defined in [Module JS] with the behaviour ECMAScript gives
    them on these; [Module Wide] has the ones of the search snippet over
    16-bit code units.  JSON documents are read as the sources read them,
    field by field and unchecked; where a value flows on into code typed
    by the TypeScript declarations, the model follows it as far as these
    types hold.  What the sources
    obtain from the JavaScript runtime or from the outside world (JSON
    parsing, number parsing, the [Function] constructor, the clock, the
    network, the terminal prompts) is collected in the class [Runtime] and
    the record [World]; the sources themselves are translated as written.
    Exceptions are explicit: a computation returns [Ok v] or [Throw e]. *)

From Stdlib Require Import ZArith QArith Ascii String List Lia Bool DecimalString
  Sorted.
From stdpp Require Import base gmap strings list.

Set Default Proof Using "Type".
Open Scope Z_scope.
Open Scope list_scope.

(** ** Exceptions and results *)

(** A thrown JavaScript value.  All the sources throw are [Error] objects;
    [exn_name] is the constructor name ([Error], [TypeError],
    [SyntaxError]) and [exn_message] the message. *)
Record exn : Type := JsError { exn_name : string; exn_message : string }.

(** [new Error(msg)] *)
Definition new_Error (msg : string) : exn := JsError "Error" msg.

(** The template-literal rendering [`${error}`] of an [Error] object. *)
Definition exn_to_string (e : exn) : string :=
  exn_name e +:+ ": " +:+ exn_message e.

Inductive result (A : Type) : Type :=
| Ok (a : A)
| Throw (e : exn).
Arguments Ok {A} a.
Arguments Throw {A} e.

#[global] Instance result_ret : MRet result := fun _ a => Ok a.
#[global] Instance result_bind : MBind result := fun _ _ f m =>
  match m with
  | Ok a => f a
  | Throw e => Throw e
  end.

(** [try { body } catch (error) { handler }] *)
Definition try_catch {A : Type} (body : result A) (handler : exn -> result A)
  : result A :=
  match body with
  | Ok a => Ok a
  | Throw e => handler e
  end.

(** ** JavaScript string methods used by the sources *)

Module JS.

Definition newline : string := String (ascii_of_nat 10) "".
Definition backslash_n : string := "\n".
Definition dquote : string := String (ascii_of_nat 34) "".

(** Test helper: writes JSON text with apostrophes standing for the
    double quotes, so that examples stay readable. *)
Fixpoint q (s : string) : string :=
  match s with
  | "" => ""
  | String c s' =>
      String (if Ascii.eqb c "'"%char then ascii_of_nat 34 else c) (q s')
  end.

(** [s.startsWith(p)] *)
Definition startsWith (s p : string) : bool := String.prefix p s.

(** [s.substring(n)] and [s.slice(n)] for a literal [0 <= n]: drops the
    first [n] code units. *)
Fixpoint drop (n : nat) (s : string) : string :=
  match n, s with
  | O, _ => s
  | S _, "" => ""
  | S k, String _ s' => drop k s'
  end.

(** [s.endsWith(p)] *)
Definition endsWith (s p : string) : bool :=
  String.eqb (drop (String.length s - String.length p) s) p
  && (String.length p <=? String.length s)%nat.

(** [s.split(sep)] for a non-empty separator: the pieces between the
    successive, non-overlapping, leftmost occurrences of [sep].  The
    result is never empty.  [skip] counts the code units of a matched
    separator still to be passed over. *)
Fixpoint split_go (sep s : string) (skip : nat) : list string :=
  match s with
  | "" => [""]
  | String c s' =>
      match skip with
      | S k => split_go sep s' k
      | O =>
          if String.prefix sep s
          then "" :: split_go sep s' (String.length sep - 1)
          else match split_go sep s' 0 with
               | seg :: rest => String c seg :: rest
               | [] => [String c ""]
               end
      end
  end.

Definition split (s sep : string) : list string := split_go sep s 0.

(** [l.join(sep)] *)
Definition join (l : list string) (sep : string) : string :=
  String.concat sep l.

(** [lines.pop()] on a non-empty array: the last element and the array
    without it; [undefined] on an empty one. *)
Fixpoint pop (l : list string) : option string * list string :=
  match l with
  | [] => (None, [])
  | [x] => (Some x, [])
  | x :: r => let '(last, init) := pop r in (last, x :: init)
  end.

(** [s.toLowerCase()] on code units below U+0100.  There the capital
    letters are [A]-[Z] and U+00C0-U+00DE without the multiplication sign
    U+00D7; each has its small letter 32 places further, so every code
    unit lower-cases to one code unit. *)
Definition lower_ascii (c : ascii) : ascii :=
  let n := nat_of_ascii c in
  if (((65 <=? n) && (n <=? 90))
      || ((192 <=? n) && (n <=? 222) && negb (n =? 215)))%nat
  then ascii_of_nat (n + 32) else c.

Fixpoint toLowerCase (s : string) : string :=
  match s with
  | "" => ""
  | String c s' => String (lower_ascii c) (toLowerCase s')
  end.

(** [hay.indexOf(needle)]: the first position at which [needle] occurs,
    [-1] when there is none. *)
Fixpoint indexOf (hay needle : string) : Z :=
  if String.prefix needle hay then 0
  else match hay with
       | "" => -1
       | String _ hay' =>
           let i := indexOf hay' needle in
           if i <? 0 then -1 else i + 1
       end.

(** [hay.includes(needle)] *)
Definition includes (hay needle : string) : bool :=
  0 <=? indexOf hay needle.

Definition length (s : string) : Z := Z.of_nat (String.length s).

(** [s.substring(a, b)]: both ends are clamped to [0 .. length] and
    swapped when out of order. *)
Definition substring (s : string) (a b : Z) : string :=
  let clamp x := Z.max 0 (Z.min x (length s)) in
  let lo := Z.min (clamp a) (clamp b) in
  let hi := Z.max (clamp a) (clamp b) in
  String.substring (Z.to_nat lo) (Z.to_nat (hi - lo)) s.

(** White space as [trim] and the class [\s] understand it, on code
    units below U+0100: the space, U+0009-U+000D, and the no-break space
    U+00A0. *)
Definition is_space (c : ascii) : bool :=
  let n := nat_of_ascii c in
  ((n =? 32) || ((9 <=? n) && (n <=? 13)) || (n =? 160))%nat.

Fixpoint trimStart (s : string) : string :=
  match s with
  | "" => ""
  | String c s' => if is_space c then trimStart s' else s
  end.

(** Drops trailing white space: a space is kept only when something
    that is kept follows it. *)
Fixpoint trimEnd (s : string) : string :=
  match s with
  | "" => ""
  | String c s' =>
      match trimEnd s' with
      | "" => if is_space c then "" else String c ""
      | t => String c t
      end
  end.

(** [s.trim()] *)
Definition trim (s : string) : string := trimEnd (trimStart s).

End JS.

(** ** JavaScript values that cross the JSON boundary *)

(** A JavaScript number: a double is [NaN], an infinity, or a rational. *)
Inductive number : Type :=
| NaN
| Infinity (negative : bool)
| Num (q : Q).

(** [0 <= x && x <= hi] and [x > 0] on numbers; every comparison with
    [NaN] is false. *)
Definition num_leb (x y : number) : bool :=
  match x, y with
  | NaN, _ | _, NaN => false
  | Infinity true, _ => true
  | _, Infinity false => true
  | Infinity false, _ => false
  | _, Infinity true => false
  | Num a, Num b => Qle_bool a b
  end.

Definition num_ltb (x y : number) : bool :=
  match x, y with
  | NaN, _ | _, NaN => false
  | _, _ => negb (num_leb y x)
  end.

Definition num_of_Z (z : Z) : number := Num (inject_Z z).

(** Truthiness of a number: [0] and [NaN] are falsy. *)
Definition num_truthy (x : number) : bool :=
  match x with
  | NaN => false
  | Infinity _ => true
  | Num a => negb (Qeq_bool a 0)
  end.

(** The values [JSON.parse] produces. *)
#[warnings="-register-all"]
Inductive json : Type :=
| JNull
| JBool (b : bool)
| JNum (n : number)
| JStr (s : string)
| JArr (items : list json)
| JObj (fields : list (string * json)).

Module Json.

(** The binding of [k] in an object; the last one wins, as in
    [JSON.parse]. *)
Fixpoint field (k : string) (fields : list (string * json)) : option json :=
  match fields with
  | [] => None
  | (k', v) :: rest =>
      match field k rest with
      | Some w => Some w
      | None => if String.eqb k k' then Some v else None
      end
  end.

(** [v.k] for a key that is not a built-in property: [undefined]
    ([None]) when absent, a [TypeError] when [v] is [null]. *)
Definition prop (v : json) (k : string) : result (option json) :=
  match v with
  | JNull =>
      Throw (JsError "TypeError"
               ("Cannot read properties of null (reading '" +:+ k +:+ "')"))
  | JObj fields => Ok (field k fields)
  | _ => Ok None
  end.

(** [v?.k] where [v] may be [undefined] *)
Definition opt_prop (v : option json) (k : string) : option json :=
  match v with
  | None | Some JNull => None
  | Some (JObj fields) => field k fields
  | Some _ => None
  end.

(** [v?.[0]] *)
Definition opt_first (v : option json) : option json :=
  match v with
  | None | Some JNull => None
  | Some (JArr items) => head items
  | Some (JObj fields) => field "0" fields
  | Some (JStr (String c _)) => Some (JStr (String c ""))
  | Some _ => None
  end.

(** Truthiness, [if (v)] *)
Definition truthy (v : option json) : bool :=
  match v with
  | None | Some JNull => false
  | Some (JBool b) => b
  | Some (JNum n) => num_truthy n
  | Some (JStr s) => negb (String.eqb s "")
  | Some (JArr _) | Some (JObj _) => true
  end.

End Json.

(** ** [utils.ts]: what the program shows on the terminal *)

(** [stdout_write_markdown chunk] is the statement
    [process.stdout.write(renderMarkdown(chunk))] of the chunk callback,
    for the value the callback was called with.  What reaches the
    terminal is the library's rendering of a string; the statement comes
    after [fullResponse += chunk], and the stream handler calls the
    callback inside its [try] block, so that nothing the statement
    raises leaves the handler. *)
Inductive Display : Type :=
| displayError (message : string)
| displaySuccess (message : string)
| displayInfo (message : string)
| displayWarning (message : string)
| displayBanner
| console_log (text : string)
| console_clear
| spinner_start (text : string)
| spinner_stop
| stdout_write_markdown (chunk : json)
| console_log_message (role : string) (markdown : string).

(** What [return <text>] can evaluate to when the text is made of the
    characters the calculator lets through: a number, [undefined] (an
    empty body, or a line break after [return]), or a value of another
    kind (a regular-expression literal can be written with [/], and added
    to a number it gives a string).  The sources only put the value into
    a template literal, so a value of another kind is kept by its
    rendering there. *)
Inductive evaluated : Type :=
| EvNumber (n : number)
| EvUndefined
| EvOther (rendering : string).

(** ** What the sources take from the runtime *)

Class Runtime : Type := {
  (** [JSON.parse(text)]; throws a [SyntaxError] on text that is not JSON *)
  JSON_parse : string -> result json;
  (** [JSON.stringify(value, null, 2)] *)
  JSON_stringify : json -> string;
  (** [parseFloat(text)] and [parseInt(text)] *)
  parseFloat : string -> number;
  parseInt : string -> number;
  (** [`${x}`] for a number *)
  number_to_string : number -> string;
  (** [new Function(...names, `return ${body}`)(...values)] with the names
      and values of the calculator's [math] table: the value of [body], or
      the exception raised while compiling or running it *)
  Function_return : string -> result evaluated;
  (** [new Date(text).getTime()] and [new Date(text).toLocaleString()] *)
  Date_getTime : string -> number;
  Date_toLocaleString : string -> string;
  (** the handlers of the built-in tools that read the clock and the
      random source *)
  get_current_time_handler : json -> result string;
  generate_random_handler : json -> result string
}.

(** [`${v}`] and [text + v] for a value that came out of [JSON.parse]:
    an array is its elements joined by commas, [null] among them giving
    nothing; an object is [[object Object]]. *)
Fixpoint json_to_string `{RT : Runtime} (v : json) : string :=
  match v with
  | JNull => "null"
  | JBool b => if b then "true" else "false"
  | JNum n => number_to_string n
  | JStr text => text
  | JArr items =>
      String.concat ","
        (map (fun item => match item with
                          | JNull => ""
                          | _ => json_to_string item
                          end) items)
  | JObj _ => "[object Object]"
  end.

(** ** [api.ts]: the streaming response parser *)

Module Api.

Inductive Role : Type := system | user | assistant | tool.

Record ChatMessage : Type := {
  role : Role;
  content : string;
  tool_calls : option (list json);
  tool_call_id : option string
}.

Record ChatCompletionRequest : Type := {
  model : string;
  messages : list ChatMessage;
  max_tokens : option number;
  temperature : option number;
  stream : option bool
}.

Section WithRuntime.
Context {RT : Runtime}.

(** [parsed.choices?.[0]?.delta?.content] *)
Definition delta_content (parsed : json) : result (option json) :=
  match Json.prop parsed "choices" with
  | Throw e => Throw e
  | Ok choices =>
      Ok (Json.opt_prop (Json.opt_prop (Json.opt_first choices) "delta")
            "content")
  end.

(** The body of [try { ... } catch (e) { }] for one [data: ] payload:
    the value [onChunk] is called with, if any.  [onChunk] is called for
    every truthy content, of whatever type; what it throws is caught
    with the parsing errors. *)
Definition payload_chunk (data : string) : list json :=
  match JSON_parse data with
  | Throw _ => []
  | Ok parsed =>
      match delta_content parsed with
      | Throw _ => []
      | Ok content =>
          match content with
          | Some chunk => if Json.truthy content then [chunk] else []
          | None => []
          end
      end
  end.

(** The [for (const line of lines)] loop: the chunks handed to
    [onChunk], and whether [resolve()] was reached (the [return]
    leaves the rest of the lines unread). *)
Fixpoint process_lines (lines : list string) : list json * bool :=
  match lines with
  | [] => ([], false)
  | line :: rest =>
      if JS.startsWith line "data: " then
        let data := JS.drop 6 line in
        if String.eqb data "[DONE]" then ([], true)
        else
          let '(more, resolved) := process_lines rest in
          (payload_chunk data ++ more, resolved)
      else process_lines rest
  end.

(** The ['data'] handler, for a line separator [sep], on the text
    [chunk] of one event ([chunk.toString()], each [Buffer] decoded by
    itself): the new carry-over buffer, the chunks delivered, and whether
    [resolve()] was called. *)
Definition on_data_with (sep buffer chunk : string)
  : string * list json * bool :=
  let buffer := buffer +:+ chunk in
  let '(last, lines) := JS.pop (JS.split buffer sep) in
  let buffer := match last with
                | Some s => s
                | None => ""
                end in
  let '(chunks, resolved) := process_lines lines in
  (buffer, chunks, resolved).

(** What the response stream does after its data events. *)
Inductive StreamEnd : Type :=
| StreamEnds
| StreamErrors (e : exn).

(** How the promise settles when the stream finishes before a sentinel
    was seen: ['end'] resolves it, ['error'] rejects it. *)
Definition settles (fin : StreamEnd) : result unit :=
  match fin with
  | StreamEnds => Ok tt
  | StreamErrors e => Throw e
  end.

(** The promise of [streamChatCompletion] over the data events
    [chunks]: everything handed to [onChunk] until the promise settles,
    and how it settles.  The promise settles once: at the first
    [resolve()] of the handler, or else when the stream ends or fails. *)
Fixpoint feed_with (sep buffer : string) (chunks : list string)
    (fin : StreamEnd) : list json * result unit :=
  match chunks with
  | [] => ([], settles fin)
  | c :: rest =>
      let '(buffer, out, resolved) := on_data_with sep buffer c in
      if resolved : bool then (out, Ok tt)
      else
        let '(out', r) := feed_with sep buffer rest fin in
        (out ++ out', r)
  end.

(** The handler is never detached: it runs on every data event, also
    after the promise has settled.  What each event hands to
    [onChunk]: *)
Fixpoint events_with (sep buffer : string) (chunks : list string)
  : list (list json) :=
  match chunks with
  | [] => []
  | c :: rest =>
      let '(buffer, out, _) := on_data_with sep buffer c in
      out :: events_with sep buffer rest
  end.

(** What the data events that follow the event of the first [resolve()]
    hand to [onChunk], event by event; nothing when the handler never
    resolves. *)
Fixpoint late_with (sep buffer : string) (chunks : list string)
  : list (list json) :=
  match chunks with
  | [] => []
  | c :: rest =>
      let '(buffer, _, resolved) := on_data_with sep buffer c in
      if resolved : bool then events_with sep buffer rest
      else late_with sep buffer rest
  end.

(** The separator written in the source, [buffer.split('\\n')]: the
    TypeScript literal ['\\n'] is the two code units backslash, [n]. *)
Definition line_separator : string := JS.backslash_n.

Definition on_data := on_data_with line_separator.
Definition feed := feed_with line_separator.

(** What [this.client.post] yields; the [chunks] of a stream are the
    texts of its data events, each the [chunk.toString()] of the buffer
    of one event. *)
Inductive Response : Type :=
| HttpFailure (message : string)
    (** rejected with [error.response] set; [message] is
        [error.response.data.error?.message || error.response.statusText] *)
| RequestFailure (e : exn)
    (** rejected without a response *)
| Stream (chunks : list string) (fin : StreamEnd).

(** [streamChatCompletion(request, onChunk)]: the arguments [onChunk]
    has been called with when the promise settles, in order, and the
    outcome of the promise. *)
Definition streamChatCompletion (response : Response)
  : list json * result unit :=
  match response with
  | HttpFailure message =>
      ([], Throw (new_Error ("API Error: " +:+ message)))
  | RequestFailure e => ([], Throw e)
  | Stream chunks fin => feed "" chunks fin
  end.

(** The calls of [onChunk] that come after the promise has settled, one
    list for each later data event. *)
Definition late (response : Response) : list (list json) :=
  match response with
  | Stream chunks _ => late_with line_separator "" chunks
  | _ => []
  end.

End WithRuntime.

End Api.

(** ** [tools.ts]: tool registry, dispatcher and calculator *)

Module Tools.

Record ToolFunction : Type := {
  name : string;
  description : string;
  parameters : json
}.

(** [{ id, type: 'function', function: { name, arguments } }] *)
Record ToolCall : Type := {
  id : string;
  function_name : string;
  function_arguments : string
}.

Record ToolResponse : Type := {
  role : Api.Role;
  content : string;
  tool_call_id : string
}.

(** The character class of the calculator's filter,
    [[0-9+\-*/().^\s]]. *)
Definition allowed_char (c : ascii) : bool :=
  let n := nat_of_ascii c in
  ((48 <=? n) && (n <=? 57))%nat
  || Ascii.eqb c "+" || Ascii.eqb c "-" || Ascii.eqb c "*"
  || Ascii.eqb c "/" || Ascii.eqb c "(" || Ascii.eqb c ")"
  || Ascii.eqb c "." || Ascii.eqb c "^" || JS.is_space c.

(** [expr.replace(/[^0-9+\-*/().^\s]/g, '')] *)
Fixpoint sanitize (expr : string) : string :=
  match expr with
  | "" => ""
  | String c rest =>
      if allowed_char c then String c (sanitize rest) else sanitize rest
  end.

Section WithRuntime.
Context {RT : Runtime}.

(** [evaluateMathExpression(expr)]: the names of the [math] table
    ([sqrt, pow, sin, cos, tan, log, abs, pi, e]) are the parameters of
    the constructed function, its body is [return ${sanitized}]. *)
Definition evaluateMathExpression (expr : string) : result evaluated :=
  let sanitized := sanitize expr in
  try_catch (Function_return sanitized)
    (fun _ => Throw (new_Error "Invalid mathematical expression")).

(** [`${result}`] *)
Definition shown_result (v : evaluated) : string :=
  match v with
  | EvNumber n => number_to_string n
  | EvUndefined => "undefined"
  | EvOther rendering => rendering
  end.

Definition Handler : Type := json -> result string.

(** The handler registered for [calculate].  [args.expression] is read
    inside the [try]; an expression that is not a string makes
    [expr.replace] raise a [TypeError] there: [undefined] and [null] have
    no properties, another value has no [replace] method. *)
Definition calculate_handler : Handler := fun args =>
  try_catch
    (expr ← Json.prop args "expression";
     result ← match expr with
              | Some (JStr e) => evaluateMathExpression e
              | None =>
                  Throw (JsError "TypeError"
                    "Cannot read properties of undefined (reading 'replace')")
              | Some JNull =>
                  Throw (JsError "TypeError"
                    "Cannot read properties of null (reading 'replace')")
              | Some _ =>
                  Throw (JsError "TypeError" "expr.replace is not a function")
              end;
     Ok ("Result: " +:+ shown_result result))
    (fun error => Ok ("Error: " +:+ exn_to_string error)).

(** The two maps of a [ToolManager].  [tools] keeps the insertion order
    of the JavaScript [Map]. *)
Record ToolManager : Type := {
  tools : list (string * ToolFunction);
  handlers : gmap string Handler
}.

(** [Map.prototype.set] on the ordered map: an existing key keeps its
    place. *)
Fixpoint map_set (k : string) (v : ToolFunction)
    (m : list (string * ToolFunction)) : list (string * ToolFunction) :=
  match m with
  | [] => [(k, v)]
  | (k', v') :: rest =>
      if String.eqb k k' then (k, v) :: rest
      else (k', v') :: map_set k v rest
  end.

Definition registerTool (tool : ToolFunction) (handler : Handler)
    (tm : ToolManager) : ToolManager * list Display :=
  ({| tools := map_set (name tool) tool (tools tm);
      handlers := <[name tool := handler]> (handlers tm) |},
   [displayInfo ("Registered tool: " +:+ name tool)]).

Definition BUILT_IN_calculate : ToolFunction :=
  {| name := "calculate";
     description := "Perform mathematical calculations";
     parameters :=
       JObj [("type", JStr "object");
             ("properties",
              JObj [("expression",
                     JObj [("type", JStr "string");
                           ("description",
                            JStr (JS.q "Mathematical expression to evaluate (e.g., '2 + 2', 'sqrt(16)', 'sin(pi/2)')"))])]);
             ("required", JArr [JStr "expression"])] |}.
Definition BUILT_IN_get_current_time : ToolFunction :=
  {| name := "get_current_time";
     description := "Get the current date and time";
     parameters :=
       JObj [("type", JStr "object");
             ("properties",
              JObj [("timezone",
                     JObj [("type", JStr "string");
                           ("description",
                            JStr (JS.q "Timezone (e.g., 'UTC', 'America/New_York'). Defaults to system timezone."))])])] |}.
Definition BUILT_IN_generate_random : ToolFunction :=
  {| name := "generate_random";
     description := "Generate random numbers or strings";
     parameters :=
       JObj [("type", JStr "object");
             ("properties",
              JObj [("type",
                     JObj [("type", JStr "string");
                           ("enum", JArr [JStr "number"; JStr "string";
                                          JStr "uuid"]);
                           ("description",
                            JStr "Type of random value to generate")]);
                    ("min",
                     JObj [("type", JStr "number");
                           ("description",
                            JStr "Minimum value for random number")]);
                    ("max",
                     JObj [("type", JStr "number");
                           ("description",
                            JStr "Maximum value for random number")]);
                    ("length",
                     JObj [("type", JStr "number");
                           ("description",
                            JStr "Length for random string")])]);
             ("required", JArr [JStr "type"])] |}.

(** [new ToolManager()], which registers the built-in tools. *)
Definition new_ToolManager : ToolManager * list Display :=
  let tm0 := {| tools := []; handlers := ∅ |} in
  let '(tm1, d1) := registerTool BUILT_IN_calculate calculate_handler tm0 in
  let '(tm2, d2) :=
    registerTool BUILT_IN_get_current_time get_current_time_handler tm1 in
  let '(tm3, d3) :=
    registerTool BUILT_IN_generate_random generate_random_handler tm2 in
  (tm3, d1 ++ d2 ++ d3).

(** [executeTool(toolCall)] *)
Definition executeTool (tm : ToolManager) (toolCall : ToolCall)
  : result ToolResponse :=
  match handlers tm !! function_name toolCall with
  | None =>
      Ok {| role := Api.tool;
            content := "Error: Unknown tool " +:+ JS.dquote
                       +:+ function_name toolCall +:+ JS.dquote;
            tool_call_id := id toolCall |}
  | Some handler =>
      try_catch
        (args ← JSON_parse (function_arguments toolCall);
         result ← handler args;
         Ok {| role := Api.tool;
               content := result;
               tool_call_id := id toolCall |})
        (fun error =>
           Ok {| role := Api.tool;
                 content := "Error executing tool: " +:+ exn_to_string error;
                 tool_call_id := id toolCall |})
  end.

End WithRuntime.

(** [{ type: 'function', function }] *)
Record Tool : Type := {
  type : string;
  function : ToolFunction
}.

(** [getTools()]: the declarations in the order of the [tools] map. *)
Definition getTools (tm : ToolManager) : list Tool :=
  map (fun entry => {| type := "function"; function := snd entry |})
    (tools tm).

(** [formatToolsForAPI(tools)] *)
Definition formatToolsForAPI (tools : list Tool) : list json :=
  map (fun tool =>
         JObj [("type", JStr (type tool));
               ("function",
                JObj [("name", JStr (name (function tool)));
                      ("description", JStr (description (function tool)));
                      ("parameters", parameters (function tool))])])
    tools.

(** The managers a program can hold: the empty maps of a fresh object,
    and what [registerTool] makes of a manager. *)
Inductive registered : ToolManager -> Prop :=
| registered_fresh : registered {| tools := []; handlers := ∅ |}
| registered_tool (tm : ToolManager) (tool : ToolFunction)
    (handler : Handler) :
    registered tm -> registered (fst (registerTool tool handler tm)).

End Tools.

(** ** [config.ts]: the configuration store *)

Module Config.

Record ConfigSchema : Type := {
  apiKey : option string;
  model : option string;
  maxTokens : option number;
  temperature : option number;
  conversationHistory : option bool;
  theme : option string
}.

(** The [defaults] the store is created with. *)
Definition defaults : ConfigSchema :=
  {| apiKey := None;
     model := Some "llama3.1-8b";
     maxTokens := Some (num_of_Z 1024);
     temperature := Some (Num (7 # 10));
     conversationHistory := Some true;
     theme := Some "colorful" |}.

(** [config.set(key, value)], one function per key. *)
Definition set_model (v : string) (c : ConfigSchema) : ConfigSchema :=
  {| apiKey := apiKey c; model := Some v; maxTokens := maxTokens c;
     temperature := temperature c;
     conversationHistory := conversationHistory c; theme := theme c |}.
Definition set_maxTokens (v : number) (c : ConfigSchema) : ConfigSchema :=
  {| apiKey := apiKey c; model := model c; maxTokens := Some v;
     temperature := temperature c;
     conversationHistory := conversationHistory c; theme := theme c |}.
Definition set_temperature (v : number) (c : ConfigSchema) : ConfigSchema :=
  {| apiKey := apiKey c; model := model c; maxTokens := maxTokens c;
     temperature := Some v;
     conversationHistory := conversationHistory c; theme := theme c |}.
Definition set_theme (v : string) (c : ConfigSchema) : ConfigSchema :=
  {| apiKey := apiKey c; model := model c; maxTokens := maxTokens c;
     temperature := temperature c;
     conversationHistory := conversationHistory c; theme := Some v |}.

(** [if (config.get('conversationHistory'))] *)
Definition history_enabled (c : ConfigSchema) : bool :=
  match conversationHistory c with
  | Some b => b
  | None => false
  end.

Definition set_apiKey (v : string) (c : ConfigSchema) : ConfigSchema :=
  {| apiKey := Some v; model := model c; maxTokens := maxTokens c;
     temperature := temperature c;
     conversationHistory := conversationHistory c; theme := theme c |}.
Definition set_conversationHistory (v : bool) (c : ConfigSchema)
  : ConfigSchema :=
  {| apiKey := apiKey c; model := model c; maxTokens := maxTokens c;
     temperature := temperature c;
     conversationHistory := Some v; theme := theme c |}.

(** [config.clear()]: every item is deleted, which puts the items that
    have a default back to it. *)
Definition clear (c : ConfigSchema) : ConfigSchema := defaults.

End Config.

(** ** [conversation.ts]: the message store and the session store *)

Module Conversation.
Import Api.

(** The files of the history directory, by file name.  The directory is
    the one [initialize] creates when history is enabled; session ids are
    file-name stems, [path.join(historyDir, `${id}.json`)] is the entry
    [id.json] of this map. *)
Abbreviation FileSystem := (gmap string string).

Record ConversationManager : Type := {
  messages : list ChatMessage;
  sessionId : string
}.

(** The document of a session file. *)
Record SessionData : Type := {
  id : string;
  date : string;
  session_messages : list ChatMessage
}.

Record SessionSummary : Type := {
  summary_id : string;
  summary_date : string;
  messageCount : Z
}.

(** *** Session documents as JSON values *)

Definition role_to_string (r : Role) : string :=
  match r with
  | system => "system"
  | user => "user"
  | assistant => "assistant"
  | tool => "tool"
  end.

Definition role_of_string (s : string) : option Role :=
  if String.eqb s "system" then Some system
  else if String.eqb s "user" then Some user
  else if String.eqb s "assistant" then Some assistant
  else if String.eqb s "tool" then Some tool
  else None.

(** The object a message is; absent optional properties are not
    written. *)
Definition message_to_json (m : ChatMessage) : json :=
  JObj ([("role", JStr (role_to_string (role m)));
         ("content", JStr (content m))]
        ++ match tool_calls m with
           | Some calls => [("tool_calls", JArr calls)]
           | None => []
           end
        ++ match tool_call_id m with
           | Some i => [("tool_call_id", JStr i)]
           | None => []
           end).

(** [{ id, date, messages }] *)
Definition session_to_json (d : SessionData) : json :=
  JObj [("id", JStr (id d));
        ("date", JStr (date d));
        ("messages", JArr (map message_to_json (session_messages d)))].

(** Reading a parsed value at the types the sources give it: a message
    as [ChatMessage]. *)
Definition message_of_json (v : json) : option ChatMessage :=
  match v with
  | JObj fields =>
      match Json.field "role" fields, Json.field "content" fields with
      | Some (JStr r), Some (JStr c) =>
          match role_of_string r with
          | Some r =>
              match Json.field "tool_calls" fields,
                    Json.field "tool_call_id" fields with
              | Some (JArr calls), Some (JStr i) =>
                  Some {| role := r; content := c;
                          tool_calls := Some calls; tool_call_id := Some i |}
              | Some (JArr calls), None =>
                  Some {| role := r; content := c;
                          tool_calls := Some calls; tool_call_id := None |}
              | None, Some (JStr i) =>
                  Some {| role := r; content := c;
                          tool_calls := None; tool_call_id := Some i |}
              | None, None =>
                  Some {| role := r; content := c;
                          tool_calls := None; tool_call_id := None |}
              | _, _ => None
              end
          | None => None
          end
      | _, _ => None
      end
  | _ => None
  end.

Fixpoint messages_of_json (items : list json) : option (list ChatMessage) :=
  match items with
  | [] => Some []
  | v :: rest =>
      match message_of_json v, messages_of_json rest with
      | Some m, Some ms => Some (m :: ms)
      | _, _ => None
      end
  end.

(** What reading fails with on a value that the sources would assign
    at a type it does not have.  The sources read the properties of a
    session document unchecked; the conversation and the summaries of the
    model hold typed values only, and a document with other values in the
    properties read is outside the model. *)
Definition untyped_document : exn :=
  JsError "TypeError" "not a session document".

(** A whole session document, [{ id, date, messages }], at the types of
    the sources. *)
Definition session_of_json (v : json) : result SessionData :=
  match v with
  | JObj fields =>
      match Json.field "id" fields, Json.field "date" fields,
            Json.field "messages" fields with
      | Some (JStr i), Some (JStr d), Some (JArr items) =>
          match messages_of_json items with
          | Some ms => Ok {| id := i; date := d; session_messages := ms |}
          | None => Throw untyped_document
          end
      | _, _, _ => Throw untyped_document
      end
  | _ => Throw untyped_document
  end.

(** What [loadSession] takes from the parsed document:
    [sessionData.messages] and [sessionData.id], and nothing else.
    Reading a property of [null] raises a [TypeError]. *)
Definition loaded_of_json (v : json) : result ConversationManager :=
  match v with
  | JNull =>
      Throw (JsError "TypeError"
               "Cannot read properties of null (reading 'messages')")
  | JObj fields =>
      match Json.field "messages" fields, Json.field "id" fields with
      | Some (JArr items), Some (JStr i) =>
          match messages_of_json items with
          | Some ms => Ok {| messages := ms; sessionId := i |}
          | None => Throw untyped_document
          end
      | _, _ => Throw untyped_document
      end
  | _ => Throw untyped_document
  end.

(** What [listSessions] takes from the parsed document:
    [sessionData.id], [sessionData.date] and
    [sessionData.messages.length]; the messages themselves are not looked
    at.  Reading [id] off [null], and [length] off a [messages] that is
    [undefined] or [null], raises a [TypeError]. *)
Definition summary_of_json (v : json) : result SessionSummary :=
  match v with
  | JNull =>
      Throw (JsError "TypeError"
               "Cannot read properties of null (reading 'id')")
  | JObj fields =>
      match Json.field "messages" fields with
      | None =>
          Throw (JsError "TypeError"
                   "Cannot read properties of undefined (reading 'length')")
      | Some JNull =>
          Throw (JsError "TypeError"
                   "Cannot read properties of null (reading 'length')")
      | Some messages =>
          match Json.field "id" fields, Json.field "date" fields,
                messages with
          | Some (JStr i), Some (JStr d), JArr items =>
              Ok {| summary_id := i; summary_date := d;
                    messageCount := Z.of_nat (length items) |}
          | Some (JStr i), Some (JStr d), JStr text =>
              Ok {| summary_id := i; summary_date := d;
                    messageCount := JS.length text |}
          | _, _, _ => Throw untyped_document
          end
      end
  | _ =>
      Throw (JsError "TypeError"
               "Cannot read properties of undefined (reading 'length')")
  end.

(** *** The methods of [ConversationManager] *)

(** [addMessage(message)] *)
Definition addMessage (message : ChatMessage) (cm : ConversationManager)
  : ConversationManager :=
  {| messages := messages cm ++ [message]; sessionId := sessionId cm |}.

(** [getMessages()] *)
Definition getMessages (cm : ConversationManager) : list ChatMessage :=
  messages cm.

(** [clear()] *)
Definition clear (cm : ConversationManager) : ConversationManager :=
  {| messages := []; sessionId := sessionId cm |}.

Definition session_file (sessionId : string) : string :=
  sessionId +:+ ".json".

(** [fs.readFile(path, 'utf-8')] *)
Definition readFile (fs : FileSystem) (file : string) : result string :=
  match fs !! file with
  | Some data => Ok data
  | None =>
      Throw (JsError "Error"
               ("ENOENT: no such file or directory, open '" +:+ file +:+ "'"))
  end.

(** The document [saveSession] writes for a conversation. *)
Definition saved_document (now : string) (cm : ConversationManager) : json :=
  session_to_json
    {| id := sessionId cm; date := now; session_messages := messages cm |}.

Section WithRuntime.
Context {RT : Runtime}.

(** [saveSession()]; [now] is [new Date().toISOString()]. *)
Definition saveSession (cfg : Config.ConfigSchema) (now : string)
    (cm : ConversationManager) (fs : FileSystem) : FileSystem :=
  if negb (Config.history_enabled cfg) then fs
  else
    let sessionFile := session_file (sessionId cm) in
    let sessionData :=
      {| id := sessionId cm; date := now;
         session_messages := messages cm |} in
    <[sessionFile := JSON_stringify (session_to_json sessionData)]> fs.

(** [loadSession(sessionId)] *)
Definition loadSession (sessionId : string) (cm : ConversationManager)
    (fs : FileSystem) : result ConversationManager :=
  let sessionFile := session_file sessionId in
  try_catch
    (data ← readFile fs sessionFile;
     sessionData ← JSON_parse data;
     loaded_of_json sessionData)
    (fun error =>
       Throw (new_Error ("Failed to load session: "
                         +:+ exn_to_string error))).

(** [fs.readdir(historyDir)] *)
Definition readdir (fs : FileSystem) : list string :=
  (map_to_list fs).*1.

(** The [for (const file of files)] loop of [listSessions]. *)
Fixpoint read_summaries (fs : FileSystem) (files : list string)
  : result (list SessionSummary) :=
  match files with
  | [] => Ok []
  | file :: rest =>
      if JS.endsWith file ".json" then
        data ← readFile fs file;
        sessionData ← JSON_parse data;
        summary ← summary_of_json sessionData;
        sessions ← read_summaries fs rest;
        Ok (summary :: sessions)
      else read_summaries fs rest
  end.

(** The comparator of the sort is positive, so that [a] is placed after
    [b], when [b] is the more recent. *)
Definition more_recent (b a : SessionSummary) : bool :=
  num_ltb (Date_getTime (summary_date a)) (Date_getTime (summary_date b)).

Fixpoint insert_by_date (x : SessionSummary) (l : list SessionSummary)
  : list SessionSummary :=
  match l with
  | [] => [x]
  | y :: rest =>
      if more_recent y x then y :: insert_by_date x rest else x :: l
  end.

(** [sessions.sort(...)]: stable, most recent first. *)
Fixpoint sort_by_date (l : list SessionSummary) : list SessionSummary :=
  match l with
  | [] => []
  | x :: rest => insert_by_date x (sort_by_date rest)
  end.

(** [listSessions()] *)
Definition listSessions (fs : FileSystem) : list SessionSummary :=
  match read_summaries fs (readdir fs) with
  | Ok sessions => sort_by_date sessions
  | Throw _ => []
  end.

(** [deleteSession(sessionId)] *)
Definition deleteSession (sessionId : string) (fs : FileSystem)
  : result FileSystem :=
  match fs !! session_file sessionId with
  | Some _ => Ok (delete (session_file sessionId) fs)
  | None =>
      Throw (JsError "Error"
               ("ENOENT: no such file or directory, unlink '"
                +:+ session_file sessionId +:+ "'"))
  end.

End WithRuntime.

(** [getLastAssistantMessage()] *)
Fixpoint last_with_role (r : Role) (ms : list ChatMessage) : option string :=
  match ms with
  | [] => None
  | m :: rest =>
      match last_with_role r rest with
      | Some c => Some c
      | None =>
          match role m, r with
          | system, system | user, user | assistant, assistant
          | tool, tool => Some (content m)
          | _, _ => None
          end
      end
  end.

Definition getLastUserMessage (cm : ConversationManager) : option string :=
  last_with_role user (messages cm).
Definition getLastAssistantMessage (cm : ConversationManager)
  : option string :=
  last_with_role assistant (messages cm).

End Conversation.

(** ** [file-operations.ts]: the export of a conversation *)

Module FileOperations.
Import Api Conversation.

(** The formats of an exported conversation, ['json' | 'md' | 'txt']. *)
Inductive ExportFormat : Type := format_json | format_md | format_txt.

Definition format_name (f : ExportFormat) : string :=
  match f with
  | format_json => "json"
  | format_md => "md"
  | format_txt => "txt"
  end.

(** [s.toUpperCase()] on the ASCII letters. *)
Definition upper_ascii (c : ascii) : ascii :=
  let n := nat_of_ascii c in
  if ((97 <=? n) && (n <=? 122))%nat then ascii_of_nat (n - 32) else c.

(** [role.charAt(0).toUpperCase() + role.slice(1)] *)
Definition capitalize (role : string) : string :=
  match role with
  | "" => ""
  | String c rest => String (upper_ascii c) rest
  end.

(** [text.repeat(n)] *)
Definition repeat_text (text : string) (n : nat) : string :=
  String.concat "" (repeat text n).

Definition nl : string := JS.newline.

(** What the [forEach] of the Markdown export adds for one message; a
    message that is neither a system, a user nor an assistant message adds
    nothing. *)
Definition md_block (msg : ChatMessage) : string :=
  match role msg with
  | system =>
      "## System Prompt" +:+ nl +:+ nl +:+ content msg +:+ nl +:+ nl
      +:+ "---" +:+ nl +:+ nl
  | user =>
      "### 👤 You" +:+ nl +:+ nl +:+ content msg +:+ nl +:+ nl
  | assistant =>
      "### 🤖 AI" +:+ nl +:+ nl +:+ content msg +:+ nl +:+ nl
      +:+ "---" +:+ nl +:+ nl
  | tool => ""
  end.

(** What the [forEach] of the plain-text export adds for one message. *)
Definition txt_block (msg : ChatMessage) : string :=
  capitalize (role_to_string (role msg)) +:+ ":" +:+ nl +:+ content msg
  +:+ nl +:+ nl +:+ repeat_text "-" 30 +:+ nl +:+ nl.

Section WithRuntime.
Context {RT : Runtime}.

(** The text [saveConversation] writes: [timestamp] is
    [new Date().toISOString()]. *)
Definition export_content (format : ExportFormat) (timestamp : string)
    (messages : list ChatMessage) : string :=
  match format with
  | format_json =>
      JSON_stringify
        (JObj [("timestamp", JStr timestamp);
               ("messages", JArr (map message_to_json messages))])
  | format_md =>
      fold_left (fun content msg => content +:+ md_block msg) messages
        ("# Conversation Export" +:+ nl +:+ nl
         +:+ ("**Date:** " +:+ timestamp +:+ nl +:+ nl +:+ "---" +:+ nl +:+ nl))
  | format_txt =>
      fold_left (fun content msg => content +:+ txt_block msg) messages
        (("Conversation Export" +:+ nl)
         +:+ ("Date: " +:+ timestamp +:+ nl)
         +:+ (repeat_text "=" 50 +:+ nl +:+ nl))
  end.

End WithRuntime.

End FileOperations.

(** ** The interactive chat: commands, message sending, search *)

Module Chat.
Import Api Conversation FileOperations.

(** The objects an [InteractiveChat] works on: its conversation manager,
    the [config] singleton, the history directory, and its own flag. *)
Record State : Type := {
  conversation : ConversationManager;
  config : Config.ConfigSchema;
  fs : FileSystem;
  isRunning : bool
}.

(** What the outside world answers while one line of input is handled. *)
Record World : Type := {
  (** [new Date().toISOString()] *)
  now : string;
  (** the endpoint's answer to a streamed completion request *)
  post : ChatCompletionRequest -> Response;
  (** how many data events arrive after the promise of
      [streamChatCompletion] has settled and before the [await] on it
      resumes (events emitted in the same turn of the event loop) *)
  late_events : nat;
  (** [api.listModels()], the model ids *)
  listModels : result (list string);
  (** the answer to a [confirm] prompt *)
  confirm : bool;
  (** the position of the entry picked in a [list] prompt *)
  choose : nat;
  (** the answers to the two prompts of [/export] *)
  export_filename : string;
  export_format : ExportFormat;
  (** what [fs.writeFile] throws on the export path, if it fails *)
  write_fails : option exn;
  (** the entry of the history directory that a path denotes, when it
      denotes one *)
  history_entry : string -> option string;
  (** whether [copyToClipboard] succeeds *)
  clipboard_ok : bool;
  (** [FileOperations.readFile] followed by [formatFileContent] *)
  read_file : string -> option string
}.

(** Computations over the state that display things and may throw.  The
    state reached when an exception is thrown is kept. *)
Definition M (A : Type) : Type := State -> result A * State * list Display.

#[global] Instance M_ret : MRet M := fun _ a s => (Ok a, s, []).
#[global] Instance M_bind : MBind M := fun _ _ f m s =>
  match m s with
  | (Ok a, s', d) => let '(r, s'', d') := f a s' in (r, s'', d ++ d')
  | (Throw e, s', d) => (Throw e, s', d)
  end.

Definition emit (d : Display) : M unit := fun s => (Ok tt, s, [d]).
Definition emit_all (ds : list Display) : M unit := fun s => (Ok tt, s, ds).
Definition gets {A : Type} (f : State -> A) : M A := fun s => (Ok (f s), s, []).
Definition modify (f : State -> State) : M unit := fun s => (Ok tt, f s, []).
Definition lift {A : Type} (r : result A) : M A := fun s => (r, s, []).

(** [try { body } catch (error) { handler }] *)
Definition catch {A : Type} (body : M A) (handler : exn -> M A) : M A :=
  fun s =>
    match body s with
    | (Ok a, s', d) => (Ok a, s', d)
    | (Throw e, s', d) => let '(r, s'', d') := handler e s' in (r, s'', d ++ d')
    end.

Definition set_conversation (cm : ConversationManager) (s : State) : State :=
  {| conversation := cm; config := config s; fs := fs s;
     isRunning := isRunning s |}.
Definition set_config (c : Config.ConfigSchema) (s : State) : State :=
  {| conversation := conversation s; config := c; fs := fs s;
     isRunning := isRunning s |}.
Definition set_fs (f : FileSystem) (s : State) : State :=
  {| conversation := conversation s; config := config s; fs := f;
     isRunning := isRunning s |}.
Definition set_isRunning (b : bool) (s : State) : State :=
  {| conversation := conversation s; config := config s; fs := fs s;
     isRunning := b |}.

(** [if (text)] for a string *)
Definition nonempty (text : string) : bool := negb (String.eqb text "").

(** The path and the format [exportConversation] hands to
    [FileOperations.saveConversation]: asked for when no path was given
    ([filename] and [format] are the two answers), read off the extension
    otherwise. *)
Definition export_target (outputPath filename : string)
    (format : ExportFormat) : string * ExportFormat :=
  if negb (nonempty outputPath)
  then (filename +:+ "." +:+ format_name format, format)
  else if JS.endsWith outputPath ".json" then (outputPath, format_json)
  else if JS.endsWith outputPath ".txt" then (outputPath, format_txt)
  else if negb (JS.endsWith outputPath ".md")
       then (outputPath +:+ ".md", format_md)
  else (outputPath, format_md).

(** [text.padEnd(n)] *)
Definition padEnd (text : string) (n : nat) : string :=
  text +:+ String.concat "" (repeat " " (n - String.length text)).

(** The value of the picked entry of a [list] prompt: the prompt returns
    the value of one of the entries on offer, so the position is taken
    modulo their number. *)
Definition picked (w : World) (values : list string) : string :=
  nth (choose w `mod` length values)%nat values "".

(** [temp >= 0 && temp <= 2] *)
Definition valid_temperature (temp : number) : bool :=
  num_leb (num_of_Z 0) temp && num_leb temp (num_of_Z 2).

(** [extractSnippet(content, query)], with the default context length *)
Definition contextLength : Z := 50.

Definition extractSnippet (content query : string) : string :=
  let index := JS.indexOf (JS.toLowerCase content) (JS.toLowerCase query) in
  if index =? -1 then ""
  else
    let start := Z.max 0 (index - contextLength) in
    let end_ := Z.min (JS.length content)
                  (index + JS.length query + contextLength) in
    let snippet := JS.substring content start end_ in
    let snippet := if 0 <? start then "..." +:+ snippet else snippet in
    let snippet := if end_ <? JS.length content
                   then snippet +:+ "..." else snippet in
    JS.trim snippet.


Section WithRuntime.
Context {RT : Runtime} (w : World).

(** How [`${config.get(key)}`] shows a value that may be unset. *)
Definition shown_number (v : option number) : string :=
  match v with
  | Some t => number_to_string t
  | None => "undefined"
  end.

Definition shown_text (v : option string) : string :=
  match v with
  | Some t => t
  | None => "undefined"
  end.

Definition conversation_addMessage (m : ChatMessage) : M unit :=
  modify (fun s => set_conversation (addMessage m (conversation s)) s).
Definition conversation_clear : M unit :=
  modify (fun s => set_conversation (clear (conversation s)) s).
Definition conversation_saveSession : M unit :=
  modify (fun s =>
            set_fs (saveSession (config s) (now w) (conversation s) (fs s)) s).
Definition conversation_loadSession (sessionId : string) : M unit :=
  fun s =>
    match loadSession sessionId (conversation s) (fs s) with
    | Ok cm => (Ok tt, set_conversation cm s, [])
    | Throw e => (Throw e, s, [])
    end.
Definition conversation_listSessions : M (list SessionSummary) :=
  gets (fun s => listSessions (fs s)).

(** The [forEach] that prints a loaded conversation. *)
Definition show_messages (ms : list ChatMessage) : list Display :=
  flat_map (fun msg =>
              match role msg with
              | system => []
              | r => [console_log_message (role_to_string r) (content msg)]
              end) ms.

(** [showHelp()], colours left out *)
Definition help_table : list (string * string) :=
  [("/help", "Show this help message");
   ("/clear", "Clear the conversation");
   ("/save", "Save the current conversation");
   ("/history", "Show conversation history");
   ("/copy", "Copy last AI response to clipboard");
   ("/file [path]", "Read a file and include in context");
   ("/export [path]", "Export conversation to file (md/json/txt)");
   ("/search [query]", "Search through conversation history");
   ("/model [name]", "Change or show available models");
   ("/system [prompt]", "Set a new system prompt");
   ("/temp [0-2]", "Set or show temperature");
   ("/tokens [number]", "Set or show max tokens");
   ("/theme [name]", "Change theme (default, dark, light, colorful)");
   ("/exit", "Exit the chat")].

Definition showHelp : M unit :=
  emit_all
    ([console_log "Available Commands:"]
     ++ map (fun '(cmd, desc) =>
               console_log ("  " +:+ padEnd cmd 20 +:+ " " +:+ desc))
          help_table
     ++ [console_log ""]).

(** The request [sendMessage] builds: the configured values, with their
    fall-backs, and the whole transcript. *)
Definition completion_request (cfg : Config.ConfigSchema)
    (messages : list ChatMessage) : ChatCompletionRequest :=
  let model := match Config.model cfg with
               | Some m => if nonempty m then m else "llama3.1-8b"
               | None => "llama3.1-8b"
               end in
  let temperature := match Config.temperature cfg with
                     | Some t => if num_truthy t then t else Num (7 # 10)
                     | None => Num (7 # 10)
                     end in
  let maxTokens := match Config.maxTokens cfg with
                   | Some t => if num_truthy t then t else num_of_Z 1024
                   | None => num_of_Z 1024
                   end in
  {| Api.model := model; Api.messages := messages;
     Api.temperature := Some temperature;
     Api.max_tokens := Some maxTokens;
     Api.stream := Some true |}.

(** The effects of the [onChunk] calls of [sendMessage] on the terminal:
    the first one stops the spinner and prints the prefix. *)
Definition chunk_displays (chunks : list json) : list Display :=
  match chunks with
  | [] => []
  | _ => [spinner_stop; console_log "AI:"]
  end ++ map stdout_write_markdown chunks.

(** The calls of the chunk callback that [sendMessage] has seen when its
    [await] resumes: those made until the promise settled, and those of
    the data events that arrived in between. *)
Definition chunks_seen (response : Response) : list json :=
  fst (streamChatCompletion response)
  ++ concat (firstn (late_events w) (late response)).

(** [sendMessage(content)] *)
Definition sendMessage (content : string) : M unit :=
  conversation_addMessage
    {| role := user; content := content;
       tool_calls := None; tool_call_id := None |};;
  emit (spinner_start "Thinking...");;
  catch
    (cfg ← gets config;
     messages ← gets (fun s => getMessages (conversation s));
     let response := post w (completion_request cfg messages) in
     let chunks := chunks_seen response in
     emit_all (chunk_displays chunks);;
     (* [fullResponse += chunk] for each of them *)
     let fullResponse := String.concat "" (map json_to_string chunks) in
     lift (snd (streamChatCompletion response));;
     emit (console_log JS.newline);;
     conversation_addMessage
       {| role := assistant; content := fullResponse;
          tool_calls := None; tool_call_id := None |};;
     (* Auto-save if enabled *)
     cfg ← gets config;
     if Config.history_enabled cfg then conversation_saveSession
     else mret tt)
    (fun error =>
       emit spinner_stop;;
       emit (displayError ("Failed to get response: "
                           +:+ exn_to_string error))).

(** [showHistory()] *)
Definition showHistory : M unit :=
  sessions ← conversation_listSessions;
  match sessions with
  | [] => emit (displayInfo "No conversation history found")
  | _ =>
      let values := map summary_id sessions ++ ["cancel"] in
      let sessionId := picked w values in
      if negb (String.eqb sessionId "cancel") then
        conversation_loadSession sessionId;;
        emit (displaySuccess "Conversation loaded");;
        messages ← gets (fun s => getMessages (conversation s));
        emit_all (show_messages messages)
      else mret tt
  end.

(** [showModels()] *)
Definition showModels : M unit :=
  emit (spinner_start "Fetching available models...");;
  catch
    (models ← lift (listModels w);
     emit spinner_stop;;
     let model := picked w models in
     modify (fun s => set_config (Config.set_model model (config s)) s);;
     emit (displaySuccess ("Model changed to: " +:+ model)))
    (fun error =>
       emit spinner_stop;;
       emit (displayError ("Failed to fetch models: "
                           +:+ exn_to_string error))).

(** [copyLastMessage()] *)
Definition copyLastMessage : M unit :=
  lastMessage ← gets (fun s => getLastAssistantMessage (conversation s));
  match lastMessage with
  | Some text =>
      if nonempty text then
        if clipboard_ok w
        then emit (displaySuccess "Last AI response copied to clipboard")
        else emit (displayError "Failed to copy to clipboard")
      else emit (displayWarning "No AI response to copy")
  | None => emit (displayWarning "No AI response to copy")
  end.

(** [handleExit()]; [process.exit(0)] ends the program. *)
Definition handleExit : M unit :=
  messages ← gets (fun s => getMessages (conversation s));
  (match messages with
   | [] => mret tt
   | _ =>
       if confirm w then
         conversation_saveSession;;
         emit (displaySuccess "Conversation saved")
       else mret tt
   end);;
  emit (displayInfo "Goodbye!");;
  modify (set_isRunning false).

(** [readFile(filePath)] *)
Definition readFile (filePath : string) : M unit :=
  emit (spinner_start "Reading file...");;
  emit spinner_stop;;
  match read_file w filePath with
  | Some formattedContent =>
      let userMessage :=
        "Please analyze this file:" +:+ JS.newline +:+ formattedContent in
      emit (displayInfo ("File loaded: " +:+ filePath));;
      sendMessage userMessage
  | None => mret tt
  end.

(** [FileOperations.saveConversation(messages, outputPath, format)]:
    the text is written to [outputPath], which may be a file of the
    history directory. *)
Definition saveConversation (messages : list ChatMessage)
    (outputPath : string) (format : ExportFormat) : M bool :=
  let content := export_content format (now w) messages in
  match write_fails w with
  | None =>
      modify (fun s =>
                match history_entry w outputPath with
                | Some file => set_fs (<[file := content]> (fs s)) s
                | None => s
                end);;
      emit (displayInfo ("Conversation saved to: " +:+ outputPath));;
      mret true
  | Some error =>
      emit (displayError ("Failed to save conversation: "
                          +:+ exn_to_string error));;
      mret false
  end.

(** [exportConversation(outputPath)] *)
Definition exportConversation (outputPath : string) : M unit :=
  messages ← gets (fun s => getMessages (conversation s));
  match messages with
  | [] => emit (displayWarning "No messages to export")
  | _ =>
      let '(path, format) :=
        export_target outputPath (export_filename w) (export_format w) in
      saveConversation messages path format;;
      mret tt
  end.

(** The [messages.forEach] of the search: one entry per message whose
    content contains the query, case-insensitively. *)
Definition session_matches (query : string) (messages : list ChatMessage)
  : list string :=
  flat_map (fun msg =>
              if JS.includes (JS.toLowerCase (content msg))
                   (JS.toLowerCase query)
              then [role_to_string (role msg) +:+ ": "
                    +:+ extractSnippet (content msg) query]
              else []) messages.

Record SearchResult : Type := {
  result_sessionId : string;
  result_date : string;
  matches : list string
}.

(** The [for (const session of sessions)] loop of the search: each
    session is loaded into the live conversation; one that fails to
    load is skipped. *)
Fixpoint search_sessions (query : string) (sessions : list SessionSummary)
  : M (list SearchResult) :=
  match sessions with
  | [] => mret []
  | session :: rest =>
      found ← catch
                (conversation_loadSession (summary_id session);;
                 messages ← gets (fun s => getMessages (conversation s));
                 let matches := session_matches query messages in
                 match matches with
                 | [] => mret []
                 | _ =>
                     mret [{| result_sessionId := summary_id session;
                              result_date := summary_date session;
                              (* Show max 3 matches per session *)
                              matches := firstn 3 matches |}]
                 end)
                (fun _ => (* Skip corrupted sessions *) mret []);
      more ← search_sessions query rest;
      mret (found ++ more)
  end.

Definition nat_to_string (n : nat) : string :=
  number_to_string (num_of_Z (Z.of_nat n)).

Fixpoint show_results (index : nat) (results : list SearchResult)
  : list Display :=
  match results with
  | [] => []
  | r :: rest =>
      [console_log (nat_to_string (index + 1) +:+ ". Session from "
                    +:+ Date_toLocaleString (result_date r))]
      ++ map (fun m => console_log ("   - " +:+ m)) (matches r)
      ++ [console_log ""]
      ++ show_results (S index) rest
  end.

(** [searchConversations(query)] *)
Definition searchConversations (query : string) : M unit :=
  sessions ← conversation_listSessions;
  match sessions with
  | [] => emit (displayInfo "No conversation history to search")
  | _ =>
      emit (displayInfo ("Searching for: " +:+ JS.dquote +:+ query
                         +:+ JS.dquote +:+ "..."));;
      results ← search_sessions query sessions;
      (* Clear messages after search *)
      conversation_clear;;
      match results with
      | [] => emit (displayInfo "No matches found")
      | _ =>
          emit (console_log ("Found " +:+ nat_to_string (length results)
                             +:+ " conversations with matches:"));;
          emit_all (show_results 0 results);;
          if confirm w then
            let sessionId := picked w (map result_sessionId results) in
            conversation_loadSession sessionId;;
            emit (displaySuccess "Conversation loaded");;
            messages ← gets (fun s => getMessages (conversation s));
            emit_all (show_messages messages)
          else mret tt
      end
  end.

Definition validThemes : list string :=
  ["default"; "dark"; "light"; "colorful"].

(** [handleCommand(command)] *)
Definition handleCommand (command : string) : M unit :=
  let parts := JS.split (JS.drop 1 command) " " in
  let cmd := hd "" parts in
  let arg := JS.join (tl parts) " " in
  let cmd_lower := JS.toLowerCase cmd in
  let named (n : string) := String.eqb cmd_lower n in
  if named "help" then showHelp
  else if named "clear" then
    conversation_clear;;
    emit console_clear;;
    emit displayBanner;;
    emit (displaySuccess "Conversation cleared")
  else if named "save" then
    conversation_saveSession;;
    emit (displaySuccess "Conversation saved")
  else if named "history" then showHistory
  else if named "copy" then copyLastMessage
  else if named "model" then
    if nonempty arg then
      modify (fun s => set_config (Config.set_model arg (config s)) s);;
      emit (displaySuccess ("Model changed to: " +:+ arg))
    else showModels
  else if named "system" then
    if nonempty arg then
      conversation_clear;;
      conversation_addMessage
        {| role := system; content := arg;
           tool_calls := None; tool_call_id := None |};;
      emit (displaySuccess "System prompt updated")
    else emit (displayWarning "Please provide a system prompt")
  else if named "temp" || named "temperature" then
    if nonempty arg then
      let temp := parseFloat arg in
      if valid_temperature temp then
        modify (fun s =>
                  set_config (Config.set_temperature temp (config s)) s);;
        emit (displaySuccess ("Temperature set to: "
                              +:+ number_to_string temp))
      else emit (displayError "Temperature must be between 0 and 2")
    else
      cfg ← gets config;
      emit (displayInfo
              ("Current temperature: "
               +:+ shown_number (Config.temperature cfg)))
  else if named "tokens" || named "maxtokens" then
    if nonempty arg then
      let tokens := parseInt arg in
      if num_ltb (num_of_Z 0) tokens then
        modify (fun s =>
                  set_config (Config.set_maxTokens tokens (config s)) s);;
        emit (displaySuccess ("Max tokens set to: "
                              +:+ number_to_string tokens))
      else emit (displayError "Max tokens must be a positive number")
    else
      cfg ← gets config;
      emit (displayInfo
              ("Current max tokens: "
               +:+ shown_number (Config.maxTokens cfg)))
  else if named "theme" then
    if nonempty arg then
      if existsb (String.eqb arg) validThemes then
        modify (fun s => set_config (Config.set_theme arg (config s)) s);;
        emit (displaySuccess ("Theme changed to: " +:+ arg))
      else emit (displayError ("Invalid theme. Choose from: "
                               +:+ JS.join validThemes ", "))
    else
      cfg ← gets config;
      emit (displayInfo
              ("Current theme: "
               +:+ shown_text (Config.theme cfg)))
  else if named "file" || named "read" then
    if nonempty arg then readFile arg
    else emit (displayWarning "Please provide a file path to read")
  else if named "export" then exportConversation arg
  else if named "search" then
    if nonempty arg then searchConversations arg
    else emit (displayWarning "Please provide a search query")
  else if named "exit" || named "quit" then handleExit
  else emit (displayWarning ("Unknown command: " +:+ cmd
                             +:+ ". Type /help for available commands.")).

(** [handleUserInput(input)] *)
Definition handleUserInput (input : string) : M unit :=
  if JS.startsWith input "/" then handleCommand input
  else sendMessage input.

End WithRuntime.

End Chat.

(** ** The search snippet over 16-bit code units

    The strings of the sources are sequences of 16-bit code units.  The
    model keeps to the code units below U+0100, which [string] holds;
    there lower-casing maps code unit to code unit.  Beyond them it does
    not: U+0130 lower-cases to the two code units U+0069 U+0307.
    [extractSnippet] is the one function of the sources whose result
    depends on this, because it takes a position in the lower-cased
    content and cuts the content itself there; it is embedded a second
    time here, over lists of code units. *)

Module Wide.

Definition text : Type := list N.

Definition of_string (s : string) : text :=
  map N_of_ascii (list_ascii_of_string s).

(** [toLowerCase] on one code unit: the capitals below U+0100 as in
    [JS.lower_ascii], and U+0130.  Of the code units beyond U+00FF only
    U+0130 is in the table; the others are taken as their own lower case. *)
Definition lower_unit (u : N) : text :=
  if (((65 <=? u) && (u <=? 90))
      || ((192 <=? u) && (u <=? 222) && negb (u =? 215)))%N
  then [(u + 32)%N]
  else if (u =? 304)%N then [105%N; 775%N]
  else [u].

Definition toLowerCase (t : text) : text := flat_map lower_unit t.

Fixpoint prefix (p t : text) : bool :=
  match p, t with
  | [], _ => true
  | _ :: _, [] => false
  | a :: p', b :: t' => if (a =? b)%N then prefix p' t' else false
  end.

(** [hay.indexOf(needle)] *)
Fixpoint indexOf (hay needle : text) : Z :=
  if prefix needle hay then 0
  else match hay with
       | [] => -1
       | _ :: hay' =>
           let i := indexOf hay' needle in
           if i <? 0 then -1 else i + 1
       end.

Definition length (t : text) : Z := Z.of_nat (List.length t).

(** [s.substring(a, b)] *)
Definition substring (t : text) (a b : Z) : text :=
  let clamp x := Z.max 0 (Z.min x (length t)) in
  let lo := Z.min (clamp a) (clamp b) in
  let hi := Z.max (clamp a) (clamp b) in
  firstn (Z.to_nat (hi - lo)) (skipn (Z.to_nat lo) t).

(** White space as [trim] understands it. *)
Definition is_space (u : N) : bool :=
  ((u =? 32) || ((9 <=? u) && (u <=? 13)) || (u =? 160) || (u =? 5760)
   || ((8192 <=? u) && (u <=? 8202)) || (u =? 8232) || (u =? 8233)
   || (u =? 8239) || (u =? 8287) || (u =? 12288) || (u =? 65279))%N.

Fixpoint trimStart (t : text) : text :=
  match t with
  | [] => []
  | u :: t' => if is_space u then trimStart t' else t
  end.

Fixpoint trimEnd (t : text) : text :=
  match t with
  | [] => []
  | u :: t' =>
      match trimEnd t' with
      | [] => if is_space u then [] else [u]
      | rest => u :: rest
      end
  end.

Definition trim (t : text) : text := trimEnd (trimStart t).

(** [extractSnippet(content, query)], with the default context length *)
Definition extractSnippet (content query : text) : text :=
  let index := indexOf (toLowerCase content) (toLowerCase query) in
  if index =? -1 then []
  else
    let start := Z.max 0 (index - Chat.contextLength) in
    let end_ := Z.min (length content)
                  (index + length query + Chat.contextLength) in
    let snippet := substring content start end_ in
    let snippet := if 0 <? start then of_string "..." ++ snippet
                   else snippet in
    let snippet := if end_ <? length content
                   then snippet ++ of_string "..." else snippet in
    trim snippet.

End Wide.

(** ** [utils.ts]: text helpers *)

Module Utils.

(** [truncateString(str, maxLength)], for a whole number [maxLength] *)
Definition truncateString (str : string) (maxLength : Z) : string :=
  if JS.length str <=? maxLength then str
  else JS.substring str 0 (maxLength - 3) +:+ "...".

End Utils.

(** ** [index.ts]: the [config] command *)

Module Cli.
Import Chat.

(** The masked form of the API key shown by [config --show]:
    [value.substring(0, 8) + '...' + value.substring(value.length - 4)] *)
Definition mask_api_key (value : string) : string :=
  JS.substring value 0 8 +:+ "..."
  +:+ JS.substring value (JS.length value - 4) (JS.length value).

(** The options of [cere config] that change settings, as the option
    parser hands them over: [--temperature] and [--max-tokens] have gone
    through [parseFloat] and [parseInt]. *)
Record ConfigOptions : Type := {
  opt_apiKey : option string;
  opt_model : option string;
  opt_temperature : option number;
  opt_maxTokens : option number;
  opt_theme : option string;
  opt_history : option string
}.

(** [if (options.key)] for an optional string *)
Definition given (v : option string) : option string :=
  match v with
  | Some text => if nonempty text then Some text else None
  | None => None
  end.

Section WithRuntime.
Context {RT : Runtime}.

(** One step of the action: the configuration, whether something has
    changed, and what was displayed. *)
Definition Step : Type := Config.ConfigSchema * bool * list Display.

Definition apply_apiKey (options : ConfigOptions) (st : Step) : Step :=
  let '(cfg, changed, out) := st in
  match given (opt_apiKey options) with
  | Some key =>
      (Config.set_apiKey key cfg, true, out ++ [displaySuccess "API key saved"])
  | None => st
  end.

Definition apply_model (options : ConfigOptions) (st : Step) : Step :=
  let '(cfg, changed, out) := st in
  match given (opt_model options) with
  | Some model =>
      (Config.set_model model cfg, true,
       out ++ [displaySuccess ("Default model set to: " +:+ model)])
  | None => st
  end.

Definition apply_temperature (options : ConfigOptions) (st : Step) : Step :=
  let '(cfg, changed, out) := st in
  match opt_temperature options with
  | Some temperature =>
      if valid_temperature temperature then
        (Config.set_temperature temperature cfg, true,
         out ++ [displaySuccess ("Default temperature set to: "
                                 +:+ number_to_string temperature)])
      else (cfg, changed,
            out ++ [displayError "Temperature must be between 0 and 2"])
  | None => st
  end.

Definition apply_maxTokens (options : ConfigOptions) (st : Step) : Step :=
  let '(cfg, changed, out) := st in
  match opt_maxTokens options with
  | Some maxTokens =>
      if num_ltb (num_of_Z 0) maxTokens then
        (Config.set_maxTokens maxTokens cfg, true,
         out ++ [displaySuccess ("Default max tokens set to: "
                                 +:+ number_to_string maxTokens)])
      else (cfg, changed,
            out ++ [displayError "Max tokens must be a positive number"])
  | None => st
  end.

Definition apply_theme (options : ConfigOptions) (st : Step) : Step :=
  let '(cfg, changed, out) := st in
  match given (opt_theme options) with
  | Some theme =>
      if existsb (String.eqb theme) validThemes then
        (Config.set_theme theme cfg, true,
         out ++ [displaySuccess ("Theme set to: " +:+ theme)])
      else (cfg, changed,
            out ++ [displayError ("Invalid theme. Choose from: "
                                  +:+ JS.join validThemes ", ")])
  | None => st
  end.

Definition apply_history (options : ConfigOptions) (st : Step) : Step :=
  let '(cfg, changed, out) := st in
  match opt_history options with
  | Some text =>
      let enabled := String.eqb text "true" in
      (Config.set_conversationHistory enabled cfg, true,
       out ++ [displaySuccess ("Conversation history "
                               +:+ if enabled then "enabled" else "disabled")])
  | None => st
  end.

(** The action of [cere config] without [--show] and [--reset]: the
    options are looked at one after the other. *)
Definition config_action (options : ConfigOptions)
    (cfg : Config.ConfigSchema) : Config.ConfigSchema * list Display :=
  let '(cfg, changed, out) :=
    apply_history options
      (apply_theme options
         (apply_maxTokens options
            (apply_temperature options
               (apply_model options
                  (apply_apiKey options (cfg, false, [])))))) in
  (cfg,
   if changed : bool then out
   else out ++ [displayInfo
                  "No configuration changes made. Use --help to see available options."]).

(** [cere config --reset]; [confirmed] is the answer to the prompt. *)
Definition config_reset (confirmed : bool) (cfg : Config.ConfigSchema)
  : Config.ConfigSchema * list Display :=
  if confirmed
  then (Config.clear cfg, [displaySuccess "Configuration reset to defaults"])
  else (cfg, []).

End WithRuntime.

(** The settings that the validating commands guard: a stored temperature
    lies between 0 and 2, a stored token limit is positive, a stored theme
    is one of the four themes. *)
Definition guarded (cfg : Config.ConfigSchema) : bool :=
  match Config.temperature cfg with
  | Some t => valid_temperature t
  | None => true
  end
  && match Config.maxTokens cfg with
     | Some n => num_ltb (num_of_Z 0) n
     | None => true
     end
  && match Config.theme cfg with
     | Some t => existsb (String.eqb t) validThemes
     | None => true
     end.

End Cli.

(** ** A reference runtime

    Executable stand-ins for the operations of [Runtime], used to run the
    model on concrete inputs.  Properties that do not depend on the runtime
    are stated for an arbitrary [Runtime]; this one supplies the examples.
    It reads JSON text (objects, arrays, strings with the simple escapes,
    decimal numbers, [true], [false], [null]), prints it without layout,
    reads and prints decimal numbers, and evaluates arithmetic over decimal
    literals with [+ - * /], unary minus and parentheses. *)

Module Reference.

Definition is_digit (c : ascii) : bool :=
  let n := nat_of_ascii c in ((48 <=? n) && (n <=? 57))%nat.

Definition digit_value (c : ascii) : Z := Z.of_nat (nat_of_ascii c) - 48.

Fixpoint skip_ws (s : string) : string :=
  match s with
  | "" => ""
  | String c s' => if JS.is_space c then skip_ws s' else s
  end.

(** The longest prefix of digits: its value, its length, and the rest. *)
Fixpoint take_digits (acc : Z) (len : nat) (s : string) : Z * nat * string :=
  match s with
  | "" => (acc, len, "")
  | String c s' =>
      if is_digit c then take_digits (10 * acc + digit_value c) (S len) s'
      else (acc, len, s)
  end.

(** An unsigned decimal literal [ddd], [ddd.ddd] or [.ddd]: its value and
    the rest, when at least one digit is there. *)
Definition take_decimal (s : string) : option (Q * string) :=
  let '(int, n, rest) := take_digits 0 0 s in
  match rest with
  | String "."%char rest' =>
      let '(frac, k, rest'') := take_digits 0 0 rest' in
      match n, k with
      | O, O => None
      | _, O => Some (inject_Z int, rest'')
      | _, _ => Some ((int * 10 ^ Z.of_nat k + frac) # Z.to_pos (10 ^ Z.of_nat k),
                      rest'')
      end
  | _ => match n with
         | O => None
         | _ => Some (inject_Z int, rest)
         end
  end.

Definition signed (s : string) : bool * string :=
  match s with
  | String "-"%char s' => (true, s')
  | String "+"%char s' => (false, s')
  | _ => (false, s)
  end.

Definition parse_float (text : string) : number :=
  let '(neg, s) := signed (skip_ws text) in
  if String.prefix "Infinity" s then Infinity neg
  else match take_decimal s with
       | Some (v, _) => Num (if neg then Qopp v else v)
       | None => NaN
       end.

Definition parse_int (text : string) : number :=
  let '(neg, s) := signed (skip_ws text) in
  let '(v, n, _) := take_digits 0 0 s in
  match n with
  | O => NaN
  | _ => num_of_Z (if neg then - v else v)
  end.

Definition Z_to_string (z : Z) : string :=
  DecimalString.NilZero.string_of_int (Z.to_int z).

(** The digits of [r / den] after the decimal point, at most [n] of them,
    stopping when the expansion ends. *)
Fixpoint fraction_digits (n : nat) (r den : Z) : string :=
  match n with
  | O => ""
  | S n' =>
      if r =? 0 then ""
      else Z_to_string (10 * r / den) +:+ fraction_digits n' (10 * r mod den) den
  end.

Definition print_number (x : number) : string :=
  match x with
  | NaN => "NaN"
  | Infinity neg => if neg then "-Infinity" else "Infinity"
  | Num q =>
      let num := Qnum q in
      let den := Z.pos (Qden q) in
      let int := Z.abs num / den in
      let frac := fraction_digits 17 (Z.abs num mod den) den in
      (if num <? 0 then "-" else "")
      +:+ Z_to_string int
      +:+ (if String.eqb frac "" then "" else "." +:+ frac)
  end.

(** *** JSON text *)

(** White space between the tokens of a JSON text: space, tab, line feed
    and carriage return. *)
Definition is_json_space (c : ascii) : bool :=
  let n := nat_of_ascii c in
  ((n =? 32) || (n =? 9) || (n =? 10) || (n =? 13))%nat.

Fixpoint skip_json_ws (s : string) : string :=
  match s with
  | "" => ""
  | String c s' => if is_json_space c then skip_json_ws s' else s
  end.

Definition unescape (c : ascii) : option ascii :=
  if Ascii.eqb c "n" then Some (ascii_of_nat 10)
  else if Ascii.eqb c "t" then Some (ascii_of_nat 9)
  else if Ascii.eqb c "r" then Some (ascii_of_nat 13)
  else if Ascii.eqb c "b" then Some (ascii_of_nat 8)
  else if Ascii.eqb c "f" then Some (ascii_of_nat 12)
  else if Ascii.eqb c "/" then Some c
  else if Ascii.eqb c "\" then Some c
  else if Ascii.eqb c (ascii_of_nat 34) then Some c
  else None.

(** The text of a string literal after its opening quote, and the rest
    after the closing one. *)
Fixpoint parse_string_body (s : string) : option (string * string) :=
  match s with
  | "" => None
  | String c s' =>
      if Ascii.eqb c (ascii_of_nat 34) then Some ("", s')
      else if Ascii.eqb c "\" then
        match s' with
        | "" => None
        | String e s'' =>
            match unescape e, parse_string_body s'' with
            | Some ch, Some (t, r) => Some (String ch t, r)
            | _, _ => None
            end
        end
      else if (nat_of_ascii c <? 32)%nat then None
      else match parse_string_body s' with
           | Some (t, r) => Some (String c t, r)
           | None => None
           end
  end.

Fixpoint parse_value (fuel : nat) (s : string) {struct fuel}
  : option (json * string) :=
  match fuel with
  | O => None
  | S fuel =>
      match skip_json_ws s with
      | "" => None
      | String c r as s1 =>
          if Ascii.eqb c "{" then
            match skip_json_ws r with
            | String c' r' =>
                if Ascii.eqb c' "}" then Some (JObj [], r')
                else match parse_members fuel r with
                     | Some (fields, r'') => Some (JObj fields, r'')
                     | None => None
                     end
            | "" => None
            end
          else if Ascii.eqb c "[" then
            match skip_json_ws r with
            | String c' r' =>
                if Ascii.eqb c' "]" then Some (JArr [], r')
                else match parse_items fuel r with
                     | Some (items, r'') => Some (JArr items, r'')
                     | None => None
                     end
            | "" => None
            end
          else if Ascii.eqb c (ascii_of_nat 34) then
            match parse_string_body r with
            | Some (t, r') => Some (JStr t, r')
            | None => None
            end
          else if String.prefix "true" s1 then Some (JBool true, JS.drop 4 s1)
          else if String.prefix "false" s1 then Some (JBool false, JS.drop 5 s1)
          else if String.prefix "null" s1 then Some (JNull, JS.drop 4 s1)
          else
            let '(neg, s2) := match s1 with
                              | String "-"%char s' => (true, s')
                              | _ => (false, s1)
                              end in
            match s2 with
            | String d _ =>
                if is_digit d then
                  match take_decimal s2 with
                  | Some (v, r') =>
                      Some (JNum (Num (if neg then Qopp v else v)), r')
                  | None => None
                  end
                else None
            | "" => None
            end
      end
  end
with parse_items (fuel : nat) (s : string) {struct fuel}
  : option (list json * string) :=
  match fuel with
  | O => None
  | S fuel =>
      match parse_value fuel s with
      | Some (v, r) =>
          match skip_json_ws r with
          | String c r' =>
              if Ascii.eqb c "," then
                match parse_items fuel r' with
                | Some (vs, r'') => Some (v :: vs, r'')
                | None => None
                end
              else if Ascii.eqb c "]" then Some ([v], r')
              else None
          | "" => None
          end
      | None => None
      end
  end
with parse_members (fuel : nat) (s : string) {struct fuel}
  : option (list (string * json) * string) :=
  match fuel with
  | O => None
  | S fuel =>
      match skip_json_ws s with
      | String q r =>
          if Ascii.eqb q (ascii_of_nat 34) then
            match parse_string_body r with
            | Some (k, r1) =>
                match skip_json_ws r1 with
                | String colon r2 =>
                    if Ascii.eqb colon ":" then
                      match parse_value fuel r2 with
                      | Some (v, r3) =>
                          match skip_json_ws r3 with
                          | String c r4 =>
                              if Ascii.eqb c "," then
                                match parse_members fuel r4 with
                                | Some (fs, r5) => Some ((k, v) :: fs, r5)
                                | None => None
                                end
                              else if Ascii.eqb c "}" then Some ([(k, v)], r4)
                              else None
                          | "" => None
                          end
                      | None => None
                      end
                    else None
                | "" => None
                end
            | None => None
            end
          else None
      | "" => None
      end
  end.

Definition syntax_error : exn :=
  JsError "SyntaxError" "Unexpected token in JSON".

Definition parse_json (text : string) : result json :=
  match parse_value (S (String.length text)) text with
  | Some (v, rest) =>
      match skip_json_ws rest with
      | "" => Ok v
      | _ => Throw syntax_error
      end
  | None => Throw syntax_error
  end.

Definition escape (c : ascii) : string :=
  if Ascii.eqb c (ascii_of_nat 34) then "\" +:+ JS.dquote
  else if Ascii.eqb c "\" then "\\"
  else if Ascii.eqb c (ascii_of_nat 10) then "\n"
  else if Ascii.eqb c (ascii_of_nat 9) then "\t"
  else if Ascii.eqb c (ascii_of_nat 13) then "\r"
  else if Ascii.eqb c (ascii_of_nat 8) then "\b"
  else if Ascii.eqb c (ascii_of_nat 12) then "\f"
  else String c "".

Fixpoint escape_all (s : string) : string :=
  match s with
  | "" => ""
  | String c s' => escape c +:+ escape_all s'
  end.

Definition quote (s : string) : string :=
  JS.dquote +:+ escape_all s +:+ JS.dquote.

Fixpoint print_json (v : json) : string :=
  match v with
  | JNull => "null"
  | JBool b => if b then "true" else "false"
  | JNum n => match n with Num _ => print_number n | _ => "null" end
  | JStr s => quote s
  | JArr items =>
      "[" +:+ String.concat "," (map print_json items) +:+ "]"
  | JObj fields =>
      "{" +:+ String.concat ","
                (map (fun kv => quote (fst kv) +:+ ":" +:+ print_json (snd kv))
                   fields)
      +:+ "}"
  end.

(** *** Arithmetic on numbers and on expression text *)

Definition num_neg (x : number) : number :=
  match x with
  | NaN => NaN
  | Infinity b => Infinity (negb b)
  | Num a => Num (Qred (Qopp a))
  end.

Definition num_add (x y : number) : number :=
  match x, y with
  | NaN, _ | _, NaN => NaN
  | Infinity a, Infinity b => if Bool.eqb a b then Infinity a else NaN
  | Infinity a, Num _ | Num _, Infinity a => Infinity a
  | Num a, Num b => Num (Qred (a + b))
  end.

Definition negative (a : Q) : bool := Qnum a <? 0.

Definition num_mul (x y : number) : number :=
  match x, y with
  | NaN, _ | _, NaN => NaN
  | Infinity a, Infinity b => Infinity (xorb a b)
  | Infinity a, Num b | Num b, Infinity a =>
      if Qeq_bool b 0 then NaN else Infinity (xorb a (negative b))
  | Num a, Num b => Num (Qred (a * b))
  end.

Definition num_div (x y : number) : number :=
  match x, y with
  | NaN, _ | _, NaN => NaN
  | Infinity _, Infinity _ => NaN
  | Infinity a, Num b => Infinity (xorb a (negative b))
  | Num _, Infinity _ => Num 0
  | Num a, Num b =>
      if Qeq_bool b 0
      then if Qeq_bool a 0 then NaN else Infinity (negative a)
      else Num (Qred (a / b))
  end.

Fixpoint eval_expr (fuel : nat) (s : string) {struct fuel}
  : option (number * string) :=
  match fuel with
  | O => None
  | S fuel =>
      match eval_term fuel s with
      | Some (v, r) => eval_expr_rest fuel v r
      | None => None
      end
  end
with eval_expr_rest (fuel : nat) (acc : number) (s : string) {struct fuel}
  : option (number * string) :=
  match fuel with
  | O => None
  | S fuel =>
      match skip_ws s with
      | String c r =>
          if Ascii.eqb c "+" then
            match eval_term fuel r with
            | Some (v, r') => eval_expr_rest fuel (num_add acc v) r'
            | None => None
            end
          else if Ascii.eqb c "-" then
            match eval_term fuel r with
            | Some (v, r') => eval_expr_rest fuel (num_add acc (num_neg v)) r'
            | None => None
            end
          else Some (acc, s)
      | "" => Some (acc, "")
      end
  end
with eval_term (fuel : nat) (s : string) {struct fuel}
  : option (number * string) :=
  match fuel with
  | O => None
  | S fuel =>
      match eval_factor fuel s with
      | Some (v, r) => eval_term_rest fuel v r
      | None => None
      end
  end
with eval_term_rest (fuel : nat) (acc : number) (s : string) {struct fuel}
  : option (number * string) :=
  match fuel with
  | O => None
  | S fuel =>
      match skip_ws s with
      | String c r =>
          if Ascii.eqb c "*" then
            match eval_factor fuel r with
            | Some (v, r') => eval_term_rest fuel (num_mul acc v) r'
            | None => None
            end
          else if Ascii.eqb c "/" then
            match eval_factor fuel r with
            | Some (v, r') => eval_term_rest fuel (num_div acc v) r'
            | None => None
            end
          else Some (acc, s)
      | "" => Some (acc, "")
      end
  end
with eval_factor (fuel : nat) (s : string) {struct fuel}
  : option (number * string) :=
  match fuel with
  | O => None
  | S fuel =>
      match skip_ws s with
      | String c r as s1 =>
          if Ascii.eqb c "-" then
            match eval_factor fuel r with
            | Some (v, r') => Some (num_neg v, r')
            | None => None
            end
          else if Ascii.eqb c "+" then eval_factor fuel r
          else if Ascii.eqb c "(" then
            match eval_expr fuel r with
            | Some (v, r') =>
                match skip_ws r' with
                | String c' r'' =>
                    if Ascii.eqb c' ")" then Some (v, r'') else None
                | "" => None
                end
            | None => None
            end
          else match take_decimal s1 with
               | Some (v, r') => Some (Num (Qred v), r')
               | None => None
               end
      | "" => None
      end
  end.

(** Whether a line terminator stands in the white space before the
    first token: [return] then ends there. *)
Fixpoint breaks_line (s : string) : bool :=
  match s with
  | "" => false
  | String c s' =>
      if JS.is_space c
      then (nat_of_ascii c =? 10)%nat || (nat_of_ascii c =? 13)%nat
           || breaks_line s'
      else false
  end.

(** The value of [return ${body}]: [undefined] for an empty body and for
    a body that starts on the next line, the value of the arithmetic
    otherwise; text outside the supported grammar is reported as a
    [SyntaxError]. *)
Definition eval_return (body : string) : result evaluated :=
  match skip_ws body with
  | "" => Ok EvUndefined
  | _ =>
      match eval_expr (4 * String.length body + 4) body with
      | Some (v, rest) =>
          match skip_ws rest with
          | "" => Ok (if breaks_line body then EvUndefined else EvNumber v)
          | _ => Throw (JsError "SyntaxError" "Unexpected token")
          end
      | None => Throw (JsError "SyntaxError" "Unexpected token")
      end
  end.

(** The digits of a timestamp read as one integer: for ISO timestamps this
    orders as the time does. *)
Definition date_time (text : string) : number :=
  let fix digits (acc : Z) (seen : bool) (s : string) : number :=
    match s with
    | "" => if seen then num_of_Z acc else NaN
    | String c s' =>
        if is_digit c then digits (10 * acc + digit_value c) true s'
        else digits acc seen s'
    end in
  digits 0 false text.

Definition runtime : Runtime :=
  {| JSON_parse := parse_json;
     JSON_stringify := print_json;
     parseFloat := parse_float;
     parseInt := parse_int;
     number_to_string := print_number;
     Function_return := eval_return;
     Date_getTime := date_time;
     Date_toLocaleString := fun text => text;
     get_current_time_handler :=
       fun _ => Ok "Thursday, January 1, 1970 at 12:00:00 AM UTC";
     generate_random_handler :=
       fun args =>
         match Json.opt_prop (Some args) "type" with
         | Some (JStr "number") => Ok "Random number: 0"
         | Some (JStr "string") => Ok "Random string: AAAAAAAAAA"
         | Some (JStr "uuid") =>
             Ok "UUID: 00000000-0000-4000-8000-000000000000"
         | _ => Ok "Invalid type specified"
         end |}.

End Reference.

(** ** Inputs of the scenarios *)

Module Examples.
Import Api Conversation.

(** One server-sent event carrying a content delta. *)
Definition frame (content : string) : string :=
  JS.q "data: {'choices':[{'delta':{'content':'" +:+ content +:+ JS.q "'}}]}".

(** The lines of scenario B and the stream text they make, each line ended
    by a newline. *)
Definition hello_lines : list string :=
  [frame "Hel"; frame "lo"; "data: [DONE]"].

Definition hello_stream : string :=
  String.concat "" (map (fun line => line +:+ JS.newline) hello_lines).

(** The same frames with the two code units backslash, [n] after each. *)
Definition hello_stream_backslash_n : string :=
  String.concat "" (map (fun line => line +:+ JS.backslash_n) hello_lines).

Definition user_message (text : string) : ChatMessage :=
  {| role := user; content := text; tool_calls := None; tool_call_id := None |}.
Definition assistant_message (text : string) : ChatMessage :=
  {| role := assistant; content := text;
     tool_calls := None; tool_call_id := None |}.

Definition unknown_call : Tools.ToolCall :=
  {| Tools.id := "call_1"; Tools.function_name := "does_not_exist";
     Tools.function_arguments := "{}" |}.
Definition bad_arguments_call : Tools.ToolCall :=
  {| Tools.id := "call_2"; Tools.function_name := "calculate";
     Tools.function_arguments := "{" |}.

(** The tool manager of the reference runtime. *)
Definition manager : Tools.ToolManager :=
  fst (Tools.new_ToolManager (RT := Reference.runtime)).

(** A handler that always throws, registered as [explode]. *)
Definition exploding_manager : Tools.ToolManager :=
  fst (Tools.registerTool
         {| Tools.name := "explode"; Tools.description := "always fails";
            Tools.parameters := JObj [] |}
         (fun _ => Throw (new_Error "boom"))
         manager).
Definition exploding_call : Tools.ToolCall :=
  {| Tools.id := "call_3"; Tools.function_name := "explode";
     Tools.function_arguments := "{}" |}.

End Examples.

Module ExampleStore.
Import Api Conversation.

(** A live conversation of two turns. *)
Definition live : ConversationManager :=
  {| messages := [Examples.user_message "What is x?";
                  Examples.assistant_message "x is a letter."];
     sessionId := "2024-05-01T10-00-00-000Z" |}.

Definition session_text (i d : string) (ms : list ChatMessage) : string :=
  Reference.print_json
    (session_to_json {| id := i; date := d; session_messages := ms |}).

(** Three session files, the third of which is not JSON. *)
Definition first_text : string :=
  session_text "first" "2024-05-01T10:00:00.000Z"
    [Examples.user_message "What is x?";
     Examples.assistant_message "x is a letter."].
Definition second_text : string :=
  session_text "second" "2024-05-02T10:00:00.000Z"
    [Examples.user_message "Spell fox."].
Definition corrupt_text : string := "{ not json".

(** A turn of 1000 characters with one occurrence of the query. *)
Definition long_turn : string :=
  String.concat "" (repeat "lorem ipsum " 40) +:+ "the needle is here "
  +:+ String.concat "" (repeat "dolor sit amet, " 31) +:+ "end.!".

(** A session file whose message has a role that is none of the four, and
    that has no date among its messages' properties. *)
Definition odd_text : string :=
  JS.q "{'id':'odd','date':'2024-05-01T10:00:00.000Z','messages':[{'role':'function','content':'x'}]}".

Definition two_files : FileSystem :=
  <["second.json" := second_text]> (<["first.json" := first_text]> ∅).
Definition three_files : FileSystem :=
  <["third.json" := corrupt_text]> two_files.
Definition odd_files : FileSystem :=
  <["second.json" := second_text]> (<["odd.json" := odd_text]> ∅).


End ExampleStore.

Module ExampleChat.
Import Api Conversation FileOperations Chat.

(** A world in which the endpoint closes the stream at once, prompts are
    declined and the first entry of a list is picked. *)
Definition quiet_world : World :=
  {| now := "2024-05-03T09:00:00.000Z";
     post := fun _ => Stream [] StreamEnds;
     late_events := 0;
     listModels := Ok ["llama3.1-8b"; "llama3.1-70b"];
     confirm := false;
     choose := 0;
     export_filename := "conversation";
     export_format := format_md;
     write_fails := None;
     history_entry := fun _ => None;
     clipboard_ok := true;
     read_file := fun _ => None |}.

(** The user accepts prompts and picks the entry at position [n]. *)
Definition accepting_world (n : nat) : World :=
  {| now := now quiet_world;
     post := post quiet_world;
     late_events := 0;
     listModels := listModels quiet_world;
     confirm := true;
     choose := n;
     export_filename := export_filename quiet_world;
     export_format := export_format quiet_world;
     write_fails := None;
     history_entry := fun _ => None;
     clipboard_ok := true;
     read_file := read_file quiet_world |}.

(** The endpoint sends one delta and then the connection fails. *)
Definition failing_world : World :=
  {| now := now quiet_world;
     post := fun _ =>
       Stream [Examples.frame "Hel" +:+ JS.backslash_n]
         (StreamErrors (new_Error "socket hang up"));
     late_events := 0;
     listModels := listModels quiet_world;
     confirm := false;
     choose := 0;
     export_filename := export_filename quiet_world;
     export_format := export_format quiet_world;
     write_fails := None;
     history_entry := fun _ => None;
     clipboard_ok := true;
     read_file := read_file quiet_world |}.

(** The endpoint answers with the stream of scenario B. *)
Definition hello_world : World :=
  {| now := now quiet_world;
     post := fun _ => Stream [Examples.hello_stream] StreamEnds;
     late_events := 0;
     listModels := listModels quiet_world;
     confirm := false;
     choose := 0;
     export_filename := export_filename quiet_world;
     export_format := export_format quiet_world;
     write_fails := None;
     history_entry := fun _ => None;
     clipboard_ok := true;
     read_file := read_file quiet_world |}.

(** The endpoint answers with the frames of scenario B, each followed by
    the two code units backslash, [n]. *)
Definition spelling_world : World :=
  {| now := now quiet_world;
     post := fun _ => Stream [Examples.hello_stream_backslash_n] StreamEnds;
     late_events := 0;
     listModels := listModels quiet_world;
     confirm := false;
     choose := 0;
     export_filename := export_filename quiet_world;
     export_format := export_format quiet_world;
     write_fails := None;
     history_entry := fun _ => None;
     clipboard_ok := true;
     read_file := read_file quiet_world |}.

(** The endpoint sends a number as content, then the sentinel, and in a
    second data event one more delta; [n] of the data events after the
    sentinel arrive before the caller resumes. *)
Definition trailing_world (n : nat) : World :=
  {| now := now quiet_world;
     post := fun _ =>
       Stream [JS.q "data: {'choices':[{'delta':{'content':5}}]}"
               +:+ JS.backslash_n +:+ "data: [DONE]" +:+ JS.backslash_n;
               Examples.frame "late" +:+ JS.backslash_n]
         StreamEnds;
     late_events := n;
     listModels := listModels quiet_world;
     confirm := false;
     choose := 0;
     export_filename := export_filename quiet_world;
     export_format := export_format quiet_world;
     write_fails := None;
     history_entry := fun _ => None;
     clipboard_ok := true;
     read_file := read_file quiet_world |}.

(** The path [history/first.json] denotes the entry [first.json] of the
    history directory. *)
Definition overwriting_world : World :=
  {| now := now quiet_world;
     post := post quiet_world;
     late_events := 0;
     listModels := listModels quiet_world;
     confirm := false;
     choose := 0;
     export_filename := export_filename quiet_world;
     export_format := export_format quiet_world;
     write_fails := None;
     history_entry := fun path =>
       if String.eqb path "history/first.json" then Some "first.json"
       else None;
     clipboard_ok := true;
     read_file := read_file quiet_world |}.

(** A running chat with one turn in memory, over a given history
    directory. *)
Definition chatting (files : FileSystem) : State :=
  {| conversation := {| messages := [Examples.user_message "hello"];
                        sessionId := "2024-05-03T08-59-00-000Z" |};
     config := Config.defaults;
     fs := files;
     isRunning := true |}.

End ExampleChat.

(** ** Notions used in the statements *)

Module Notions.

Section WithRuntime.
Context {RT : Runtime}.

(** A line is passed over when it is not a [data: ] line, or when its
    payload is not JSON. *)
Definition passed_over (line : string) : Prop :=
  JS.startsWith line "data: " = false
  \/ (JS.drop 6 line <> "[DONE]"
      /\ exists e, JSON_parse (JS.drop 6 line) = Throw e).

(** A line that carries the string [delta] as the content of the first
    choice's delta. *)
Definition carries (line delta : string) : Prop :=
  JS.startsWith line "data: " = true
  /\ JS.drop 6 line <> "[DONE]"
  /\ exists parsed,
       JSON_parse (JS.drop 6 line) = Ok parsed
       /\ Api.delta_content parsed = Ok (Some (JStr delta)).

(** The file [file] of the history directory is a [.json] file, and
    [summary] is what [listSessions] reads from its document: its id, its
    date and the number of its messages. *)
Definition gives_summary (fs : gmap string string) (file : string)
    (summary : Conversation.SessionSummary) : Prop :=
  JS.endsWith file ".json" = true
  /\ exists data parsed,
       fs !! file = Some data
       /\ JSON_parse data = Ok parsed
       /\ Conversation.summary_of_json parsed = Ok summary.

(** Every [.json] file of the directory gives a summary. *)
Definition listable (fs : gmap string string) : Prop :=
  forall file data,
    fs !! file = Some data -> JS.endsWith file ".json" = true ->
    exists summary, gives_summary fs file summary.

(** The file [file] of the history directory is a [.json] file that holds
    the session document [sd], a document of the shape [saveSession]
    writes. *)
Definition holds_session (fs : gmap string string) (file : string)
    (sd : Conversation.SessionData) : Prop :=
  JS.endsWith file ".json" = true
  /\ exists data parsed,
       fs !! file = Some data
       /\ JSON_parse data = Ok parsed
       /\ Conversation.session_of_json parsed = Ok sd.

(** A history directory with at least one [.json] file, each of which
    holds a session document. *)
Definition session_store (fs : gmap string string) : Prop :=
  (exists file data,
     fs !! file = Some data /\ JS.endsWith file ".json" = true)
  /\ forall file data,
       fs !! file = Some data -> JS.endsWith file ".json" = true ->
       exists sd, holds_session fs file sd.

(** The listed session [session] loads, and one of its messages
    contains the query. *)
Definition matches_query (query : string)
    (loader : Conversation.ConversationManager) (fs : gmap string string)
    (session : Conversation.SessionSummary) : bool :=
  match Conversation.loadSession (Conversation.summary_id session) loader fs
  with
  | Ok cm =>
      match Chat.session_matches query (Conversation.messages cm) with
      | [] => false
      | _ :: _ => true
      end
  | Throw _ => false
  end.

(** [a] is at least as recent as [b], by the times of their dates. *)
Definition at_least_as_recent (a b : Conversation.SessionSummary) : Prop :=
  num_leb (Date_getTime (Conversation.summary_date b))
    (Date_getTime (Conversation.summary_date a)) = true.

(** The date of a summary is a valid date: its time is a number. *)
Definition dated (s : Conversation.SessionSummary) : Prop :=
  exists q, Date_getTime (Conversation.summary_date s) = Num q.

End WithRuntime.

(** The command words [handleCommand] knows. *)
Definition known_commands : list string :=
  ["help"; "clear"; "save"; "history"; "copy"; "model"; "system"; "temp";
   "temperature"; "tokens"; "maxtokens"; "theme"; "file"; "read"; "export";
   "search"; "exit"; "quit"].

(** The command word of an input line: the text between the marker and
    the first space. *)
Definition command_word (command : string) : string :=
  hd "" (JS.split (JS.drop 1 command) " ").

(** The state a computation of the chat ends in. *)
Definition state_of {A : Type} (x : result A * Chat.State * list Display)
  : Chat.State := snd (fst x).

(** A computation keeps a property of the state when each run from a
    state that has it ends in a state that has it, thrown or not. *)
Definition keeps (P : Chat.State -> Prop) {A : Type} (m : Chat.M A) : Prop :=
  forall s, P s -> P (state_of (m s)).

(** The properties of the state that the transcript has no part in. *)
Definition apart_from_transcript (P : Chat.State -> Prop) : Prop :=
  forall cm s, P s -> P (Chat.set_conversation cm s).

(** What holds after each step of the [config] action that started from
    [cfg0]: as long as nothing is marked as changed the configuration is
    [cfg0]; valid settings have stayed valid; and no information line has
    been displayed. *)
Definition settled (cfg0 : Config.ConfigSchema) (st : Cli.Step) : Prop :=
  let '(cfg, changed, out) := st in
  (changed = false -> cfg = cfg0)
  /\ (Cli.guarded cfg0 = true -> Cli.guarded cfg = true)
  /\ List.Forall (fun d => forall m, d <> displayInfo m) out.

(** What holds of every manager built by registrations: each declaration
    is stored under its own name, no name is declared twice, and the
    declared names are the names that have a handler. *)
Definition consistent (tm : Tools.ToolManager) : Prop :=
  List.Forall (fun e => Tools.name (snd e) = fst e) (Tools.tools tm)
  /\ List.NoDup (map fst (Tools.tools tm))
  /\ forall n, In n (map fst (Tools.tools tm))
               <-> is_Some (Tools.handlers tm !! n).

End Notions.

(** * Properties *)

(** ** Facts about the string methods *)

Section StringFacts.

Lemma split_go_nonempty (sep s : string) (skip : nat) :
  JS.split_go sep s skip <> [].
Proof.
  revert skip. induction s as [|c s IH]; intros skip; cbn [JS.split_go];
    [discriminate|].
  destruct skip; [|apply IH].
  destruct (String.prefix sep (String c s)); [discriminate|].
  destruct (JS.split_go sep s 0); discriminate.
Qed.

Lemma concat_cons_char (sep seg : string) (c : ascii) (rest : list string) :
  String.concat sep (String c seg :: rest)
  = String c (String.concat sep (seg :: rest)).
Proof. destruct rest; reflexivity. Qed.

(** Splitting at a one-character separator and joining with it gives the
    text back. *)
Lemma join_split_char (c : ascii) (s : string) :
  JS.join (JS.split s (String c "")) (String c "") = s.
Proof.
  unfold JS.join, JS.split. induction s as [|a s IH]; [reflexivity|].
  cbn [JS.split_go String.prefix String.length Nat.sub].
  destruct (ascii_dec c a) as [->|Hne].
  - replace (String.prefix "" s) with true by (destruct s; reflexivity).
    destruct (JS.split_go (String a "") s 0) as [|seg rest] eqn:Hs;
      [exfalso; eapply split_go_nonempty; eauto|].
    change (String.concat (String a "") ("" :: seg :: rest))
      with (String a (String.concat (String a "") (seg :: rest))).
    rewrite IH. reflexivity.
  - destruct (JS.split_go (String c "") s 0) eqn:Hs;
      [exfalso; eapply split_go_nonempty; eauto|].
    rewrite concat_cons_char, IH. reflexivity.
Qed.

Lemma prefix_empty (s : string) : String.prefix "" s = true.
Proof. destruct s; reflexivity. Qed.

Lemma app_cons (c : ascii) (s t : string) :
  String c s +:+ t = String c (s +:+ t).
Proof. reflexivity. Qed.

Lemma string_app_assoc (a b c : string) : (a +:+ b) +:+ c = a +:+ (b +:+ c).
Proof.
  induction a as [|x a IH]; [reflexivity|].
  rewrite !app_cons, IH. reflexivity.
Qed.

Lemma string_app_nil_r (a : string) : a +:+ "" = a.
Proof.
  induction a as [|x a IH]; [reflexivity|]. rewrite app_cons, IH. reflexivity.
Qed.

Lemma string_app_length (a b : string) :
  String.length (a +:+ b) = (String.length a + String.length b)%nat.
Proof.
  induction a as [|x a IH]; [reflexivity|].
  rewrite app_cons. cbn [String.length]. rewrite IH. reflexivity.
Qed.

Lemma prefix_app (needle hay : string) :
  String.prefix needle hay = true -> exists rest, hay = needle +:+ rest.
Proof.
  revert hay. induction needle as [|x needle IH]; intros hay H.
  - exists hay. reflexivity.
  - destruct hay as [|y hay]; [discriminate|]. cbn [String.prefix] in H.
    destruct (ascii_dec x y) as [->|]; [|discriminate].
    destruct (IH hay H) as [rest ->]. exists rest. reflexivity.
Qed.

Lemma indexOf_lower_bound (hay needle : string) : -1 <= JS.indexOf hay needle.
Proof.
  induction hay as [|c hay IH]; cbn [JS.indexOf].
  - destruct (String.prefix needle ""); lia.
  - destruct (String.prefix needle (String c hay)); [lia|].
    destruct (JS.indexOf hay needle <? 0) eqn:E; lia.
Qed.

(** A found index is the length of what precedes an occurrence. *)
Lemma indexOf_found (hay needle : string) :
  0 <= JS.indexOf hay needle ->
  exists a b,
    hay = a +:+ needle +:+ b
    /\ Z.of_nat (String.length a) = JS.indexOf hay needle.
Proof.
  induction hay as [|c hay IH]; cbn [JS.indexOf].
  - destruct (String.prefix needle "") eqn:E; [|lia].
    intros _. destruct (prefix_app _ _ E) as [rest Hrest].
    exists "", rest. split; [exact Hrest|reflexivity].
  - destruct (String.prefix needle (String c hay)) eqn:E.
    + intros _. destruct (prefix_app _ _ E) as [rest Hrest].
      exists "", rest. split; [exact Hrest|reflexivity].
    + destruct (JS.indexOf hay needle <? 0) eqn:Hneg; [lia|].
      intros _. apply Z.ltb_ge in Hneg.
      destruct (IH Hneg) as (a & b & -> & Hlen).
      exists (String c a), b. split; [reflexivity|].
      cbn [String.length]. lia.
Qed.



Lemma split_at (n : nat) (s : string) :
  (n <= String.length s)%nat ->
  exists a b, s = a +:+ b /\ String.length a = n.
Proof.
  revert s. induction n as [|n IH]; intros s H.
  - exists "", s. auto.
  - destruct s as [|c s]; cbn [String.length] in H; [lia|].
    destruct (IH s ltac:(lia)) as (a & b & -> & <-).
    exists (String c a), b. auto.
Qed.

Lemma substring_prefix (m rest : string) :
  String.substring 0 (String.length m) (m +:+ rest) = m.
Proof.
  induction m as [|c m IH].
  - destruct rest; reflexivity.
  - rewrite app_cons. cbn [String.length String.substring]. rewrite IH.
    reflexivity.
Qed.

Lemma substring_middle (a m b : string) :
  String.substring (String.length a) (String.length m) (a +:+ m +:+ b) = m.
Proof.
  induction a as [|c a IH].
  - exact (substring_prefix m b).
  - rewrite app_cons. cbn [String.length String.substring]. exact IH.
Qed.




Lemma substring_in_range (s : string) (a b : Z) :
  0 <= a <= b -> b <= JS.length s ->
  JS.substring s a b = String.substring (Z.to_nat a) (Z.to_nat (b - a)) s.
Proof.
  intros Ha Hb. unfold JS.substring.
  replace (Z.max 0 (Z.min a (JS.length s))) with a by lia.
  replace (Z.max 0 (Z.min b (JS.length s))) with b by lia.
  replace (Z.min a b) with a by lia. replace (Z.max a b) with b by lia.
  reflexivity.
Qed.

(** *** Occurrences *)

Lemma prefix_of_app (sep rest : string) :
  String.prefix sep (sep +:+ rest) = true.
Proof.
  induction sep as [|c sep IH]; [apply prefix_empty|].
  rewrite app_cons. cbn [String.prefix].
  destruct (ascii_dec c c); [exact IH|congruence].
Qed.

Lemma indexOf_occurs (before sep rest : string) :
  0 <= JS.indexOf (before +:+ sep +:+ rest) sep.
Proof.
  induction before as [|c before IH].
  - change ("" +:+ sep +:+ rest) with (sep +:+ rest).
    destruct (sep +:+ rest) eqn:E; cbn [JS.indexOf]; rewrite <- E;
      rewrite prefix_of_app; lia.
  - rewrite app_cons. cbn [JS.indexOf].
    destruct (String.prefix sep _); [lia|].
    destruct (JS.indexOf (before +:+ sep +:+ rest) sep <? 0) eqn:E; [|lia].
    apply Z.ltb_lt in E. lia.
Qed.

(** What does not occur in a text does not occur in its beginning. *)
Lemma indexOf_absent_app (a b sep : string) :
  JS.indexOf (a +:+ b) sep = -1 -> JS.indexOf a sep = -1.
Proof.
  intros Habsent. pose proof (indexOf_lower_bound a sep) as Hlow.
  destruct (Z.eq_dec (JS.indexOf a sep) (-1)) as [|Hne]; [assumption|].
  destruct (indexOf_found a sep ltac:(lia)) as (x & y & -> & _).
  pose proof (indexOf_occurs x sep (y +:+ b)) as Hocc.
  rewrite !string_app_assoc in Habsent. lia.
Qed.

(** Splitting at a separator that does not occur gives the text back as
    the only piece. *)
Lemma split_absent (s sep : string) :
  JS.indexOf s sep = -1 -> JS.split s sep = [s].
Proof.
  unfold JS.split. induction s as [|c s IH]; cbn [JS.indexOf JS.split_go].
  - reflexivity.
  - destruct (String.prefix sep (String c s)); [discriminate|].
    pose proof (indexOf_lower_bound s sep).
    destruct (JS.indexOf s sep <? 0) eqn:E; [|lia].
    apply Z.ltb_lt in E. intros _. rewrite IH by lia. reflexivity.
Qed.

Lemma concat_empty_cons (c : string) (rest : list string) :
  String.concat "" (c :: rest) = c +:+ String.concat "" rest.
Proof.
  destruct rest; cbn [String.concat]; [|reflexivity].
  symmetry. apply string_app_nil_r.
Qed.

End StringFacts.

(** ** The streaming parser *)

Section StreamingParser.
Context {RT : Runtime}.

(** As long as the text received so far does not contain the separator,
    every data event only extends the carry-over buffer. *)
Lemma feed_without_separator (sep : string) (chunks : list string)
    (fin : Api.StreamEnd) :
  forall buffer : string,
    JS.indexOf (buffer +:+ String.concat "" chunks) sep = -1 ->
    Api.feed_with sep buffer chunks fin = ([], Api.settles fin).
Proof.
  induction chunks as [|c chunks IH]; intros buffer Habsent.
  - reflexivity.
  - rewrite concat_empty_cons, <- string_app_assoc in Habsent.
    cbn [Api.feed_with]. unfold Api.on_data_with.
    rewrite (split_absent (buffer +:+ c) sep)
      by (eapply indexOf_absent_app; exact Habsent).
    cbn [JS.pop Api.process_lines]. rewrite (IH _ Habsent). reflexivity.
Qed.

(** X3.  A stream whose text contains no backslash followed by [n] hands
    nothing to the chunk callback, whatever its frames carry and however
    it is cut into data events. *)
Lemma stream_without_backslash_n (chunks : list string)
    (fin : Api.StreamEnd) :
  JS.includes (String.concat "" chunks) JS.backslash_n = false ->
  Api.streamChatCompletion (Api.Stream chunks fin) = ([], Api.settles fin).
Proof.
  unfold JS.includes. intros Habsent%Z.leb_gt.
  pose proof (indexOf_lower_bound (String.concat "" chunks) JS.backslash_n).
  apply feed_without_separator.
  change (JS.indexOf (String.concat "" chunks) Api.line_separator = -1).
  unfold Api.line_separator. lia.
Qed.

(** C1 (the code at scenario B).  The stream of scenario B, delivered as
    newline-separated lines and closed by the sentinel, hands nothing to the
    chunk callback: the handler splits its buffer at the two code units
    backslash, [n], which the stream does not contain, so the whole text
    stays in the carry-over buffer until the stream ends.  The content
    assembled from the deliveries is empty, not [Hello], and so is the
    assistant turn [sendMessage] appends. *)
Theorem hello_stream_content_lost :
  Api.streamChatCompletion (Api.Stream [Examples.hello_stream] Api.StreamEnds)
    = ([], Ok tt)
  /\ Api.streamChatCompletion
       (Api.Stream (map (fun line => line +:+ JS.newline) Examples.hello_lines)
          Api.StreamEnds)
     = ([], Ok tt)
  /\ String.concat ""
       (map json_to_string
          (fst (Api.streamChatCompletion
                  (Api.Stream [Examples.hello_stream] Api.StreamEnds))))
     <> "Hello"
  /\ Conversation.messages
       (Chat.conversation
          (snd (fst (Chat.sendMessage ExampleChat.hello_world "Say hello"
                       (ExampleChat.chatting ∅)))))
     = [Examples.user_message "hello"; Examples.user_message "Say hello";
        Examples.assistant_message ""].
Proof.
  repeat split; try reflexivity. cbn. discriminate.
Qed.

End StreamingParser.

(** With the newline as separator the same handler assembles [Hello], from
    the whole text or from any of its pieces. *)
Lemma hello_stream_newline_separator :
  let RT := Reference.runtime in
  Api.feed_with JS.newline "" [Examples.hello_stream] Api.StreamEnds
    = ([JStr "Hel"; JStr "lo"], Ok tt)
  /\ String.concat "" (map json_to_string [JStr "Hel"; JStr "lo"]) = "Hello".
Proof. split; vm_compute; reflexivity. Qed.

(** The handler as written does deliver the deltas of a stream whose lines
    are separated by backslash, [n]. *)
Lemma hello_stream_backslash_n_separator :
  let RT := Reference.runtime in
  Api.streamChatCompletion
    (Api.Stream [Examples.hello_stream_backslash_n] Api.StreamEnds)
    = ([JStr "Hel"; JStr "lo"], Ok tt).
Proof. vm_compute; reflexivity. Qed.

(** ** The calculator *)

Section Calculator.
Context {RT : Runtime}.

Lemma allowed_char_sanitize (expr : string) :
  forall i c, String.get i (Tools.sanitize expr) = Some c ->
              Tools.allowed_char c = true.
Proof.
  induction expr as [|a expr IH]; intros i c; simpl.
  - destruct i; discriminate.
  - destruct (Tools.allowed_char a) eqn:Ha.
    + destruct i as [|i]; simpl.
      * intros [= <-]. exact Ha.
      * apply IH.
    + apply IH.
Qed.

Lemma evaluateMathExpression_sanitize (expr expr' : string) :
  Tools.sanitize expr = Tools.sanitize expr' ->
  Tools.evaluateMathExpression expr = Tools.evaluateMathExpression expr'.
Proof. unfold Tools.evaluateMathExpression. intros ->. reflexivity. Qed.

(** C2 (the code at the examples of the tool's description).  The filter
    removes every letter before the text reaches the evaluator, so the
    names of the [math] table never occur in what is evaluated:
    [sqrt(16)] is evaluated as [(16)] and [sin(pi/2)] as [(/2)], whatever
    the evaluator does with them. *)
Theorem calculator_names_removed :
  Tools.sanitize "sqrt(16)" = "(16)"
  /\ Tools.sanitize "sin(pi/2)" = "(/2)"
  /\ Tools.evaluateMathExpression "sqrt(16)"
     = Tools.evaluateMathExpression "(16)"
  /\ Tools.evaluateMathExpression "sin(pi/2)"
     = Tools.evaluateMathExpression "(/2)".
Proof.
  repeat split; try reflexivity;
    apply evaluateMathExpression_sanitize; reflexivity.
Qed.

End Calculator.

(** On the reference runtime: [sqrt(16)] gives 16, [sin(pi/2)] is rejected,
    and scenario A ([2+2]) gives 4. *)
Lemma calculator_examples :
  let RT := Reference.runtime in
  Tools.calculate_handler (JObj [("expression", JStr "sqrt(16)")])
    = Ok "Result: 16"
  /\ Tools.calculate_handler (JObj [("expression", JStr "sin(pi/2)")])
     = Ok "Error: Error: Invalid mathematical expression"
  /\ Tools.calculate_handler (JObj [("expression", JStr "2+2")])
     = Ok "Result: 4".
Proof. repeat split; vm_compute; reflexivity. Qed.

(** ** The tool dispatcher *)

Section Dispatcher.
Context {RT : Runtime}.

(** C4.  [executeTool] always returns a tool response carrying the id of
    the call; for an unregistered name its content names the unknown tool,
    and when parsing the arguments or running the handler throws, its
    content is the error message. *)
Theorem executeTool_never_raises (tm : Tools.ToolManager)
    (toolCall : Tools.ToolCall) :
  exists r : Tools.ToolResponse,
    Tools.executeTool tm toolCall = Ok r
    /\ Tools.tool_call_id r = Tools.id toolCall
    /\ Tools.role r = Api.tool
    /\ (Tools.handlers tm !! Tools.function_name toolCall = None ->
        Tools.content r
        = "Error: Unknown tool " +:+ JS.dquote
          +:+ Tools.function_name toolCall +:+ JS.dquote)
    /\ (forall handler e,
          Tools.handlers tm !! Tools.function_name toolCall = Some handler ->
          JSON_parse (Tools.function_arguments toolCall) = Throw e ->
          Tools.content r = "Error executing tool: " +:+ exn_to_string e)
    /\ (forall handler args e,
          Tools.handlers tm !! Tools.function_name toolCall = Some handler ->
          JSON_parse (Tools.function_arguments toolCall) = Ok args ->
          handler args = Throw e ->
          Tools.content r = "Error executing tool: " +:+ exn_to_string e).
Proof.
  unfold Tools.executeTool.
  destruct (Tools.handlers tm !! Tools.function_name toolCall)
    as [handler|] eqn:Hh.
  - destruct (JSON_parse (Tools.function_arguments toolCall))
      as [args|e] eqn:Hp; simpl.
    + destruct (handler args) as [text|e] eqn:Hr; simpl.
      * eexists; split; [reflexivity|]. simpl.
        repeat split; try discriminate.
        intros h a e [= <-] [= <-]. rewrite Hr. discriminate.
      * eexists; split; [reflexivity|]. simpl.
        repeat split; try discriminate.
        intros h a e' [= <-] [= <-]. rewrite Hr. intros [= <-]. reflexivity.
    + eexists; split; [reflexivity|]. simpl.
      repeat split; try discriminate.
      intros h e' _ [= <-]. reflexivity.
  - eexists; split; [reflexivity|]. simpl.
    repeat split; discriminate.
Qed.

End Dispatcher.

Lemma executeTool_never_raises_witness :
  exists r : Tools.ToolResponse,
    Tools.executeTool (RT := Reference.runtime)
      Examples.manager Examples.unknown_call = Ok r
    /\ Tools.tool_call_id r = "call_1"
    /\ Tools.content r
       = "Error: Unknown tool " +:+ JS.dquote +:+ "does_not_exist"
         +:+ JS.dquote.
Proof.
  destruct (executeTool_never_raises (RT := Reference.runtime)
              Examples.manager Examples.unknown_call)
    as (r & Hr & Hid & _ & Hunknown & _).
  exists r. split; [exact Hr|]. split; [exact Hid|].
  apply Hunknown. vm_compute. reflexivity.
Defined.

(** The three failures on the reference runtime: an unknown tool,
    arguments that are not JSON, a handler that throws. *)
Lemma executeTool_examples :
  let RT := Reference.runtime in
  Tools.executeTool Examples.manager Examples.unknown_call
  = Ok {| Tools.role := Api.tool;
          Tools.content := JS.q "Error: Unknown tool 'does_not_exist'";
          Tools.tool_call_id := "call_1" |}
  /\ Tools.executeTool Examples.manager Examples.bad_arguments_call
     = Ok {| Tools.role := Api.tool;
             Tools.content :=
               "Error executing tool: SyntaxError: Unexpected token in JSON";
             Tools.tool_call_id := "call_2" |}
  /\ Tools.executeTool Examples.exploding_manager Examples.exploding_call
     = Ok {| Tools.role := Api.tool;
             Tools.content := "Error executing tool: Error: boom";
             Tools.tool_call_id := "call_3" |}.
Proof. repeat split; vm_compute; reflexivity. Qed.

(** ** The session store *)

Section SessionStore.
Import Api Conversation.
Context {RT : Runtime}.

Lemma role_of_to_string (r : Role) : role_of_string (role_to_string r) = Some r.
Proof. destruct r; reflexivity. Qed.

Lemma message_of_to_json (m : ChatMessage) :
  message_of_json (message_to_json m) = Some m.
Proof.
  destruct m as [r c [calls|] [i|]];
    unfold message_of_json, message_to_json; cbn;
    rewrite role_of_to_string; reflexivity.
Qed.

Lemma messages_of_to_json (ms : list ChatMessage) :
  messages_of_json (map message_to_json ms) = Some ms.
Proof.
  induction ms as [|m ms IH]; [reflexivity|].
  cbn [map messages_of_json]. rewrite message_of_to_json, IH. reflexivity.
Qed.

Lemma session_of_to_json (d : SessionData) :
  session_of_json (session_to_json d) = Ok d.
Proof.
  destruct d as [i d ms]. unfold session_of_json, session_to_json. cbn.
  rewrite messages_of_to_json. reflexivity.
Qed.

Lemma loaded_of_to_json (d : SessionData) :
  loaded_of_json (session_to_json d)
  = Ok {| messages := session_messages d; sessionId := id d |}.
Proof.
  destruct d as [i d ms]. unfold loaded_of_json, session_to_json. cbn.
  rewrite messages_of_to_json. reflexivity.
Qed.

Lemma summary_of_to_json (d : SessionData) :
  summary_of_json (session_to_json d)
  = Ok {| summary_id := id d; summary_date := date d;
          messageCount := Z.of_nat (length (session_messages d)) |}.
Proof.
  destruct d as [i d ms]. unfold summary_of_json, session_to_json. cbn.
  rewrite length_map. reflexivity.
Qed.

(** C5.  With history enabled, saving a session and loading the id it was
    saved under gives back its turns and its id: the same messages, in the
    same order, each with its role and content.  The runtime is only asked
    to read back the JSON text it wrote for this session. *)
Theorem save_load_round_trip (cfg : Config.ConfigSchema) (now : string)
    (cm loader : ConversationManager) (fs : FileSystem) :
  Config.history_enabled cfg = true ->
  JSON_parse (JSON_stringify (saved_document now cm))
    = Ok (saved_document now cm) ->
  loadSession (sessionId cm) loader (saveSession cfg now cm fs) = Ok cm.
Proof.
  intros Hcfg Hjson. unfold loadSession, saveSession. rewrite Hcfg.
  cbv beta iota zeta delta [negb].
  unfold readFile. rewrite lookup_insert_eq.
  fold (saved_document now cm).
  unfold mbind, result_bind, try_catch. rewrite Hjson.
  unfold saved_document. rewrite loaded_of_to_json.
  destruct cm; reflexivity.
Qed.

(** With history disabled [saveSession] writes nothing. *)
Lemma save_disabled (cfg : Config.ConfigSchema) (now : string)
    (cm : ConversationManager) (fs : FileSystem) :
  Config.history_enabled cfg = false -> saveSession cfg now cm fs = fs.
Proof. unfold saveSession. intros ->. reflexivity. Qed.

(** One file that is not JSON makes the whole listing loop throw. *)
Lemma read_summaries_corrupt (fs : FileSystem) (files : list string)
    (file data : string) (e : exn) :
  In file files ->
  JS.endsWith file ".json" = true ->
  fs !! file = Some data ->
  JSON_parse data = Throw e ->
  exists e', read_summaries fs files = Throw e'.
Proof.
  intros Hin Hext Hfile Hparse.
  induction files as [|f files IH]; [destruct Hin|].
  cbn [read_summaries].
  destruct (String.string_dec f file) as [->|Hne].
  - rewrite Hext. unfold readFile. rewrite Hfile. cbn. rewrite Hparse.
    cbn. eauto.
  - destruct Hin as [Heq|Hin]; [congruence|].
    destruct (IH Hin) as [e' He'].
    destruct (JS.endsWith f ".json"); [|eauto].
    destruct (readFile fs f) as [d|]; cbn; [|eauto].
    destruct (JSON_parse d) as [v|]; cbn; [|eauto].
    destruct (summary_of_json v) as [sd|]; cbn; [|eauto].
    rewrite He'. cbn. eauto.
Qed.

Lemma listSessions_corrupt (fs : FileSystem) (file data : string) (e : exn) :
  JS.endsWith file ".json" = true ->
  fs !! file = Some data ->
  JSON_parse data = Throw e ->
  listSessions fs = [].
Proof.
  intros Hext Hfile Hparse. unfold listSessions.
  destruct (read_summaries_corrupt fs (readdir fs) file data e)
    as [e' ->]; auto.
  unfold readdir. apply list_elem_of_In, list_elem_of_fmap.
  exists (file, data). split; [reflexivity|].
  apply elem_of_map_to_list. exact Hfile.
Qed.

End SessionStore.

Lemma save_load_round_trip_witness :
  Conversation.loadSession (RT := Reference.runtime)
    "2024-05-01T10-00-00-000Z" (Conversation.clear ExampleStore.live)
    (Conversation.saveSession (RT := Reference.runtime) Config.defaults
       "2024-05-01T10:00:07.000Z" ExampleStore.live ∅)
  = Ok ExampleStore.live.
Proof.
  apply (save_load_round_trip (RT := Reference.runtime) Config.defaults
           "2024-05-01T10:00:07.000Z" ExampleStore.live
           (Conversation.clear ExampleStore.live) ∅).
  - reflexivity.
  - vm_compute. reflexivity.
Defined.

(** ** The chat engine *)

Section Engine.
Import Api Conversation Chat.
Context {RT : Runtime} (w : World).

Lemma set_conversation_twice (cm cm' : ConversationManager) (s : State) :
  set_conversation cm' (set_conversation cm s) = set_conversation cm' s.
Proof. reflexivity. Qed.

Lemma set_conversation_same (s : State) :
  set_conversation (conversation s) s = s.
Proof. destruct s; reflexivity. Qed.

(** The search loop never throws and touches nothing but the live
    conversation. *)
Lemma search_sessions_frame (query : string) (sessions : list SessionSummary) :
  forall s : State,
  exists results cm d,
    search_sessions query sessions s = (Ok results, set_conversation cm s, d).
Proof.
  induction sessions as [|session rest IH]; intros s.
  - exists [], (conversation s), []. cbn. rewrite set_conversation_same.
    reflexivity.
  - cbn [search_sessions].
    unfold mbind, M_bind, catch, conversation_loadSession, gets.
    destruct (loadSession (summary_id session) (conversation s) (fs s))
      as [cm|e].
    + destruct (IH (set_conversation cm s)) as (results & cm' & d & Hrest).
      unfold getMessages. cbn [conversation set_conversation].
      destruct (session_matches query (messages cm)) as [|m ms];
        unfold mret, M_ret; cbn; rewrite Hrest; cbn; eauto.
    + destruct (IH s) as (results & cm' & d & Hrest).
      unfold mret, M_ret. rewrite Hrest. cbn. eauto.
Qed.

Lemma searchConversations_nothing_listed (query : string) (s : State) :
  listSessions (fs s) = [] ->
  searchConversations w query s
  = (Ok tt, s, [displayInfo "No conversation history to search"]).
Proof.
  intros Hnone. unfold searchConversations.
  unfold mbind, M_bind, conversation_listSessions, gets.
  rewrite Hnone. reflexivity.
Qed.

(** C3 (the code on a store with a file that is not JSON).  When any
    [.json] file of the history directory fails to parse, [listSessions]
    returns the empty list, and the search stops before looking at any
    session: it reports that there is no history and finds nothing. *)
Theorem search_aborted_by_corrupt_file (query : string) (s : State)
    (file data : string) (e : exn) :
  JS.endsWith file ".json" = true ->
  fs s !! file = Some data ->
  JSON_parse data = Throw e ->
  listSessions (fs s) = []
  /\ searchConversations w query s
     = (Ok tt, s, [displayInfo "No conversation history to search"]).
Proof.
  intros Hext Hfile Hparse.
  assert (Hnone : listSessions (fs s) = [])
    by (eapply listSessions_corrupt; eauto).
  split; [exact Hnone|]. apply searchConversations_nothing_listed, Hnone.
Qed.

End Engine.

Lemma search_aborted_by_corrupt_file_witness :
  Conversation.listSessions (RT := Reference.runtime) ExampleStore.three_files
  = []
  /\ Chat.searchConversations (RT := Reference.runtime)
       ExampleChat.quiet_world "x"
       (ExampleChat.chatting ExampleStore.three_files)
     = (Ok tt, ExampleChat.chatting ExampleStore.three_files,
        [displayInfo "No conversation history to search"]).
Proof.
  apply (search_aborted_by_corrupt_file (RT := Reference.runtime)
           ExampleChat.quiet_world "x"
           (ExampleChat.chatting ExampleStore.three_files)
           "third.json" ExampleStore.corrupt_text Reference.syntax_error).
  - reflexivity.
  - vm_compute. reflexivity.
  - vm_compute. reflexivity.
Defined.

(** Without the third file the same search finds the matches of both
    sessions, the more recent one first. *)
Lemma search_two_files_finds_both :
  snd (Chat.searchConversations (RT := Reference.runtime)
         ExampleChat.quiet_world "x"
         (ExampleChat.chatting ExampleStore.two_files))
  = [displayInfo (JS.q "Searching for: 'x'...");
     console_log "Found 2 conversations with matches:";
     console_log "1. Session from 2024-05-02T10:00:00.000Z";
     console_log "   - user: Spell fox.";
     console_log "";
     console_log "2. Session from 2024-05-01T10:00:00.000Z";
     console_log "   - user: What is x?";
     console_log "   - assistant: x is a letter.";
     console_log ""].
Proof. vm_compute. reflexivity. Qed.

Section MessageSending.
Import Api Conversation Chat.
Context {RT : Runtime} (w : World).

(** A promise that rejects was not resolved by the handler, so that no
    data event follows its settlement. *)
Lemma late_with_rejected (sep : string) (chunks : list string)
    (fin : StreamEnd) :
  forall (buffer : string) (out : list json) (e : exn),
    feed_with sep buffer chunks fin = (out, Throw e) ->
    late_with sep buffer chunks = [].
Proof.
  induction chunks as [|c chunks IH]; intros buffer out e; [reflexivity|].
  cbn [feed_with late_with].
  destruct (on_data_with sep buffer c) as [[buffer' out0] resolved].
  destruct resolved; [discriminate|].
  destruct (feed_with sep buffer' chunks fin) as [out' r] eqn:E.
  intros [= _ ->]. exact (IH _ _ _ E).
Qed.

Lemma chunks_seen_rejected (response : Response) (chunks : list json)
    (e : exn) :
  streamChatCompletion response = (chunks, Throw e) ->
  chunks_seen w response = chunks.
Proof.
  intros Hfail. unfold chunks_seen. rewrite Hfail. cbn [fst].
  assert (Hlate : late response = []).
  { destruct response as [| |events fin]; try reflexivity.
    exact (late_with_rejected _ _ _ _ _ _ Hfail). }
  rewrite Hlate, firstn_nil. cbn [concat]. apply app_nil_r.
Qed.

(** What [sendMessage] does when the promise of [streamChatCompletion]
    rejects. *)
Lemma sendMessage_rejected (content : string) (s : State)
    (chunks : list json) (e : exn) :
  let s1 :=
    set_conversation
      (addMessage (Examples.user_message content) (conversation s)) s in
  streamChatCompletion
    (post w (completion_request (config s) (messages (conversation s1))))
    = (chunks, Throw e) ->
  sendMessage w content s
  = (Ok tt, s1,
     [spinner_start "Thinking..."] ++ chunk_displays chunks
     ++ [spinner_stop;
         displayError ("Failed to get response: " +:+ exn_to_string e)]).
Proof.
  intros s1 Hfail. unfold sendMessage.
  unfold mbind, M_bind, catch, conversation_addMessage, modify, emit, gets.
  fold (Examples.user_message content). fold s1.
  unfold getMessages. cbn [config set_conversation] in *.
  change (config s1) with (config s).
  rewrite (chunks_seen_rejected _ _ _ Hfail), Hfail.
  unfold emit_all, lift, emit. cbn.
  rewrite <- !app_assoc. reflexivity.
Qed.

(** C6.  When the streamed request fails (the promise of
    [streamChatCompletion] rejects, whatever had been delivered before),
    [sendMessage] returns normally with the user turn as the only addition
    to the transcript: no assistant turn is appended, so the content
    streamed so far is dropped; nothing is saved, the error is displayed,
    and the chat keeps running. *)
Theorem sendMessage_stream_failure (content : string) (s : State)
    (chunks : list json) (e : exn) :
  streamChatCompletion
    (post w (completion_request (config s)
               (messages (conversation s) ++ [Examples.user_message content])))
    = (chunks, Throw e) ->
  exists s' d,
    sendMessage w content s = (Ok tt, s', d)
    /\ messages (conversation s')
       = messages (conversation s) ++ [Examples.user_message content]
    /\ fs s' = fs s /\ config s' = config s /\ isRunning s' = isRunning s
    /\ d = [spinner_start "Thinking..."] ++ chunk_displays chunks
           ++ [spinner_stop;
               displayError ("Failed to get response: "
                             +:+ exn_to_string e)].
Proof.
  intros Hfail. do 2 eexists.
  split; [apply (sendMessage_rejected content s chunks e Hfail)|].
  repeat split.
Qed.

End MessageSending.

Lemma sendMessage_stream_failure_witness :
  exists s' d,
    Chat.sendMessage (RT := Reference.runtime) ExampleChat.failing_world "hi"
      (ExampleChat.chatting ∅) = (Ok tt, s', d)
    /\ Conversation.messages (Chat.conversation s')
       = [Examples.user_message "hello"; Examples.user_message "hi"]
    /\ In (stdout_write_markdown (JStr "Hel")) d.
Proof.
  destruct (sendMessage_stream_failure (RT := Reference.runtime)
              ExampleChat.failing_world "hi" (ExampleChat.chatting ∅)
              [JStr "Hel"] (new_Error "socket hang up"))
    as (s' & d & Hrun & Hmsgs & _ & _ & _ & Hd).
  - vm_compute. reflexivity.
  - exists s', d. split; [exact Hrun|]. split; [exact Hmsgs|].
    rewrite Hd. cbn. auto.
Defined.

Section Commands.
Import Api Conversation Chat.
Context {RT : Runtime} (w : World).

(** C8, amended.  With the argument omitted, [/temp], [/tokens] and
    [/theme] display the current value and change nothing; [/system]
    displays a warning and changes nothing; [/model] fetches the model list
    and sets the configured model to the entry picked from it, leaving the
    transcript alone, and changes nothing when the fetch fails. *)
Theorem omitted_argument_commands (s : State) :
  handleCommand w "/temp" s
  = (Ok tt, s,
     [displayInfo ("Current temperature: "
                   +:+ shown_number (Config.temperature (config s)))])
  /\ handleCommand w "/tokens" s
     = (Ok tt, s,
        [displayInfo ("Current max tokens: "
                      +:+ shown_number (Config.maxTokens (config s)))])
  /\ handleCommand w "/theme" s
     = (Ok tt, s,
        [displayInfo ("Current theme: "
                      +:+ shown_text (Config.theme (config s)))])
  /\ handleCommand w "/system" s
     = (Ok tt, s, [displayWarning "Please provide a system prompt"])
  /\ handleCommand w "/model" s
     = match listModels w with
       | Ok models =>
           (Ok tt,
            set_config (Config.set_model (picked w models) (config s)) s,
            [spinner_start "Fetching available models..."; spinner_stop;
             displaySuccess ("Model changed to: " +:+ picked w models)])
       | Throw e =>
           (Ok tt, s,
            [spinner_start "Fetching available models..."; spinner_stop;
             displayError ("Failed to fetch models: " +:+ exn_to_string e)])
       end.
Proof.
  repeat split; try reflexivity.
  unfold handleCommand. cbn -[showModels].
  unfold showModels, mbind, M_bind, catch, lift, emit, modify.
  destruct (listModels w); reflexivity.
Qed.

End Commands.

(** C8 (counterexample).  [/model] with the argument omitted changes the
    configuration: with two models on offer and the second one picked, the
    configured model goes from [llama3.1-8b] to [llama3.1-70b].  And
    [/system] with the argument omitted displays a warning, not the current
    system prompt. *)
Lemma omitted_model_argument_changes_config :
  Config.model (Chat.config (ExampleChat.chatting ∅)) = Some "llama3.1-8b"
  /\ Config.model
       (Chat.config
          (snd (fst (Chat.handleCommand (RT := Reference.runtime)
                       (ExampleChat.accepting_world 1) "/model"
                       (ExampleChat.chatting ∅)))))
     = Some "llama3.1-70b"
  /\ Chat.config
       (snd (fst (Chat.handleCommand (RT := Reference.runtime)
                    (ExampleChat.accepting_world 1) "/model"
                    (ExampleChat.chatting ∅))))
     <> Chat.config (ExampleChat.chatting ∅)
  /\ snd (Chat.handleCommand (RT := Reference.runtime)
            ExampleChat.quiet_world "/system" (ExampleChat.chatting ∅))
     = [displayWarning "Please provide a system prompt"].
Proof.
  split; [reflexivity|]. split; [vm_compute; reflexivity|].
  split; [vm_compute; discriminate|]. vm_compute. reflexivity.
Qed.

Section Temperature.
Import Api Conversation Chat.
Context {RT : Runtime} (w : World).

(** A number passes the test of [/temp] exactly when it is a rational
    between 0 and 2. *)
Lemma valid_temperature_spec (t : number) :
  valid_temperature t = true <-> exists q, t = Num q /\ (0 <= q <= 2)%Q.
Proof.
  unfold valid_temperature, num_of_Z. split.
  - destruct t as [|neg|q]; cbn; try discriminate.
    + destruct neg; discriminate.
    + intros [H0 H2]%andb_true_iff. exists q. split; [reflexivity|].
      split; apply Qle_bool_iff; assumption.
  - intros (q & -> & H0 & H2). cbn.
    apply andb_true_iff. split; apply Qle_bool_iff; assumption.
Qed.

(** [/temp <arg>] with an argument: the command word and the argument the
    handler extracts, and what it then does. *)
Lemma temp_command_runs (arg : string) (s : State) :
  arg <> "" ->
  handleCommand w ("/temp " +:+ arg) s
  = if valid_temperature (parseFloat arg)
    then (Ok tt,
          set_config (Config.set_temperature (parseFloat arg) (config s)) s,
          [displaySuccess ("Temperature set to: "
                           +:+ number_to_string (parseFloat arg))])
    else (Ok tt, s, [displayError "Temperature must be between 0 and 2"]).
Proof.
  intros Harg.
  assert (Hparts : JS.split (JS.drop 1 ("/temp " +:+ arg)) " "
                   = "temp" :: JS.split arg " ").
  { unfold JS.split. cbv [String.append JS.drop]. fold String.append. cbn.
    rewrite prefix_empty. reflexivity. }
  unfold handleCommand. rewrite Hparts. cbn [hd tl].
  rewrite join_split_char.
  assert (Hne : nonempty arg = true).
  { unfold nonempty. apply negb_true_iff, String.eqb_neq, Harg. }
  rewrite Hne.
  change (JS.toLowerCase "temp") with "temp".
  cbn [String.eqb Ascii.eqb Bool.eqb orb].
  destruct (valid_temperature (parseFloat arg)); reflexivity.
Qed.

(** C7.  For an argument that parses to a number between 0 and 2, [/temp]
    stores that number as the temperature; for any other argument it
    leaves the configuration (and everything else) as it was and displays
    the validation error.  An argument is the non-empty text after the
    command word; with no text there the argument is omitted, and the
    command displays the current value instead. *)
Theorem temp_command_validates (arg : string) (s : State) :
  arg <> "" ->
  (forall q, parseFloat arg = Num q -> (0 <= q <= 2)%Q ->
     exists s' d,
       handleCommand w ("/temp " +:+ arg) s = (Ok tt, s', d)
       /\ Config.temperature (config s') = Some (Num q)
       /\ conversation s' = conversation s /\ fs s' = fs s)
  /\ ((~ exists q, parseFloat arg = Num q /\ (0 <= q <= 2)%Q) ->
      handleCommand w ("/temp " +:+ arg) s
      = (Ok tt, s, [displayError "Temperature must be between 0 and 2"])).
Proof.
  intros Harg. rewrite (temp_command_runs arg s Harg). split.
  - intros q Hq Hrange.
    assert (Hvalid : valid_temperature (parseFloat arg) = true)
      by (apply valid_temperature_spec; eauto).
    rewrite Hvalid, Hq. do 2 eexists. split; [reflexivity|]. repeat split.
  - intros Hnot.
    destruct (valid_temperature (parseFloat arg)) eqn:Hvalid; [|reflexivity].
    exfalso. apply Hnot, valid_temperature_spec, Hvalid.
Qed.

End Temperature.

Lemma temp_command_validates_witness :
  Chat.handleCommand (RT := Reference.runtime) ExampleChat.quiet_world
    "/temp 5" (ExampleChat.chatting ∅)
  = (Ok tt, ExampleChat.chatting ∅,
     [displayError "Temperature must be between 0 and 2"]).
Proof.
  destruct (temp_command_validates (RT := Reference.runtime)
              ExampleChat.quiet_world "5" (ExampleChat.chatting ∅))
    as [_ Hrejected].
  - discriminate.
  - apply Hrejected. intros (q & Hq & _ & Hle).
    vm_compute in Hq. injection Hq as <-.
    vm_compute in Hle. apply Hle. reflexivity.
Defined.

(** ** The search snippet *)

Section Snippet.
Import Chat.



End Snippet.


(** The snippet of the long turn: fifty characters on each side of the
    occurrence, between the marks. *)
Lemma snippet_of_long_turn :
  Chat.extractSnippet ExampleStore.long_turn "NEEDLE"
  = "...rem ipsum lorem ipsum lorem ipsum lorem ipsum the needle is "
    +:+ "here dolor sit amet, dolor sit amet, dolor sit...".
Proof. vm_compute. reflexivity. Qed.

(** *** The snippet over 16-bit code units *)

Section WideSnippet.

Lemma of_string_app (a b : string) :
  Wide.of_string (a +:+ b) = Wide.of_string a ++ Wide.of_string b.
Proof.
  induction a as [|c a IH]; [reflexivity|].
  rewrite app_cons. unfold Wide.of_string in *.
  cbn [list_ascii_of_string map app]. rewrite IH. reflexivity.
Qed.

Lemma of_string_length (s : string) :
  List.length (Wide.of_string s) = String.length s.
Proof.
  induction s as [|c s IH]; [reflexivity|].
  unfold Wide.of_string in *. cbn [list_ascii_of_string map List.length].
  rewrite IH. reflexivity.
Qed.

Lemma of_string_nil (s : string) : Wide.of_string s = [] -> s = "".
Proof. destruct s; [reflexivity|discriminate]. Qed.

Lemma lower_unit_ascii (c : ascii) :
  Wide.lower_unit (N_of_ascii c) = [N_of_ascii (JS.lower_ascii c)].
Proof. destruct c as [[] [] [] [] [] [] [] []]; vm_compute; reflexivity. Qed.

Lemma is_space_ascii (c : ascii) :
  Wide.is_space (N_of_ascii c) = JS.is_space c.
Proof. destruct c as [[] [] [] [] [] [] [] []]; vm_compute; reflexivity. Qed.

Lemma toLowerCase_of_string (s : string) :
  Wide.toLowerCase (Wide.of_string s) = Wide.of_string (JS.toLowerCase s).
Proof.
  induction s as [|c s IH]; [reflexivity|].
  unfold Wide.of_string, Wide.toLowerCase in *.
  cbn [list_ascii_of_string map flat_map JS.toLowerCase].
  rewrite lower_unit_ascii, IH. reflexivity.
Qed.

Lemma unit_eqb_ascii (a b : ascii) :
  (N_of_ascii a =? N_of_ascii b)%N = if ascii_dec a b then true else false.
Proof.
  destruct (ascii_dec a b) as [->|Hne]; [apply N.eqb_refl|].
  apply N.eqb_neq. intros H. apply Hne.
  rewrite <- (ascii_N_embedding a), <- (ascii_N_embedding b), H. reflexivity.
Qed.

Lemma prefix_of_string (p : string) :
  forall t : string,
    Wide.prefix (Wide.of_string p) (Wide.of_string t) = String.prefix p t.
Proof.
  induction p as [|a p IH]; intros t.
  - destruct t; reflexivity.
  - destruct t as [|b t]; [reflexivity|].
    unfold Wide.of_string in *.
    cbn [list_ascii_of_string map Wide.prefix String.prefix].
    rewrite unit_eqb_ascii. destruct (ascii_dec a b); [apply IH|reflexivity].
Qed.

Lemma indexOf_of_string (needle : string) :
  forall hay : string,
    Wide.indexOf (Wide.of_string hay) (Wide.of_string needle)
    = JS.indexOf hay needle.
Proof.
  induction hay as [|c hay IH].
  - cbn [JS.indexOf]. rewrite <- prefix_of_string. reflexivity.
  - cbn [JS.indexOf]. rewrite <- prefix_of_string.
    change (Wide.of_string (String c hay))
      with (N_of_ascii c :: Wide.of_string hay).
    cbn [Wide.indexOf]. rewrite IH. reflexivity.
Qed.

Lemma substring_of_string (s : string) :
  forall n m : nat,
    firstn m (skipn n (Wide.of_string s))
    = Wide.of_string (String.substring n m s).
Proof.
  induction s as [|c s IH]; intros [|n] [|m]; try reflexivity.
  - change (Wide.of_string (String c s))
      with (N_of_ascii c :: Wide.of_string s).
    cbn [skipn firstn String.substring].
    change (Wide.of_string (String c (String.substring 0 m s)))
      with (N_of_ascii c :: Wide.of_string (String.substring 0 m s)).
    f_equal. exact (IH 0%nat m).
  - change (Wide.of_string (String c s))
      with (N_of_ascii c :: Wide.of_string s).
    cbn [skipn String.substring]. exact (IH n 0%nat).
  - change (Wide.of_string (String c s))
      with (N_of_ascii c :: Wide.of_string s).
    cbn [skipn String.substring]. exact (IH n (S m)).
Qed.

Lemma trimStart_of_string (s : string) :
  Wide.trimStart (Wide.of_string s) = Wide.of_string (JS.trimStart s).
Proof.
  induction s as [|c s IH]; [reflexivity|].
  change (Wide.of_string (String c s))
    with (N_of_ascii c :: Wide.of_string s).
  cbn [Wide.trimStart JS.trimStart]. rewrite is_space_ascii.
  destruct (JS.is_space c); [exact IH|reflexivity].
Qed.

Lemma trimEnd_of_string (s : string) :
  Wide.trimEnd (Wide.of_string s) = Wide.of_string (JS.trimEnd s).
Proof.
  induction s as [|c s IH]; [reflexivity|].
  change (Wide.of_string (String c s))
    with (N_of_ascii c :: Wide.of_string s).
  cbn [Wide.trimEnd JS.trimEnd]. rewrite IH, is_space_ascii.
  destruct (JS.trimEnd s) as [|d rest]; [destruct (JS.is_space c)|];
    reflexivity.
Qed.

(** On code units below U+0100 the two embeddings of [extractSnippet]
    agree. *)
Lemma extractSnippet_of_string (content query : string) :
  Wide.extractSnippet (Wide.of_string content) (Wide.of_string query)
  = Wide.of_string (Chat.extractSnippet content query).
Proof.
  unfold Wide.extractSnippet, Chat.extractSnippet.
  rewrite !toLowerCase_of_string, indexOf_of_string.
  destruct (JS.indexOf (JS.toLowerCase content) (JS.toLowerCase query) =? -1);
    [reflexivity|].
  unfold Wide.length, JS.length. rewrite !of_string_length.
  unfold Wide.trim, JS.trim.
  rewrite <- trimEnd_of_string, <- trimStart_of_string.
  do 2 f_equal.
  unfold Wide.substring, JS.substring, Wide.length, JS.length.
  rewrite of_string_length, substring_of_string.
  repeat match goal with
         | |- context [if ?b then _ else _] => destruct b
         end;
    rewrite ?of_string_app; reflexivity.
Qed.


End WideSnippet.

(** * Further properties *)

(** ** The streaming parser: cutting the stream into data events *)

Section SplitAppend.

Lemma prefix_length (sep s : string) :
  String.prefix sep s = true -> (String.length sep <= String.length s)%nat.
Proof.
  intros H. destruct (prefix_app _ _ H) as [rest ->].
  rewrite string_app_length. lia.
Qed.

Lemma prefix_extend (sep s rest : string) :
  String.prefix sep s = true -> String.prefix sep (s +:+ rest) = true.
Proof.
  intros H. destruct (prefix_app _ _ H) as [r ->].
  rewrite string_app_assoc. apply prefix_of_app.
Qed.

(** A match that needs the continuation starts less than a separator's
    length before the end. *)
Lemma prefix_restrict (sep s rest : string) :
  String.prefix sep (s +:+ rest) = true ->
  (String.length sep <= String.length s)%nat ->
  String.prefix sep s = true.
Proof.
  revert s. induction sep as [|c sep IH]; intros s H Hlen.
  - apply prefix_empty.
  - destruct s as [|d s]; cbn [String.length] in Hlen; [lia|].
    rewrite app_cons in H. cbn [String.prefix] in *.
    destruct (ascii_dec c d); [|discriminate].
    apply IH; [exact H|lia].
Qed.

Lemma split_go_short (sep s : string) :
  (String.length s < String.length sep)%nat -> JS.split_go sep s 0 = [s].
Proof.
  induction s as [|c s IH]; intros Hlen; cbn [JS.split_go]; [reflexivity|].
  destruct (String.prefix sep (String c s)) eqn:E.
  - apply prefix_length in E. lia.
  - cbn [String.length] in Hlen. rewrite IH by lia. reflexivity.
Qed.

Lemma split_go_single (sep s x : string) :
  JS.split_go sep s 0 = [x] -> x = s.
Proof.
  revert x. induction s as [|c s IH]; intros x; cbn [JS.split_go].
  - intros [= <-]. reflexivity.
  - destruct (String.prefix sep (String c s)).
    + intros H. injection H as _ H. exfalso. eapply split_go_nonempty, H.
    + destruct (JS.split_go sep s 0) as [|seg rest] eqn:E.
      * intros [= <-]. exfalso. eapply split_go_nonempty, E.
      * intros [= <- ->]. rewrite (IH seg eq_refl). reflexivity.
Qed.

Lemma pop_snoc (init : list string) (last : string) :
  JS.pop (init ++ [last]) = (Some last, init).
Proof.
  induction init as [|x init IH]; [reflexivity|].
  change (JS.pop ((x :: init) ++ [last]))
    with (match init ++ [last] with
          | [] => (Some x, [])
          | _ :: _ =>
              let '(l, i) := JS.pop (init ++ [last]) in (l, x :: i)
          end).
  rewrite IH. destruct init; reflexivity.
Qed.

(** The pieces of a text followed by more text: all but the last piece
    are final, and the last one is continued. *)
Lemma split_go_app (sep b : string) :
  forall (a : string) (skip : nat),
    (skip <= String.length a)%nat ->
    exists init last,
      JS.split_go sep a skip = init ++ [last]
      /\ JS.split_go sep (a +:+ b) skip
         = init ++ JS.split_go sep (last +:+ b) 0.
Proof.
  induction a as [|c a IH]; intros skip Hskip.
  - cbn [String.length] in Hskip. replace skip with O by lia.
    exists [], "". split; reflexivity.
  - rewrite app_cons. destruct skip as [|skip].
    + cbn [JS.split_go]. fold (String c a +:+ b). rewrite <- app_cons.
      destruct (String.prefix sep (String c a)) eqn:Ea.
      * rewrite (prefix_extend _ _ b Ea).
        pose proof (prefix_length _ _ Ea) as Hlen. cbn [String.length] in Hlen.
        destruct (IH (String.length sep - 1)%nat ltac:(lia))
          as (init & last & Hsplit & Happ).
        exists ("" :: init), last. rewrite Hsplit, Happ. split; reflexivity.
      * destruct (String.prefix sep (String c a +:+ b)) eqn:Eab.
        -- (* the match at [c] needs [b]: nothing matches inside [c a] *)
           assert (Hshort : (String.length (String c a) < String.length sep)%nat).
           { destruct (Nat.lt_ge_cases (String.length (String c a))
                         (String.length sep)) as [|Hge]; [assumption|].
             rewrite (prefix_restrict _ _ _ Eab Hge) in Ea. discriminate. }
           pose proof (split_go_short sep (String c a) Hshort) as Hsingle.
           cbn [JS.split_go] in Hsingle. rewrite Ea in Hsingle.
           exists [], (String c a). split; [exact Hsingle|].
           cbn [app]. rewrite app_cons. cbn [JS.split_go].
           rewrite <- app_cons, Eab. reflexivity.
        -- destruct (IH O ltac:(lia)) as (init & last & Hsplit & Happ).
           rewrite Hsplit, Happ. destruct init as [|seg init].
           ++ exists [], (String c last). split; [reflexivity|].
              cbn [app]. apply split_go_single in Hsplit. subst last.
              rewrite app_cons. cbn [JS.split_go].
              rewrite <- app_cons, Eab. reflexivity.
           ++ exists (String c seg :: init), last. split; reflexivity.
    + cbn [JS.split_go]. cbn [String.length] in Hskip.
      destruct (IH skip ltac:(lia)) as (init & last & Hsplit & Happ).
      exists init, last. split; assumption.
Qed.

(** The last piece of a split contains no separator. *)
Lemma split_go_last (sep a : string) (skip : nat) (init : list string)
    (last : string) :
  (skip <= String.length a)%nat ->
  JS.split_go sep a skip = init ++ [last] ->
  JS.split_go sep last 0 = [last].
Proof.
  intros Hskip Hsplit.
  destruct (split_go_app sep "" a skip Hskip) as (init' & last' & H1 & H2).
  rewrite !string_app_nil_r, H1 in H2.
  rewrite Hsplit in H1. apply app_inj_tail in H1 as [-> ->].
  apply app_inv_head in H2. congruence.
Qed.

End SplitAppend.

Section ChunkBoundaries.
Context {RT : Runtime}.

Lemma process_lines_app (l1 l2 : list string) :
  Api.process_lines (l1 ++ l2)
  = if snd (Api.process_lines l1)
    then (fst (Api.process_lines l1), true)
    else (fst (Api.process_lines l1) ++ fst (Api.process_lines l2),
          snd (Api.process_lines l2)).
Proof.
  induction l1 as [|line l1 IH].
  - cbn. destruct (Api.process_lines l2); reflexivity.
  - cbn [app Api.process_lines].
    destruct (JS.startsWith line "data: "); [|exact IH].
    destruct (String.eqb (JS.drop 6 line) "[DONE]"); [reflexivity|].
    rewrite IH. destruct (Api.process_lines l1) as [o1 r1].
    destruct (Api.process_lines l2) as [o2 r2]. cbn [fst snd].
    destruct r1; cbn [fst snd]; rewrite ?app_assoc; reflexivity.
Qed.

Lemma feed_joined (sep : string) (chunks : list string) (fin : Api.StreamEnd) :
  forall buffer : string,
    JS.split_go sep buffer 0 = [buffer] ->
    Api.feed_with sep buffer chunks fin
    = Api.feed_with sep buffer [String.concat "" chunks] fin.
Proof.
  induction chunks as [|c chunks IH]; intros buffer Hbuffer.
  - cbn [String.concat Api.feed_with]. unfold Api.on_data_with.
    rewrite string_app_nil_r. unfold JS.split. rewrite Hbuffer. reflexivity.
  - rewrite concat_empty_cons. cbn [Api.feed_with]. unfold Api.on_data_with.
    rewrite <- string_app_assoc. unfold JS.split.
    destruct (split_go_app sep (String.concat "" chunks) (buffer +:+ c) 0
                ltac:(lia)) as (init & last & Hsplit & Happ).
    rewrite Hsplit, Happ, pop_snoc.
    pose proof (split_go_last sep _ 0 init last ltac:(lia) Hsplit) as Hlast.
    destruct (split_go_app sep "" (last +:+ String.concat "" chunks) 0
                ltac:(lia)) as (init2 & last2 & Hsplit2 & _).
    rewrite Hsplit2, app_assoc, pop_snoc, process_lines_app.
    destruct (Api.process_lines init) as [o1 r1]. cbn [fst snd].
    destruct r1; [reflexivity|].
    rewrite (IH last Hlast). cbn [Api.feed_with]. unfold Api.on_data_with.
    unfold JS.split. rewrite Hsplit2, pop_snoc.
    destruct (Api.process_lines init2) as [o2 r2]. cbn [fst snd].
    destruct r2; rewrite ?app_nil_r; reflexivity.
Qed.

(** Lines none of which is the sentinel line do not resolve the
    promise. *)
Lemma process_lines_unresolved (lines : list string) :
  ~ In "data: [DONE]" lines -> snd (Api.process_lines lines) = false.
Proof.
  induction lines as [|line lines IH]; intros Hnone; [reflexivity|].
  cbn [Api.process_lines].
  assert (Hrest : snd (Api.process_lines lines) = false)
    by (apply IH; intros H; apply Hnone; right; exact H).
  destruct (JS.startsWith line "data: ") eqn:Hdata; [|exact Hrest].
  destruct (String.eqb (JS.drop 6 line) "[DONE]") eqn:Hdone.
  - exfalso. apply Hnone. left.
    apply prefix_app in Hdata as [rest ->]. apply String.eqb_eq in Hdone.
    change (JS.drop 6 ("data: " +:+ rest)) with rest in Hdone.
    subst rest. reflexivity.
  - destruct (Api.process_lines lines). exact Hrest.
Qed.

(** Without a sentinel line the handler never resolves the promise, so
    that no data event comes after its settlement. *)
Lemma late_with_none (sep : string) (chunks : list string) :
  forall buffer : string,
    JS.split_go sep buffer 0 = [buffer] ->
    ~ In "data: [DONE]"
        (JS.split_go sep (buffer +:+ String.concat "" chunks) 0) ->
    Api.late_with sep buffer chunks = [].
Proof.
  induction chunks as [|c chunks IH]; intros buffer Hbuffer Hnone;
    [reflexivity|].
  rewrite concat_empty_cons, <- string_app_assoc in Hnone.
  cbn [Api.late_with]. unfold Api.on_data_with, JS.split.
  destruct (split_go_app sep (String.concat "" chunks) (buffer +:+ c) 0
              ltac:(lia)) as (init & last & Hsplit & Happ).
  rewrite Happ in Hnone. rewrite Hsplit, pop_snoc.
  pose proof (process_lines_unresolved init) as Hinit.
  destruct (Api.process_lines init) as [out resolved]. cbn [snd] in Hinit.
  rewrite Hinit by (intros H; apply Hnone, in_or_app; left; exact H).
  apply IH.
  - exact (split_go_last sep _ 0 init last ltac:(lia) Hsplit).
  - intros H. apply Hnone, in_or_app. right. exact H.
Qed.

(** X1.  What the chunk callback has been called with when the promise
    settles, and how the promise settles, depend on the data events
    through the concatenation of their texts only (the texts the buffers
    decode to, one by one): any sequence of event texts gives what their
    concatenation gives as one event.  And when no line of the response
    is the sentinel line, nothing is handed to the callback after that:
    these are all its calls. *)
Theorem stream_cut_anywhere (chunks : list string) (fin : Api.StreamEnd) :
  Api.streamChatCompletion (Api.Stream chunks fin)
  = Api.streamChatCompletion (Api.Stream [String.concat "" chunks] fin)
  /\ (~ In "data: [DONE]"
          (JS.split (String.concat "" chunks) Api.line_separator) ->
      Api.late (Api.Stream chunks fin) = []).
Proof.
  split; [apply feed_joined; reflexivity|].
  intros Hnone. apply late_with_none; [reflexivity|exact Hnone].
Qed.

(** With a sentinel line the cut matters for what comes after it: a
    delta behind the sentinel is dropped when it arrives in the same data
    event, and handed to the callback when it arrives in a later one. *)
Lemma late_delta_depends_on_cut :
  let RT := Reference.runtime in
  let sentinel := "data: [DONE]" +:+ JS.backslash_n in
  let delta := Examples.frame "late" +:+ JS.backslash_n in
  Api.late (Api.Stream [sentinel +:+ delta] Api.StreamEnds) = []
  /\ Api.late (Api.Stream [sentinel; delta] Api.StreamEnds)
     = [[JStr "late"]]
  /\ Api.streamChatCompletion (Api.Stream [sentinel; delta] Api.StreamEnds)
     = ([], Ok tt).
Proof. repeat split; vm_compute; reflexivity. Qed.

End ChunkBoundaries.

(** ** The streaming parser: what the lines of a response deliver *)

Section Lines.
Import Notions.
Context {RT : Runtime}.

Lemma process_lines_passed_over (line : string) (rest : list string) :
  passed_over line ->
  Api.process_lines (line :: rest) = Api.process_lines rest.
Proof.
  intros [Hother|[Hdone [e He]]]; cbn [Api.process_lines].
  - rewrite Hother. reflexivity.
  - destruct (JS.startsWith line "data: "); [|reflexivity].
    apply String.eqb_neq in Hdone. rewrite Hdone.
    unfold Api.payload_chunk. rewrite He.
    destruct (Api.process_lines rest); reflexivity.
Qed.

(** X2.  A line that is not a [data: ] line, and a [data: ] line whose
    payload fails to parse, change nothing: the lines before and after it
    deliver what they deliver without it. *)
Theorem corrupt_line_dropped (before after : list string) (line : string) :
  passed_over line ->
  Api.process_lines (before ++ line :: after)
  = Api.process_lines (before ++ after).
Proof.
  intros Hline. rewrite !process_lines_app.
  rewrite (process_lines_passed_over line after Hline). reflexivity.
Qed.

(** The sentinel line ends the reading: what follows it in the same
    batch of lines is not looked at, and the promise is resolved. *)
Lemma sentinel_ends_reading (before after : list string) :
  Api.process_lines (before ++ "data: [DONE]" :: after)
  = (fst (Api.process_lines before), true).
Proof.
  rewrite process_lines_app.
  destruct (Api.process_lines before) as [out resolved]. cbn.
  destruct resolved; [reflexivity|]. rewrite app_nil_r. reflexivity.
Qed.

Lemma process_lines_carries (line delta : string) (rest : list string) :
  carries line delta ->
  Api.process_lines (line :: rest)
  = ((if Chat.nonempty delta then [JStr delta] else [])
       ++ fst (Api.process_lines rest),
     snd (Api.process_lines rest)).
Proof.
  intros (Hdata & Hdone & parsed & Hparse & Hdelta). cbn [Api.process_lines].
  rewrite Hdata. apply String.eqb_neq in Hdone. rewrite Hdone.
  unfold Api.payload_chunk. rewrite Hparse, Hdelta. cbn [Json.truthy].
  unfold Chat.nonempty. destruct (Api.process_lines rest).
  destruct (String.eqb delta ""); reflexivity.
Qed.

Lemma concat_empty_app (l1 l2 : list string) :
  String.concat "" (l1 ++ l2) = String.concat "" l1 +:+ String.concat "" l2.
Proof.
  induction l1 as [|x l1 IH]; [reflexivity|].
  cbn [app]. rewrite !concat_empty_cons, IH, string_app_assoc. reflexivity.
Qed.

(** X4.  Lines that each carry a content delta deliver the non-empty
    deltas, one call each and in order, so that the deliveries put
    together are the deltas put together. *)
Theorem deltas_delivered_in_order (lines deltas : list string) :
  Forall2 carries lines deltas ->
  Api.process_lines lines = (map JStr (List.filter Chat.nonempty deltas), false)
  /\ String.concat "" (map json_to_string (fst (Api.process_lines lines)))
     = String.concat "" deltas.
Proof.
  induction 1 as [|line delta lines deltas Hline _ [IH IHconcat]].
  - split; reflexivity.
  - rewrite (process_lines_carries line delta lines Hline), IH.
    rewrite IH in IHconcat. cbn [fst snd List.filter] in *. split.
    + destruct (Chat.nonempty delta); reflexivity.
    + rewrite map_app, concat_empty_app, IHconcat, concat_empty_cons.
      unfold Chat.nonempty. destruct (String.eqb delta "") eqn:E; cbn [negb].
      * apply String.eqb_eq in E. subst delta. reflexivity.
      * cbn [map json_to_string]. rewrite concat_empty_cons.
        cbn [String.concat]. rewrite string_app_nil_r. reflexivity.
Qed.

End Lines.

Lemma corrupt_line_dropped_witness :
  Api.process_lines (RT := Reference.runtime)
    ([Examples.frame "Hel"] ++ "data: {broken" :: [Examples.frame "lo"])
  = Api.process_lines (RT := Reference.runtime)
      ([Examples.frame "Hel"] ++ [Examples.frame "lo"]).
Proof.
  apply (corrupt_line_dropped (RT := Reference.runtime)
           [Examples.frame "Hel"] [Examples.frame "lo"] "data: {broken").
  right. split; [discriminate|].
  exists Reference.syntax_error. vm_compute. reflexivity.
Defined.

Lemma deltas_delivered_in_order_witness :
  String.concat ""
    (map (json_to_string (RT := Reference.runtime))
       (fst (Api.process_lines (RT := Reference.runtime)
               [Examples.frame "Hel"; Examples.frame ""; Examples.frame "lo"])))
  = String.concat "" ["Hel"; ""; "lo"].
Proof.
  apply (deltas_delivered_in_order (RT := Reference.runtime)
           [Examples.frame "Hel"; Examples.frame ""; Examples.frame "lo"]
           ["Hel"; ""; "lo"]).
  repeat constructor; try discriminate;
    eexists; split; vm_compute; reflexivity.
Defined.

Lemma stream_without_backslash_n_witness :
  Api.streamChatCompletion (RT := Reference.runtime)
    (Api.Stream [Examples.frame "Hel" +:+ JS.newline;
                 "data: [DONE]" +:+ JS.newline]
       (Api.StreamErrors (new_Error "aborted")))
  = ([], Throw (new_Error "aborted")).
Proof.
  apply (stream_without_backslash_n (RT := Reference.runtime)
           [Examples.frame "Hel" +:+ JS.newline; "data: [DONE]" +:+ JS.newline]
           (Api.StreamErrors (new_Error "aborted"))).
  vm_compute. reflexivity.
Defined.

(** ** The tool registry *)

Section Registry.
Context {RT : Runtime}.

Lemma sanitize_allowed (expr : string) :
  (forall i c, String.get i expr = Some c -> Tools.allowed_char c = true) ->
  Tools.sanitize expr = expr.
Proof.
  induction expr as [|a expr IH]; intros Hall; [reflexivity|].
  cbn [Tools.sanitize]. rewrite (Hall O a eq_refl), IH; [reflexivity|].
  intros i c Hi. apply (Hall (S i) c). exact Hi.
Qed.

Lemma allowed_not_letter (c : ascii) :
  Tools.allowed_char c = true ->
  ~ (65 <= nat_of_ascii c <= 90)%nat /\ ~ (97 <= nat_of_ascii c <= 122)%nat.
Proof.
  destruct c as [[] [] [] [] [] [] [] []]; vm_compute;
    intros H; (discriminate H || (split; intros [H1 H2]; lia)).
Qed.

Lemma sanitize_length (expr : string) :
  (String.length (Tools.sanitize expr) <= String.length expr)%nat.
Proof.
  induction expr as [|a expr IH]; cbn [Tools.sanitize]; [lia|].
  destruct (Tools.allowed_char a); cbn [String.length]; lia.
Qed.

(** X5.  The filter of the calculator lets through exactly the characters
    of its class: nothing else is left in its result, a text made of
    allowed characters passes unchanged, and filtering twice is filtering
    once.  In particular no letter ever reaches the evaluator. *)
Theorem sanitize_filters (expr : string) :
  (forall i c, String.get i (Tools.sanitize expr) = Some c ->
               Tools.allowed_char c = true
               /\ ~ (65 <= nat_of_ascii c <= 90)%nat
               /\ ~ (97 <= nat_of_ascii c <= 122)%nat)
  /\ Tools.sanitize (Tools.sanitize expr) = Tools.sanitize expr
  /\ ((forall i c, String.get i expr = Some c -> Tools.allowed_char c = true)
      -> Tools.sanitize expr = expr).
Proof.
  split; [|split].
  - intros i c Hc. pose proof (allowed_char_sanitize expr i c Hc) as Hallowed.
    split; [exact Hallowed|]. apply allowed_not_letter, Hallowed.
  - apply sanitize_allowed. apply allowed_char_sanitize.
  - apply sanitize_allowed.
Qed.

End Registry.

Section RegistryOrder.
Import Notions.
Context {RT : Runtime}.

Lemma calculate_handler_total (args : json) :
  exists text,
    Tools.calculate_handler args = Ok text
    /\ (String.prefix "Result: " text = true
        \/ String.prefix "Error: " text = true).
Proof.
  unfold Tools.calculate_handler, try_catch.
  match goal with
  | |- context [match ?body with Ok _ => _ | Throw _ => _ end] =>
      destruct body as [text|e] eqn:E
  end.
  - exists text. split; [reflexivity|]. left.
    unfold mbind, result_bind in E.
    destruct (Json.prop args "expression") as [expr|]; [|discriminate].
    destruct (match expr with
              | Some (JStr e) => Tools.evaluateMathExpression e
              | Some _ => _
              | None => _
              end) as [v|]; [|discriminate].
    injection E as <-. apply prefix_of_app.
  - eexists. split; [reflexivity|]. right. apply prefix_of_app.
Qed.

(** X6.  The calculator never makes the dispatcher fail: whatever the
    argument text of a [calculate] call is, the response carries the call's
    id and a text that starts with [Result: ] or with [Error], the latter
    when the arguments are not JSON, the expression is missing, or the
    evaluation fails. *)
Theorem calculate_always_answers (tm : Tools.ToolManager)
    (toolCall : Tools.ToolCall) :
  Tools.handlers tm !! "calculate" = Some Tools.calculate_handler ->
  Tools.function_name toolCall = "calculate" ->
  exists r,
    Tools.executeTool tm toolCall = Ok r
    /\ Tools.tool_call_id r = Tools.id toolCall
    /\ (String.prefix "Result: " (Tools.content r) = true
        \/ String.prefix "Error: " (Tools.content r) = true
        \/ String.prefix "Error executing tool: " (Tools.content r) = true).
Proof.
  intros Hhandler Hname. unfold Tools.executeTool. rewrite Hname.
  unfold Tools.Handler in *. rewrite Hhandler.
  destruct (JSON_parse (Tools.function_arguments toolCall)) as [args|e].
  - cbn. destruct (calculate_handler_total args) as (text & -> & Htext). cbn.
    eexists. split; [reflexivity|]. cbn. split; [reflexivity|].
    destruct Htext; auto.
  - cbn. eexists. split; [reflexivity|]. cbn. split; [reflexivity|].
    right. right. apply prefix_of_app.
Qed.

(** The keys of the [tools] map, in its order. *)
Lemma map_set_keys (k : string) (v : Tools.ToolFunction)
    (m : list (string * Tools.ToolFunction)) :
  map fst (Tools.map_set k v m)
  = if existsb (String.eqb k) (map fst m) then map fst m
    else map fst m ++ [k].
Proof.
  induction m as [|[k' v'] m IH]; [reflexivity|].
  cbn [Tools.map_set map fst existsb].
  destruct (String.eqb k k') eqn:E.
  - apply String.eqb_eq in E. subst k'. reflexivity.
  - cbn [map fst orb]. rewrite IH.
    destruct (existsb (String.eqb k) (map fst m)); reflexivity.
Qed.

Lemma existsb_eqb_In (k : string) (keys : list string) :
  existsb (String.eqb k) keys = true <-> In k keys.
Proof.
  rewrite existsb_exists. split.
  - intros (x & Hx & E). apply String.eqb_eq in E. congruence.
  - intros H. exists k. split; [exact H|apply String.eqb_refl].
Qed.

Lemma map_set_named (k : string) (v : Tools.ToolFunction)
    (m : list (string * Tools.ToolFunction)) :
  Tools.name v = k ->
  List.Forall (fun e => Tools.name (snd e) = fst e) m ->
  List.Forall (fun e => Tools.name (snd e) = fst e) (Tools.map_set k v m).
Proof.
  intros Hk. induction 1 as [|[k' v'] m Hhead Htail IH]; cbn [Tools.map_set].
  - constructor; [exact Hk|constructor].
  - destruct (String.eqb k k'); constructor; cbn; assumption.
Qed.

Lemma registered_consistent (tm : Tools.ToolManager) :
  Tools.registered tm -> consistent tm.
Proof.
  induction 1 as [|tm tool handler _ (Hnamed & Hnodup & Hdom)].
  - split; [constructor|]. split; [constructor|]. intros n. cbn.
    rewrite lookup_empty. split; [intros []|intros [? ?]; discriminate].
  - unfold consistent, Tools.registerTool.
    cbn [fst Tools.tools Tools.handlers].
    split; [apply map_set_named; [reflexivity|assumption]|].
    rewrite map_set_keys.
    destruct (existsb (String.eqb (Tools.name tool))
                (map fst (Tools.tools tm))) eqn:E.
    + apply existsb_eqb_In in E. split; [assumption|]. intros n.
      unfold Tools.Handler in *.
      rewrite lookup_insert_is_Some. split.
      * intros Hn. destruct (String.string_dec (Tools.name tool) n);
          [left; assumption|right; split; [assumption|apply Hdom, Hn]].
      * intros [<-|[_ Hn]]; [exact E|apply Hdom, Hn].
    + assert (Hfresh : ~ In (Tools.name tool) (map fst (Tools.tools tm))).
      { intros Hin. apply existsb_eqb_In in Hin. congruence. }
      split.
      * apply NoDup_app_remove_l with (l := []). cbn.
        rewrite <- (app_nil_l (map fst (Tools.tools tm) ++ _)).
        apply List.NoDup_app; [constructor| |intros ? []].
        apply List.NoDup_app; [assumption|repeat constructor; intros []|].
        intros x Hx [<-|[]]. exact (Hfresh Hx).
      * intros n. unfold Tools.Handler in *.
        rewrite in_app_iff, lookup_insert_is_Some, Hdom. cbn.
        destruct (String.string_dec (Tools.name tool) n); tauto.
Qed.

Lemma getTools_names (tm : Tools.ToolManager) :
  List.Forall (fun e => Tools.name (snd e) = fst e) (Tools.tools tm) ->
  map (fun t => Tools.name (Tools.function t)) (Tools.getTools tm)
  = map fst (Tools.tools tm).
Proof.
  unfold Tools.getTools. induction 1 as [|e m He _ IH]; [reflexivity|].
  cbn [map Tools.function]. rewrite He. f_equal. exact IH.
Qed.

(** X7.  Every manager built by registrations advertises each tool once,
    and advertises exactly the tools it can dispatch: a name is among the
    declarations of [getTools] if and only if a handler is registered for
    it. *)
Theorem advertised_tools_have_handlers (tm : Tools.ToolManager) :
  Tools.registered tm ->
  List.NoDup (map (fun t => Tools.name (Tools.function t)) (Tools.getTools tm))
  /\ (forall n,
        In n (map (fun t => Tools.name (Tools.function t)) (Tools.getTools tm))
        <-> is_Some (Tools.handlers tm !! n))
  /\ length (Tools.formatToolsForAPI (Tools.getTools tm))
     = length (Tools.tools tm).
Proof.
  intros (Hnamed & Hnodup & Hdom)%registered_consistent.
  rewrite (getTools_names tm Hnamed). split; [exact Hnodup|].
  split; [exact Hdom|].
  unfold Tools.formatToolsForAPI, Tools.getTools.
  rewrite !length_map. reflexivity.
Qed.

(** X8.  Registering a tool under a name that is already declared keeps
    the declarations in their order and number, the new declaration
    taking the place of the old one; a new name is added at the end. *)
Theorem registration_keeps_order (tm : Tools.ToolManager)
    (tool : Tools.ToolFunction) (handler : Tools.Handler) :
  Tools.registered tm ->
  let names m :=
    map (fun t => Tools.name (Tools.function t)) (Tools.getTools m) in
  let tm' := fst (Tools.registerTool tool handler tm) in
  (In (Tools.name tool) (names tm) -> names tm' = names tm)
  /\ (~ In (Tools.name tool) (names tm) ->
      names tm' = names tm ++ [Tools.name tool])
  /\ In {| Tools.type := "function"; Tools.function := tool |}
        (Tools.getTools tm').
Proof.
  intros Hreg names tm'.
  pose proof (registered_consistent tm Hreg) as (Hnamed & _ & _).
  pose proof (registered_consistent tm'
                (Tools.registered_tool tm tool handler Hreg))
    as (Hnamed' & _ & _).
  unfold names. rewrite (getTools_names tm Hnamed), (getTools_names tm' Hnamed').
  unfold tm', Tools.registerTool. cbn [fst Tools.tools].
  rewrite map_set_keys. split; [|split].
  - intros Hin. apply existsb_eqb_In in Hin. rewrite Hin. reflexivity.
  - intros Hout.
    destruct (existsb _ _) eqn:E; [|reflexivity].
    apply existsb_eqb_In in E. contradiction.
  - unfold Tools.getTools. cbn [Tools.tools].
    apply (in_map (fun entry => {| Tools.type := "function";
                                   Tools.function := snd entry |})
             _ (Tools.name tool, tool)).
    clear. induction (Tools.tools tm) as [|[k v] m IH]; cbn [Tools.map_set].
    + left. reflexivity.
    + destruct (String.eqb (Tools.name tool) k); [left; reflexivity|].
      right. exact IH.
Qed.

(** X9.  The last registration under a name decides what a call of that
    name does, whatever was registered before; calls of other names are
    not affected by it. *)
Theorem last_registration_wins (tm1 tm2 : Tools.ToolManager)
    (tool : Tools.ToolFunction) (handler : Tools.Handler)
    (toolCall : Tools.ToolCall) :
  (Tools.function_name toolCall = Tools.name tool ->
   Tools.executeTool (fst (Tools.registerTool tool handler tm1)) toolCall
   = Tools.executeTool (fst (Tools.registerTool tool handler tm2)) toolCall)
  /\ (Tools.function_name toolCall <> Tools.name tool ->
      Tools.executeTool (fst (Tools.registerTool tool handler tm1)) toolCall
      = Tools.executeTool tm1 toolCall).
Proof.
  unfold Tools.executeTool, Tools.registerTool. cbn [fst Tools.handlers].
  unfold Tools.Handler. split.
  - intros ->. rewrite !lookup_insert_eq. reflexivity.
  - intros Hne. rewrite lookup_insert_ne by congruence. reflexivity.
Qed.

End RegistryOrder.

(** ** The message store and the session store *)

Section MessageStore.
Import Api Conversation.

Lemma last_with_role_snoc (r : Role) (ms : list ChatMessage) (m : ChatMessage) :
  last_with_role r (ms ++ [m])
  = match last_with_role r [m] with
    | Some c => Some c
    | None => last_with_role r ms
    end.
Proof.
  induction ms as [|x ms IH]; cbn [app last_with_role] in *.
  - destruct (role m), r; reflexivity.
  - rewrite IH. destruct (role m), r; reflexivity.
Qed.

(** X10.  The last assistant (user) message is the content of the message
    just added when that one is an assistant (user) message, and is not
    changed by adding a message of another role; after [clear] there is
    none. *)
Theorem last_message_after_add (m : ChatMessage) (cm : ConversationManager) :
  getLastAssistantMessage (addMessage m cm)
  = match role m with
    | assistant => Some (content m)
    | _ => getLastAssistantMessage cm
    end
  /\ getLastUserMessage (addMessage m cm)
     = match role m with
       | user => Some (content m)
       | _ => getLastUserMessage cm
       end
  /\ getLastAssistantMessage (clear cm) = None
  /\ getLastUserMessage (clear cm) = None.
Proof.
  unfold getLastAssistantMessage, getLastUserMessage, addMessage, clear.
  cbn [messages]. rewrite !last_with_role_snoc. cbn [last_with_role].
  destruct (role m); repeat split.
Qed.

End MessageStore.

Section SessionFiles.
Import Api Conversation.
Context {RT : Runtime}.

Lemma string_app_inv_tail (a b c : string) : a +:+ c = b +:+ c -> a = b.
Proof.
  revert b. induction a as [|x a IH]; intros b H.
  - destruct b as [|y b]; [reflexivity|].
    apply (f_equal String.length) in H.
    rewrite !string_app_length in H. cbn [String.length] in H. lia.
  - destruct b as [|y b].
    + apply (f_equal String.length) in H.
      rewrite !string_app_length in H. cbn [String.length] in H. lia.
    + rewrite !app_cons in H. injection H as -> H. f_equal. apply IH, H.
Qed.

Lemma session_file_inj (a b : string) :
  session_file a = session_file b -> a = b.
Proof. apply string_app_inv_tail. Qed.

(** X11.  Saving a session writes its own file and no other: every other
    session loads after the save exactly as it did before, and a second
    save of the same session replaces the first. *)
Theorem save_touches_own_file (cfg : Config.ConfigSchema) (now now' : string)
    (cm cm' loader : ConversationManager) (fs : FileSystem) (other : string) :
  (other <> sessionId cm ->
   loadSession other loader (saveSession cfg now cm fs)
   = loadSession other loader fs)
  /\ (sessionId cm' = sessionId cm ->
      saveSession cfg now' cm' (saveSession cfg now cm fs)
      = saveSession cfg now' cm' fs).
Proof.
  unfold saveSession, loadSession, readFile.
  destruct (Config.history_enabled cfg); cbn [negb]; [|split; reflexivity].
  split.
  - intros Hother. rewrite lookup_insert_ne; [reflexivity|].
    intros H. apply session_file_inj in H. congruence.
  - intros ->. apply insert_insert_eq.
Qed.

(** X12.  [loadSession] fails in one way only: with an [Error] whose
    message starts with [Failed to load session: ] and goes on with the
    cause.  It fails so when the file is missing and when its text is not
    JSON; and what it loads does not depend on the conversation that was
    in memory. *)
Theorem load_failures_wrapped (sessionId : string)
    (cm cm' : ConversationManager) (fs : FileSystem) :
  (forall e, loadSession sessionId cm fs = Throw e ->
             exn_name e = "Error"
             /\ String.prefix "Failed to load session: " (exn_message e) = true)
  /\ (fs !! session_file sessionId = None ->
      exists e, loadSession sessionId cm fs = Throw e)
  /\ (forall data cause,
        fs !! session_file sessionId = Some data ->
        JSON_parse data = Throw cause ->
        loadSession sessionId cm fs
        = Throw (new_Error ("Failed to load session: "
                            +:+ exn_to_string cause)))
  /\ loadSession sessionId cm fs = loadSession sessionId cm' fs.
Proof.
  unfold loadSession, try_catch. split; [|split; [|split]].
  - intros e.
    match goal with
    | |- context [match ?body with Ok _ => _ | Throw _ => _ end] =>
        destruct body
    end; [discriminate|].
    intros [= <-]. split; [reflexivity|]. apply prefix_of_app.
  - intros Hmissing. unfold readFile. rewrite Hmissing. cbn. eauto.
  - intros data cause Hfile Hparse. unfold readFile. rewrite Hfile. cbn.
    rewrite Hparse. reflexivity.
  - reflexivity.
Qed.

(** X13.  Deleting a session removes its file and no other: deleting an
    id that has no file fails, after a deletion the id no longer loads
    while every other id loads as before, and deleting what was just
    saved under a new id gives the directory back. *)
Theorem delete_removes_own_file (sessionId other : string)
    (cm : ConversationManager) (fs : FileSystem) :
  (fs !! session_file sessionId = None ->
   exists e, deleteSession sessionId fs = Throw e)
  /\ (forall fs',
        deleteSession sessionId fs = Ok fs' ->
        (exists e, loadSession sessionId cm fs' = Throw e)
        /\ (other <> sessionId ->
            loadSession other cm fs' = loadSession other cm fs))
  /\ (forall cfg now saved,
        Conversation.sessionId saved = sessionId ->
        Config.history_enabled cfg = true ->
        fs !! session_file sessionId = None ->
        deleteSession sessionId (saveSession cfg now saved fs) = Ok fs).
Proof.
  unfold deleteSession. split; [|split].
  - intros ->. eauto.
  - intros fs'. destruct (fs !! session_file sessionId); [|discriminate].
    intros [= <-]. split.
    + unfold loadSession, readFile. rewrite lookup_delete_eq. cbn. eauto.
    + intros Hother. unfold loadSession, readFile.
      rewrite lookup_delete_ne; [reflexivity|].
      intros H. apply session_file_inj in H. congruence.
  - intros cfg now saved Hid Hcfg Hnew. unfold saveSession.
    rewrite Hcfg, Hid. cbn [negb]. rewrite lookup_insert_eq.
    rewrite delete_insert_id by exact Hnew. reflexivity.
Qed.

End SessionFiles.

Section Listing.
Import Api Conversation Notions.
Context {RT : Runtime}.

(** When the loop of [listSessions] completes, it has made one summary per
    [.json] file, in the order of the files. *)
Lemma read_summaries_ok (fs : FileSystem) (files : list string) :
  forall l,
    read_summaries fs files = Ok l ->
    Forall2 (gives_summary fs)
      (List.filter (fun file => JS.endsWith file ".json") files) l.
Proof.
  induction files as [|file files IH]; intros l; cbn [read_summaries List.filter].
  - intros [= <-]. constructor.
  - destruct (JS.endsWith file ".json") eqn:Hext; [|apply IH].
    unfold readFile.
    destruct (fs !! file) as [data|] eqn:Hfile; [|discriminate]. cbn.
    destruct (JSON_parse data) as [parsed|] eqn:Hparse; [|discriminate]. cbn.
    destruct (summary_of_json parsed) as [summary|] eqn:Hsd; [|discriminate].
    cbn.
    destruct (read_summaries fs files) as [rest|]; [|discriminate]. cbn.
    intros [= <-]. constructor; [|apply IH; reflexivity].
    split; [exact Hext|eauto].
Qed.

(** It completes when every [.json] file gives a summary. *)
Lemma read_summaries_all (fs : FileSystem) (files : list string) :
  (forall file, In file files -> JS.endsWith file ".json" = true ->
                exists summary, gives_summary fs file summary) ->
  exists l, read_summaries fs files = Ok l.
Proof.
  induction files as [|file files IH]; intros Hall; cbn [read_summaries].
  - eauto.
  - destruct IH as [l Hl]; [intros f Hf; apply Hall; right; exact Hf|].
    destruct (JS.endsWith file ".json") eqn:Hext; [|eauto].
    destruct (Hall file (or_introl eq_refl) Hext)
      as (sd & _ & data & parsed & Hfile & Hparse & Hsd).
    unfold readFile. rewrite Hfile. cbn. rewrite Hparse. cbn.
    rewrite Hsd. cbn. rewrite Hl. cbn. eauto.
Qed.

Lemma insert_by_date_perm (x : SessionSummary) (l : list SessionSummary) :
  Permutation (insert_by_date x l) (x :: l).
Proof.
  induction l as [|y l IH]; cbn [insert_by_date]; [reflexivity|].
  destruct (more_recent y x); [|reflexivity].
  rewrite IH. apply perm_swap.
Qed.

Lemma sort_by_date_perm (l : list SessionSummary) :
  Permutation (sort_by_date l) l.
Proof.
  induction l as [|x l IH]; cbn [sort_by_date]; [reflexivity|].
  rewrite insert_by_date_perm, IH. reflexivity.
Qed.

Lemma readdir_In (fs : FileSystem) (file : string) :
  In file (readdir fs) <-> is_Some (fs !! file).
Proof.
  unfold readdir. rewrite <- list_elem_of_In, list_elem_of_fmap. split.
  - intros ([f data] & -> & Hin). apply elem_of_map_to_list in Hin. eauto.
  - intros [data Hdata]. exists (file, data). split; [reflexivity|].
    apply elem_of_map_to_list, Hdata.
Qed.

Lemma gives_summary_unique (fs : FileSystem) (file : string)
    (s s' : SessionSummary) :
  gives_summary fs file s -> gives_summary fs file s' -> s = s'.
Proof.
  intros (_ & data & parsed & H1 & H2 & H3) (_ & data' & parsed' & H1' & H2' & H3').
  congruence.
Qed.

(** What [listSessions] returns on a directory all of whose [.json]
    files give a summary. *)
Lemma listSessions_listable (fs : FileSystem) :
  listable fs ->
  exists l,
    read_summaries fs (readdir fs) = Ok l
    /\ listSessions fs = sort_by_date l
    /\ Forall2 (gives_summary fs)
         (List.filter (fun file => JS.endsWith file ".json") (readdir fs)) l.
Proof.
  intros Hgood.
  destruct (read_summaries_all fs (readdir fs)) as [l Hl].
  { intros file [data Hdata]%readdir_In Hext. eauto. }
  exists l. split; [exact Hl|]. unfold listSessions. rewrite Hl.
  split; [reflexivity|]. apply read_summaries_ok, Hl.
Qed.

(** X14.  On a history directory all of whose [.json] files give a
    summary (an id, a date and a number of messages can be read from
    each), [listSessions] returns exactly these summaries, one for each
    file. *)
Theorem listSessions_lists_the_files (fs : FileSystem) :
  listable fs ->
  (forall s, In s (listSessions fs) <-> exists file, gives_summary fs file s)
  /\ length (listSessions fs)
     = length (List.filter (fun file => JS.endsWith file ".json")
                 (readdir fs)).
Proof.
  intros Hgood.
  destruct (listSessions_listable fs Hgood) as (l & _ & -> & Hall). split.
  - intros s. split.
    + intros Hs. apply (Permutation_in _ (sort_by_date_perm l)) in Hs.
      induction Hall as [|file s' files l' Hhead _ IH]; [destruct Hs|].
      destruct Hs as [<-|Hs]; [eauto|exact (IH Hs)].
    + intros [file Hfile].
      apply (Permutation_in _ (Permutation_sym (sort_by_date_perm l))).
      assert (Hin : In file (List.filter (fun f => JS.endsWith f ".json")
                               (readdir fs))).
      { apply filter_In. split; [|apply Hfile].
        destruct Hfile as (_ & data & _ & Hdata & _). apply readdir_In. eauto. }
      induction Hall as [|f s' files l' Hhead _ IH]; [destruct Hin|].
      destruct Hin as [->|Hin]; [|right; exact (IH Hin)].
      left. exact (gives_summary_unique fs file s' s Hhead Hfile).
  - rewrite (Permutation_length (sort_by_date_perm l)).
    symmetry. eapply Forall2_length, Hall.
Qed.

End Listing.

Lemma listSessions_lists_the_files_witness :
  exists file,
    Notions.gives_summary (RT := Reference.runtime) ExampleStore.odd_files
      file
      {| Conversation.summary_id := "odd";
         Conversation.summary_date := "2024-05-01T10:00:00.000Z";
         Conversation.messageCount := 1 |}.
Proof.
  assert (Hlistable : Notions.listable (RT := Reference.runtime)
                        ExampleStore.odd_files).
  { intros file data Hfile Hext.
    assert (Hin : In file (Conversation.readdir ExampleStore.odd_files)).
    { apply (proj2 (readdir_In ExampleStore.odd_files file)).
      exists data. exact Hfile. }
    assert (Hdir : Conversation.readdir ExampleStore.odd_files
                   = ["odd.json"; "second.json"])
      by (vm_compute; reflexivity).
    rewrite Hdir in Hin.
    destruct Hin as [<-|[<-|[]]].
    - let v := eval vm_compute in
                 (Reference.parse_json ExampleStore.odd_text) in
      match v with
      | Ok ?parsed =>
          let sm := eval vm_compute in
                      (Conversation.summary_of_json parsed) in
          match sm with
          | Ok ?summary =>
              exists summary; split; [vm_compute; reflexivity|];
              exists ExampleStore.odd_text, parsed;
              repeat split; vm_compute; reflexivity
          end
      end.
    - let v := eval vm_compute in
                 (Reference.parse_json ExampleStore.second_text) in
      match v with
      | Ok ?parsed =>
          let sm := eval vm_compute in
                      (Conversation.summary_of_json parsed) in
          match sm with
          | Ok ?summary =>
              exists summary; split; [vm_compute; reflexivity|];
              exists ExampleStore.second_text, parsed;
              repeat split; vm_compute; reflexivity
          end
      end. }
  destruct (listSessions_lists_the_files (RT := Reference.runtime)
              ExampleStore.odd_files Hlistable) as [Hlisted _].
  apply (proj1 (Hlisted _)).
  vm_compute. auto.
Defined.

(** ** The search and the transcript *)

Section Search.
Import Api Conversation Chat Notions.
Context {RT : Runtime} (w : World).

(** [/search <query>] with a query runs the search for it. *)
Lemma search_command_runs (query : string) (s : State) :
  query <> "" ->
  handleCommand w ("/search " +:+ query) s = searchConversations w query s.
Proof.
  intros Hquery.
  assert (Hparts : JS.split (JS.drop 1 ("/search " +:+ query)) " "
                   = "search" :: JS.split query " ").
  { unfold JS.split. cbv [String.append JS.drop]. fold String.append. cbn.
    rewrite prefix_empty. reflexivity. }
  unfold handleCommand. rewrite Hparts. cbn [hd tl].
  rewrite join_split_char.
  assert (Hne : nonempty query = true).
  { unfold nonempty. apply negb_true_iff, String.eqb_neq, Hquery. }
  rewrite Hne. reflexivity.
Qed.

(** A file that holds a session document gives a summary. *)
Lemma holds_session_gives_summary (fs : FileSystem) (file : string)
    (sd : SessionData) :
  holds_session fs file sd -> exists summary, gives_summary fs file summary.
Proof.
  intros (Hext & data & parsed & Hfile & Hparse & Hsd).
  destruct parsed as [| | | | |fields]; try discriminate.
  unfold session_of_json in Hsd.
  destruct (Json.field "id" fields) as [[| | |i| |]|] eqn:Hid;
    try discriminate.
  destruct (Json.field "date" fields) as [[| | |d| |]|] eqn:Hdate;
    try discriminate.
  destruct (Json.field "messages" fields) as [[| | | |items|]|] eqn:Hitems;
    try discriminate.
  eexists. split; [exact Hext|]. exists data, (JObj fields).
  split; [exact Hfile|]. split; [exact Hparse|].
  unfold summary_of_json. rewrite Hid, Hdate, Hitems. reflexivity.
Qed.

(** From a session store at least one session is listed. *)
Lemma listSessions_session_store (fs : FileSystem) :
  session_store fs -> listSessions fs <> [].
Proof.
  intros [(file & data & Hfile & Hext) Htyped].
  destruct (listSessions_listable fs) as (l & _ & -> & Hall).
  { intros f d Hf He. destruct (Htyped f d Hf He) as [sd Hsd].
    exact (holds_session_gives_summary fs f sd Hsd). }
  assert (Hin : In file (List.filter (fun f => JS.endsWith f ".json")
                           (readdir fs))).
  { apply filter_In. split; [|exact Hext]. apply readdir_In. eauto. }
  intros Hnil.
  apply Forall2_length in Hall.
  rewrite <- (Permutation_length (sort_by_date_perm l)), Hnil in Hall.
  destruct (List.filter _ (readdir fs)); [destruct Hin|discriminate].
Qed.

(** The entry picked in a list prompt is one of the entries on offer. *)
Lemma picked_In (values : list string) :
  values <> [] -> In (picked w values) values.
Proof.
  intros Hsome. unfold picked. apply nth_In.
  apply Nat.mod_upper_bound. destruct values; [congruence|discriminate].
Qed.

(** The search loop never throws, touches nothing but the live
    conversation, and collects one result for each listed session that
    loads and has a match, in the order of the listing. *)
Lemma search_sessions_found (query : string) (loader : ConversationManager)
    (sessions : list SessionSummary) :
  forall s : State,
  exists results cm d,
    search_sessions query sessions s = (Ok results, set_conversation cm s, d)
    /\ map result_sessionId results
       = map summary_id
           (List.filter (matches_query query loader (fs s)) sessions).
Proof.
  induction sessions as [|session rest IH]; intros s.
  - exists [], (conversation s), []. cbn. rewrite set_conversation_same.
    split; reflexivity.
  - cbn [search_sessions List.filter]. unfold matches_query at 1.
    change (loadSession (summary_id session) loader (fs s))
      with (loadSession (summary_id session) (conversation s) (fs s)).
    unfold mbind, M_bind, catch, conversation_loadSession, gets.
    destruct (loadSession (summary_id session) (conversation s) (fs s))
      as [cm|e].
    + destruct (IH (set_conversation cm s)) as (results & cm' & d & Hrun & Hids).
      unfold getMessages. cbn [conversation set_conversation fs] in *.
      destruct (session_matches query (messages cm)) as [|m ms];
        unfold mret, M_ret; cbn; rewrite Hrun; cbn.
      * eexists results, cm', _. split; [reflexivity|exact Hids].
      * eexists _, cm', _. split; [reflexivity|]. cbn [map result_sessionId].
        rewrite Hids. reflexivity.
    + destruct (IH s) as (results & cm' & d & Hrun & Hids).
      unfold mret, M_ret. rewrite Hrun. cbn.
      eexists results, cm', _. split; [reflexivity|exact Hids].
Qed.

(** What the search leaves behind when at least one session is listed. *)
Lemma searchConversations_outcome (query : string) (s : State) :
  listSessions (fs s) <> [] ->
  let found :=
    List.filter (matches_query query (conversation s) (fs s))
      (listSessions (fs s)) in
  exists s' d,
    searchConversations w query s = (Ok tt, s', d)
    /\ fs s' = fs s /\ config s' = config s /\ isRunning s' = isRunning s
    /\ (found = [] \/ confirm w = false -> messages (conversation s') = [])
    /\ (found <> [] -> confirm w = true ->
        exists session,
          In session found
          /\ summary_id session = picked w (map summary_id found)
          /\ loadSession (summary_id session) (conversation s) (fs s)
             = Ok (conversation s')).
Proof.
  intros Hsome found.
  assert (Hmatching : forall session,
             In session found ->
             matches_query query (conversation s) (fs s) session = true)
    by (intros session Hin; apply filter_In in Hin; apply Hin).
  unfold searchConversations.
  unfold mbind at 1. unfold M_bind, conversation_listSessions, gets.
  destruct (listSessions (fs s)) as [|session sessions] eqn:Hlisted;
    [congruence|]. clear Hsome.
  destruct (search_sessions_found query (conversation s)
              (session :: sessions) s) as (results & cm & d0 & Hloop & Hids).
  fold found in Hids. clearbody found.
  unfold mbind, M_bind, emit, conversation_clear, modify.
  rewrite Hloop. cbn [set_conversation conversation clear].
  destruct results as [|result results].
  - assert (Hnone : found = []) by (destruct found; [reflexivity|discriminate]).
    do 2 eexists. split; [reflexivity|]. cbn.
    repeat split; try reflexivity. intros Hfound. congruence.
  - assert (Hfound : found <> []) by (intros E; rewrite E in Hids; discriminate).
    unfold emit_all. destruct (confirm w) eqn:Hconfirm.
    + unfold conversation_loadSession, gets.
      cbn [conversation set_conversation fs].
      rewrite Hids.
      assert (Hpicked : In (picked w (map summary_id found))
                          (map summary_id found)).
      { apply picked_In. destruct found; [congruence|discriminate]. }
      apply in_map_iff in Hpicked as (chosen & Hid & Hchosen).
      pose proof (Hmatching chosen Hchosen) as Hmatch.
      unfold matches_query in Hmatch. rewrite Hid in Hmatch.
      change (loadSession (picked w (map summary_id found)) (clear cm) (fs s))
        with (loadSession (picked w (map summary_id found))
                (conversation s) (fs s)).
      destruct (loadSession (picked w (map summary_id found))
                  (conversation s) (fs s)) as [loaded|e] eqn:Hload;
        [|discriminate].
      unfold mbind, M_bind, emit, gets, emit_all.
      do 2 eexists. split; [reflexivity|].
      cbn [fs config isRunning conversation set_conversation].
      repeat split; try reflexivity.
      * intros [E|E]; [congruence|discriminate].
      * intros _ _. exists chosen. rewrite Hid. auto.
    + do 2 eexists. split; [reflexivity|]. cbn.
      repeat split; try reflexivity. intros _ Habsurd. discriminate.
Qed.

(** C10, amended.  Over a history directory with at least one [.json]
    file, each of which holds a session document, the search completes
    and discards the transcript that was in memory.  Afterwards the
    transcript is empty when no listed session has a match and when the
    user declines the offer to load one; when there are matches and the
    user accepts, it is the transcript of the session picked among the
    listed sessions that load and have a match.  The history directory,
    the configuration and the running flag are not touched. *)
Theorem search_replaces_transcript (query : string) (s : State) :
  query <> "" ->
  session_store (fs s) ->
  let found :=
    List.filter (matches_query query (conversation s) (fs s))
      (listSessions (fs s)) in
  exists s' d,
    handleCommand w ("/search " +:+ query) s = (Ok tt, s', d)
    /\ fs s' = fs s /\ config s' = config s /\ isRunning s' = isRunning s
    /\ (found = [] \/ confirm w = false -> messages (conversation s') = [])
    /\ (found <> [] -> confirm w = true ->
        exists session,
          In session found
          /\ summary_id session = picked w (map summary_id found)
          /\ loadSession (summary_id session) (conversation s) (fs s)
             = Ok (conversation s')).
Proof.
  intros Hquery Hstore. rewrite (search_command_runs query s Hquery).
  apply searchConversations_outcome, listSessions_session_store, Hstore.
Qed.

End Search.

(** The two files of the example store hold session documents. *)
Lemma two_files_session_store :
  Notions.session_store (RT := Reference.runtime) ExampleStore.two_files.
Proof.
  split.
  - exists "first.json", ExampleStore.first_text.
    split; vm_compute; reflexivity.
  - intros file data Hfile Hext.
    assert (Hin : In file (Conversation.readdir ExampleStore.two_files)).
    { apply (proj2 (readdir_In ExampleStore.two_files file)).
      exists data. exact Hfile. }
    assert (Hdir : Conversation.readdir ExampleStore.two_files
                   = ["second.json"; "first.json"])
      by (vm_compute; reflexivity).
    rewrite Hdir in Hin.
    destruct Hin as [<-|[<-|[]]]; [|
      let v := eval vm_compute in
                 (Reference.parse_json ExampleStore.first_text) in
      match v with
      | Ok ?parsed =>
          let sd := eval vm_compute in
                      (Conversation.session_of_json parsed) in
          match sd with
          | Ok ?doc =>
              exists doc; split; [vm_compute; reflexivity|];
              exists ExampleStore.first_text, parsed;
              repeat split; vm_compute; reflexivity
          end
      end].
    let v := eval vm_compute in
               (Reference.parse_json ExampleStore.second_text) in
    match v with
    | Ok ?parsed =>
        let sd := eval vm_compute in
                    (Conversation.session_of_json parsed) in
        match sd with
        | Ok ?doc =>
            exists doc; split; [vm_compute; reflexivity|];
            exists ExampleStore.second_text, parsed;
            repeat split; vm_compute; reflexivity
        end
    end.
Qed.

Lemma search_replaces_transcript_witness :
  exists s' d,
    Chat.handleCommand (RT := Reference.runtime)
      ExampleChat.quiet_world "/search x"
      (ExampleChat.chatting ExampleStore.two_files)
    = (Ok tt, s', d)
    /\ Conversation.messages (Chat.conversation s') = [].
Proof.
  destruct (search_replaces_transcript (RT := Reference.runtime)
              ExampleChat.quiet_world "x"
              (ExampleChat.chatting ExampleStore.two_files))
    as (s' & d & Hrun & _ & _ & _ & Hdeclined & _).
  - discriminate.
  - exact two_files_session_store.
  - exists s', d. split; [exact Hrun|]. apply Hdeclined. right. reflexivity.
Defined.

(** C10 (counterexample).  A search over a store of two sessions, both of
    which match, after which the user accepts the offer and picks the
    first entry: the command completes and the transcript in memory is
    that of the picked session, not empty. *)
Lemma search_then_load_leaves_transcript :
  ExampleStore.two_files <> ∅
  /\ exists s' d,
       Chat.handleCommand (RT := Reference.runtime)
         (ExampleChat.accepting_world 0) "/search x"
         (ExampleChat.chatting ExampleStore.two_files)
       = (Ok tt, s', d)
       /\ Conversation.messages (Chat.conversation s')
          = [Examples.user_message "Spell fox."]
       /\ Conversation.messages (Chat.conversation s') <> [].
Proof.
  split.
  - intros H. apply (f_equal (fun m : gmap string string => m !! "first.json")) in H.
    vm_compute in H. discriminate.
  - do 2 eexists. split; [vm_compute; reflexivity|]. split; [reflexivity|].
    discriminate.
Qed.



Section ListingOrder.
Import Api Conversation Notions.
Context {RT : Runtime}.

Lemma more_recent_dated (x y : SessionSummary) :
  dated x -> dated y ->
  if more_recent y x then at_least_as_recent y x else at_least_as_recent x y.
Proof.
  intros [qx Hx] [qy Hy]. unfold more_recent, at_least_as_recent.
  rewrite Hx, Hy. cbn [num_ltb num_leb].
  destruct (Qle_bool qy qx) eqn:E; cbn [negb]; [reflexivity|].
  apply Qle_bool_iff. apply Qlt_le_weak, Qnot_le_lt.
  intros H. apply Qle_bool_iff in H. congruence.
Qed.

Lemma at_least_as_recent_trans (x y z : SessionSummary) :
  dated x -> dated y -> dated z ->
  at_least_as_recent x y -> at_least_as_recent y z -> at_least_as_recent x z.
Proof.
  intros [qx Hx] [qy Hy] [qz Hz]. unfold at_least_as_recent.
  rewrite Hx, Hy, Hz. cbn [num_leb]. rewrite !Qle_bool_iff.
  intros H1 H2. eapply Qle_trans; eassumption.
Qed.

Lemma insert_by_date_sorted (x : SessionSummary) (l : list SessionSummary) :
  dated x -> List.Forall dated l ->
  StronglySorted at_least_as_recent l ->
  StronglySorted at_least_as_recent (insert_by_date x l).
Proof.
  intros Hx Hl Hsorted.
  induction Hsorted as [|y l Hsorted IH Hy]; cbn [insert_by_date].
  - repeat constructor.
  - apply List.Forall_cons_iff in Hl as [Hdy Hdl].
    pose proof (more_recent_dated x y Hx Hdy) as Hcmp.
    destruct (more_recent y x).
    + constructor; [apply IH, Hdl|].
      apply (Permutation_Forall
               (Permutation_sym (insert_by_date_perm x l))).
      constructor; assumption.
    + constructor; [constructor; assumption|].
      constructor; [exact Hcmp|].
      rewrite List.Forall_forall in *. intros z Hz.
      apply (at_least_as_recent_trans x y z); auto.
Qed.

Lemma sort_by_date_sorted (l : list SessionSummary) :
  List.Forall dated l -> StronglySorted at_least_as_recent (sort_by_date l).
Proof.
  induction 1 as [|x l Hx Hl IH]; cbn [sort_by_date]; [constructor|].
  apply insert_by_date_sorted; [exact Hx| |exact IH].
  apply (Permutation_Forall (Permutation_sym (sort_by_date_perm l))), Hl.
Qed.

(** X15.  When the dates of the listed sessions are valid dates, the
    sessions are listed most recent first: each one is at least as recent
    as every one listed after it. *)
Theorem listSessions_most_recent_first (fs : FileSystem) :
  (forall s, In s (listSessions fs) -> dated s) ->
  StronglySorted at_least_as_recent (listSessions fs).
Proof.
  unfold listSessions.
  destruct (read_summaries fs (readdir fs)) as [l|]; [|constructor].
  intros Hdated. apply sort_by_date_sorted.
  apply List.Forall_forall. intros s Hs. apply Hdated.
  apply (Permutation_in _ (Permutation_sym (sort_by_date_perm l))), Hs.
Qed.

End ListingOrder.

Lemma listSessions_most_recent_first_witness :
  StronglySorted (Notions.at_least_as_recent (RT := Reference.runtime))
    (Conversation.listSessions (RT := Reference.runtime)
       ExampleStore.two_files).
Proof.
  apply (listSessions_most_recent_first (RT := Reference.runtime)
           ExampleStore.two_files).
  intros s Hs.
  let l := eval vm_compute in
            (Conversation.listSessions (RT := Reference.runtime)
               ExampleStore.two_files) in
  change (In s l) in Hs.
  destruct Hs as [<-|[<-|[]]]; eexists; vm_compute; reflexivity.
Defined.

(** ** The commands *)

(** Splits [/word arg] into the command word and the argument. *)
Ltac command_parts head word arg :=
  let Hparts := fresh "Hparts" in
  assert (Hparts : JS.split (JS.drop 1 (head +:+ arg)) " "
                   = word :: JS.split arg " ")
    by (unfold JS.split; cbv [String.append JS.drop]; fold String.append;
        cbn; rewrite prefix_empty; reflexivity);
  unfold Chat.handleCommand; rewrite Hparts; cbn [hd tl];
  rewrite join_split_char; clear Hparts.

Section MoreCommands.
Import Api Conversation Chat Notions.
Context {RT : Runtime} (w : World).

Lemma nonempty_true (text : string) : text <> "" -> nonempty text = true.
Proof. intros H. unfold nonempty. apply negb_true_iff, String.eqb_neq, H. Qed.

(** X16.  A line whose command word is none of the known ones changes
    nothing: the handler displays the warning that names the word, and
    the transcript, the configuration and the history stay as they
    were. *)
Theorem unknown_command_ignored (command : string) (s : State) :
  ~ In (JS.toLowerCase (command_word command)) known_commands ->
  handleCommand w command s
  = (Ok tt, s,
     [displayWarning ("Unknown command: " +:+ command_word command
                      +:+ ". Type /help for available commands.")]).
Proof.
  unfold command_word, handleCommand. intros Hunknown.
  set (word := JS.toLowerCase (hd "" (JS.split (JS.drop 1 command) " "))) in *.
  assert (Hne : forall n, In n known_commands -> String.eqb word n = false).
  { intros n Hn. apply String.eqb_neq. intros ->. exact (Hunknown Hn). }
  cbv beta zeta.
  rewrite !Hne by (cbn; tauto). reflexivity.
Qed.

(** X17.  [/system <prompt>] starts the conversation over: the transcript
    becomes the single system turn with the prompt, whatever it held
    before; the session id, the configuration and the history are kept. *)
Theorem system_command_restarts (arg : string) (s : State) :
  arg <> "" ->
  handleCommand w ("/system " +:+ arg) s
  = (Ok tt,
     set_conversation
       {| messages := [{| role := system; content := arg;
                          tool_calls := None; tool_call_id := None |}];
          sessionId := sessionId (conversation s) |} s,
     [displaySuccess "System prompt updated"]).
Proof.
  intros Harg. command_parts "/system " "system" arg.
  rewrite (nonempty_true arg Harg). reflexivity.
Qed.

(** X18.  [/tokens <arg>] stores the number [parseInt] reads from the
    argument when it is greater than 0; any other argument leaves
    everything as it was and displays the validation error. *)
Theorem tokens_command_validates (arg : string) (s : State) :
  arg <> "" ->
  handleCommand w ("/tokens " +:+ arg) s
  = if num_ltb (num_of_Z 0) (parseInt arg)
    then (Ok tt,
          set_config (Config.set_maxTokens (parseInt arg) (config s)) s,
          [displaySuccess ("Max tokens set to: "
                           +:+ number_to_string (parseInt arg))])
    else (Ok tt, s, [displayError "Max tokens must be a positive number"]).
Proof.
  intros Harg. command_parts "/tokens " "tokens" arg.
  rewrite (nonempty_true arg Harg).
  change (JS.toLowerCase "tokens") with "tokens".
  cbn [String.eqb Ascii.eqb Bool.eqb orb].
  destruct (num_ltb (num_of_Z 0) (parseInt arg)); reflexivity.
Qed.

(** X19.  [/theme <arg>] stores the argument when it is one of the four
    theme names, spelled exactly; any other argument leaves everything as
    it was and displays the list of names. *)
Theorem theme_command_validates (arg : string) (s : State) :
  arg <> "" ->
  handleCommand w ("/theme " +:+ arg) s
  = if existsb (String.eqb arg) ["default"; "dark"; "light"; "colorful"]
    then (Ok tt, set_config (Config.set_theme arg (config s)) s,
          [displaySuccess ("Theme changed to: " +:+ arg)])
    else (Ok tt, s,
          [displayError
             "Invalid theme. Choose from: default, dark, light, colorful"]).
Proof.
  intros Harg. command_parts "/theme " "theme" arg.
  rewrite (nonempty_true arg Harg).
  change (JS.toLowerCase "theme") with "theme".
  cbn [String.eqb Ascii.eqb Bool.eqb orb]. unfold validThemes.
  destruct (existsb (String.eqb arg) _); reflexivity.
Qed.

End MoreCommands.

Lemma unknown_command_ignored_witness :
  Chat.handleCommand (RT := Reference.runtime) ExampleChat.quiet_world
    "/frobnicate now" (ExampleChat.chatting ∅)
  = (Ok tt, ExampleChat.chatting ∅,
     [displayWarning
        "Unknown command: frobnicate. Type /help for available commands."]).
Proof.
  apply (unknown_command_ignored (RT := Reference.runtime)
           ExampleChat.quiet_world "/frobnicate now" (ExampleChat.chatting ∅)).
  vm_compute. intuition discriminate.
Defined.

Lemma system_command_restarts_witness :
  Api.content
    <$> Conversation.messages
          (Chat.conversation
             (snd (fst (Chat.handleCommand (RT := Reference.runtime)
                          ExampleChat.quiet_world "/system Be brief"
                          (ExampleChat.chatting ∅)))))
  = ["Be brief"].
Proof.
  rewrite (system_command_restarts (RT := Reference.runtime)
             ExampleChat.quiet_world "Be brief" (ExampleChat.chatting ∅)).
  - reflexivity.
  - discriminate.
Defined.

Lemma tokens_command_validates_witness :
  Chat.handleCommand (RT := Reference.runtime) ExampleChat.quiet_world
    "/tokens 0" (ExampleChat.chatting ∅)
  = (Ok tt, ExampleChat.chatting ∅,
     [displayError "Max tokens must be a positive number"]).
Proof.
  apply (tokens_command_validates (RT := Reference.runtime)
           ExampleChat.quiet_world "0" (ExampleChat.chatting ∅)).
  discriminate.
Defined.

Lemma theme_command_validates_witness :
  Chat.handleCommand (RT := Reference.runtime) ExampleChat.quiet_world
    "/theme Dark" (ExampleChat.chatting ∅)
  = (Ok tt, ExampleChat.chatting ∅,
     [displayError
        "Invalid theme. Choose from: default, dark, light, colorful"]).
Proof.
  apply (theme_command_validates (RT := Reference.runtime)
           ExampleChat.quiet_world "Dark" (ExampleChat.chatting ∅)).
  discriminate.
Defined.

(** The manager the constructor builds is one built by registrations. *)
Lemma new_ToolManager_registered `{RT : Runtime} :
  Tools.registered (fst Tools.new_ToolManager).
Proof.
  unfold Tools.new_ToolManager. cbn [fst].
  apply (Tools.registered_tool _ Tools.BUILT_IN_generate_random).
  apply (Tools.registered_tool _ Tools.BUILT_IN_get_current_time).
  apply (Tools.registered_tool _ Tools.BUILT_IN_calculate).
  apply Tools.registered_fresh.
Qed.

Lemma calculate_always_answers_witness :
  exists r,
    Tools.executeTool (RT := Reference.runtime) Examples.manager
      Examples.bad_arguments_call = Ok r
    /\ Tools.tool_call_id r = Tools.id Examples.bad_arguments_call
    /\ (String.prefix "Result: " (Tools.content r) = true
        \/ String.prefix "Error: " (Tools.content r) = true
        \/ String.prefix "Error executing tool: " (Tools.content r) = true).
Proof.
  apply (calculate_always_answers (RT := Reference.runtime)
           Examples.manager Examples.bad_arguments_call); reflexivity.
Defined.

Lemma advertised_tools_have_handlers_witness :
  map (fun t => Tools.name (Tools.function t))
    (Tools.getTools Examples.manager)
  = ["calculate"; "get_current_time"; "generate_random"]
  /\ forall n,
       In n (map (fun t => Tools.name (Tools.function t))
               (Tools.getTools Examples.manager))
       <-> is_Some (Tools.handlers Examples.manager !! n).
Proof.
  split; [reflexivity|].
  apply (advertised_tools_have_handlers Examples.manager).
  exact (new_ToolManager_registered (RT := Reference.runtime)).
Defined.

Lemma registration_keeps_order_witness :
  map (fun t => Tools.name (Tools.function t))
    (Tools.getTools
       (fst (Tools.registerTool Tools.BUILT_IN_calculate
               (fun _ => Ok "42") Examples.manager)))
  = ["calculate"; "get_current_time"; "generate_random"].
Proof.
  destruct (registration_keeps_order Examples.manager
              Tools.BUILT_IN_calculate (fun _ => Ok "42")
              (new_ToolManager_registered (RT := Reference.runtime)))
    as [Hsame _].
  rewrite Hsame; [reflexivity|]. left. reflexivity.
Defined.

(** ** Sending a message *)

Section MoreMessageSending.
Import Api Conversation Chat.
Context {RT : Runtime} (w : World).

(** What [sendMessage] does when the promise of [streamChatCompletion]
    resolves. *)
Lemma sendMessage_resolved (content : string) (s : State) :
  let s1 :=
    set_conversation
      (addMessage (Examples.user_message content) (conversation s)) s in
  let response :=
    post w (completion_request (config s) (messages (conversation s1))) in
  let s2 :=
    set_conversation
      (addMessage
         (Examples.assistant_message
            (String.concat "" (map json_to_string (chunks_seen w response))))
         (conversation s1)) s1 in
  snd (streamChatCompletion response) = Ok tt ->
  sendMessage w content s
  = (Ok tt,
     set_fs (saveSession (config s) (now w) (conversation s2) (fs s)) s2,
     [spinner_start "Thinking..."] ++ chunk_displays (chunks_seen w response)
     ++ [console_log JS.newline]).
Proof.
  intros s1 response s2 Hdone. unfold sendMessage.
  unfold mbind, M_bind, catch, conversation_addMessage, modify, emit, gets.
  fold (Examples.user_message content). fold s1.
  unfold getMessages. cbn [config set_conversation] in *.
  change (config s1) with (config s). fold response.
  rewrite Hdone. unfold emit_all, lift, emit. cbn.
  fold (Examples.assistant_message
          (String.concat "" (map json_to_string (chunks_seen w response)))).
  unfold conversation_saveSession, modify, saveSession.
  subst s1 s2.
  destruct (Config.history_enabled (config s)) eqn:Hhistory; cbn;
    rewrite ?Hhistory, <- ?app_assoc, ?app_nil_r; reflexivity.
Qed.

(** X20.  When the promise of the streamed request resolves,
    [sendMessage] appends two turns to the transcript: the user's text,
    and an assistant turn whose content is what the chunk callback was
    called with, each value rendered as text, joined in order.  These are
    the calls made until the promise settled, followed by those of the
    data events that arrived before [sendMessage] resumed.  The session
    is then saved under its id (which does nothing when the history is
    disabled), and the configuration and the running flag are kept. *)
Theorem sendMessage_appends_answer (content : string) (s : State)
    (response : Response) :
  response
  = post w (completion_request (config s)
              (messages (conversation s) ++ [Examples.user_message content])) ->
  snd (streamChatCompletion response) = Ok tt ->
  exists s' d,
    sendMessage w content s = (Ok tt, s', d)
    /\ messages (conversation s')
       = messages (conversation s)
         ++ [Examples.user_message content;
             Examples.assistant_message
               (String.concat ""
                  (map json_to_string
                     (fst (streamChatCompletion response)
                      ++ concat (firstn (late_events w) (late response)))))]
    /\ sessionId (conversation s') = sessionId (conversation s)
    /\ fs s' = saveSession (config s) (now w) (conversation s') (fs s)
    /\ config s' = config s /\ isRunning s' = isRunning s.
Proof.
  intros -> Hdone. do 2 eexists.
  split; [apply (sendMessage_resolved content s Hdone)|].
  cbn. rewrite <- app_assoc. repeat split.
Qed.

(** X21.  [sendMessage] never throws, whatever the endpoint does: it
    returns normally, the user's turn is always appended to the
    transcript, followed by at most one assistant turn, and the
    configuration, the session id and the running flag are kept. *)
Theorem sendMessage_never_throws (content : string) (s : State) :
  exists s' d,
    sendMessage w content s = (Ok tt, s', d)
    /\ (messages (conversation s')
        = messages (conversation s) ++ [Examples.user_message content]
        \/ exists text,
             messages (conversation s')
             = messages (conversation s)
               ++ [Examples.user_message content;
                   Examples.assistant_message text])
    /\ sessionId (conversation s') = sessionId (conversation s)
    /\ config s' = config s /\ isRunning s' = isRunning s.
Proof.
  destruct (streamChatCompletion
              (post w (completion_request (config s)
                         (messages (conversation s)
                          ++ [Examples.user_message content]))))
    as [chunks [[]|e]] eqn:E.
  - do 2 eexists.
    split; [apply (sendMessage_resolved content s); cbn; rewrite E;
            reflexivity|].
    cbn. rewrite <- app_assoc. split; [right; eexists; reflexivity|].
    repeat split.
  - do 2 eexists.
    split; [apply (sendMessage_rejected w content s chunks e E)|].
    cbn. split; [left; reflexivity|]. repeat split.
Qed.

End MoreMessageSending.

Lemma sendMessage_appends_answer_witness :
  Api.content
    <$> Conversation.messages
          (Chat.conversation
             (snd (fst (Chat.sendMessage (RT := Reference.runtime)
                          ExampleChat.spelling_world "Say hello"
                          (ExampleChat.chatting ∅)))))
  = ["hello"; "Say hello"; "Hello"].
Proof.
  destruct (sendMessage_appends_answer (RT := Reference.runtime)
              ExampleChat.spelling_world "Say hello" (ExampleChat.chatting ∅)
              (Api.Stream [Examples.hello_stream_backslash_n] Api.StreamEnds))
    as (s' & d & Hrun & Hmessages & _).
  - reflexivity.
  - vm_compute. reflexivity.
  - rewrite Hrun. cbn [fst snd]. rewrite Hmessages. vm_compute. reflexivity.
Defined.

(** A delta that arrives after the sentinel is in the stored answer when
    its data event comes before [sendMessage] resumes, and is not when it
    comes later; a content that is not a string is stored as text. *)
Lemma sendMessage_late_delta :
  let RT := Reference.runtime in
  Api.content
    <$> Conversation.messages
          (Chat.conversation
             (snd (fst (Chat.sendMessage (ExampleChat.trailing_world 1) "hi"
                          (ExampleChat.chatting ∅)))))
  = ["hello"; "hi"; "5late"]
  /\ Api.content
       <$> Conversation.messages
             (Chat.conversation
                (snd (fst (Chat.sendMessage (ExampleChat.trailing_world 0) "hi"
                             (ExampleChat.chatting ∅)))))
     = ["hello"; "hi"; "5"].
Proof. split; vm_compute; reflexivity. Qed.

(** ** What a line of input keeps *)

Section Keeping.
Import Api Conversation Chat Notions.
Context {RT : Runtime} (w : World) (P : State -> Prop).

Lemma keeps_ret {A : Type} (a : A) : keeps P (mret a).
Proof. intros s Hs. exact Hs. Qed.

Lemma keeps_emit (d : Display) : keeps P (emit d).
Proof. intros s Hs. exact Hs. Qed.

Lemma keeps_emit_all (ds : list Display) : keeps P (emit_all ds).
Proof. intros s Hs. exact Hs. Qed.

Lemma keeps_gets {A : Type} (f : State -> A) : keeps P (gets f).
Proof. intros s Hs. exact Hs. Qed.

Lemma keeps_lift {A : Type} (r : result A) : keeps P (lift r).
Proof. intros s Hs. exact Hs. Qed.

Lemma keeps_modify (f : State -> State) :
  (forall s, P s -> P (f s)) -> keeps P (modify f).
Proof. intros Hf s Hs. exact (Hf s Hs). Qed.

Lemma keeps_bind {A B : Type} (m : M A) (f : A -> M B) :
  keeps P m -> (forall a, keeps P (f a)) -> keeps P (m ≫= f).
Proof.
  intros Hm Hf s Hs. unfold mbind, M_bind, state_of.
  specialize (Hm s Hs). unfold state_of in Hm.
  destruct (m s) as [[[a|e] s'] d]; cbn in *; [|exact Hm].
  specialize (Hf a s' Hm). unfold state_of in Hf.
  destruct (f a s') as [[r s''] d']. exact Hf.
Qed.

Lemma keeps_catch {A : Type} (body : M A) (handler : exn -> M A) :
  keeps P body -> (forall e, keeps P (handler e)) ->
  keeps P (catch body handler).
Proof.
  intros Hm Hf s Hs. unfold catch, state_of.
  specialize (Hm s Hs). unfold state_of in Hm.
  destruct (body s) as [[[a|e] s'] d]; cbn in *; [exact Hm|].
  specialize (Hf e s' Hm). unfold state_of in Hf.
  destruct (handler e s') as [[r s''] d']. exact Hf.
Qed.

End Keeping.

(** Takes a computation apart along its binds, handlers and branches;
    [leaf] is tried first at each step. *)
Ltac keeping_with leaf :=
  repeat first
    [ leaf
    | match goal with
      | |- Notions.keeps _ (mret _) => apply keeps_ret
      | |- Notions.keeps _ (Chat.emit _) => apply keeps_emit
      | |- Notions.keeps _ (Chat.emit_all _) => apply keeps_emit_all
      | |- Notions.keeps _ (Chat.gets _) => apply keeps_gets
      | |- Notions.keeps _ (Chat.lift _) => apply keeps_lift
      | |- Notions.keeps _ (_ ≫= _) => apply keeps_bind; [|intros ?]
      | |- Notions.keeps _ (Chat.catch _ _) => apply keeps_catch; [|intros ?]
      | |- Notions.keeps _ (if ?b then _ else _) => destruct b
      | |- Notions.keeps _ (match ?x with _ => _ end) => destruct x
      | |- Notions.keeps _ (let _ := _ in _) => cbv zeta
      end ].

Ltac keeping := keeping_with fail.

Section KeepingTranscriptApart.
Import Api Conversation Chat Notions.
Context {RT : Runtime} (w : World) (P : State -> Prop).
Hypothesis transcript_apart : apart_from_transcript P.

Lemma keeps_addMessage (m : ChatMessage) : keeps P (conversation_addMessage m).
Proof using Type*. apply keeps_modify. intros s Hs. apply transcript_apart, Hs. Qed.

Lemma keeps_clear : keeps P conversation_clear.
Proof using Type*. apply keeps_modify. intros s Hs. apply transcript_apart, Hs. Qed.

Lemma keeps_loadSession (sessionId : string) :
  keeps P (conversation_loadSession sessionId).
Proof using Type*.
  intros s Hs. unfold conversation_loadSession, state_of.
  destruct (loadSession sessionId (conversation s) (fs s)); cbn;
    [apply transcript_apart|]; exact Hs.
Qed.

Lemma keeps_listSessions : keeps P conversation_listSessions.
Proof using Type*. apply keeps_gets. Qed.

Lemma keeps_showHelp : keeps P showHelp.
Proof. unfold showHelp. keeping. Qed.

Lemma keeps_showHistory : keeps P (showHistory w).
Proof using Type*.
  unfold showHistory.
  keeping_with ltac:(first [apply keeps_listSessions
                           | apply keeps_loadSession]).
Qed.

Lemma keeps_copyLastMessage : keeps P (copyLastMessage w).
Proof. unfold copyLastMessage. keeping. Qed.

Lemma keeps_search_sessions (query : string) (sessions : list SessionSummary) :
  keeps P (search_sessions query sessions).
Proof using Type*.
  induction sessions as [|session rest IH]; cbn [search_sessions].
  - apply keeps_ret.
  - keeping_with ltac:(first [apply keeps_loadSession | exact IH]).
Qed.

Lemma keeps_searchConversations (query : string) :
  keeps P (searchConversations w query).
Proof using Type*.
  unfold searchConversations.
  keeping_with ltac:(first [apply keeps_listSessions
                           | apply keeps_loadSession | apply keeps_clear
                           | apply keeps_search_sessions]).
Qed.

End KeepingTranscriptApart.

Section KeepingCommands.
Import Api Conversation Chat Notions.
Context {RT : Runtime} (w : World) (P : State -> Prop).

Lemma keeps_saveSession :
  (forall f s, P s -> P (set_fs f s)) -> keeps P (conversation_saveSession w).
Proof. intros Hstore. apply keeps_modify. intros s Hs. apply Hstore, Hs. Qed.

Lemma keeps_exportConversation (outputPath : string) :
  (forall f s, P s -> P (set_fs f s)) ->
  keeps P (exportConversation w outputPath).
Proof.
  intros Hstore. unfold exportConversation, saveConversation.
  keeping_with ltac:(apply keeps_modify; intros ? ?;
                     destruct (history_entry w _);
                     [apply Hstore|]; assumption).
Qed.

Lemma keeps_sendMessage (content : string) :
  apart_from_transcript P -> (forall f s, P s -> P (set_fs f s)) ->
  keeps P (sendMessage w content).
Proof.
  intros Htranscript Hstore. unfold sendMessage.
  keeping_with ltac:(first [apply keeps_addMessage; assumption
                           | apply keeps_saveSession; assumption]).
Qed.

Lemma keeps_readFile (filePath : string) :
  apart_from_transcript P -> (forall f s, P s -> P (set_fs f s)) ->
  keeps P (readFile w filePath).
Proof.
  intros Htranscript Hstore. unfold readFile.
  keeping_with ltac:(idtac;
                     match goal with
                     | |- keeps _ (sendMessage _ _) =>
                         apply keeps_sendMessage; assumption
                     end).
Qed.

Lemma keeps_handleExit :
  (forall f s, P s -> P (set_fs f s)) ->
  (forall b s, P s -> P (set_isRunning b s)) ->
  keeps P (handleExit w).
Proof.
  intros Hstore Hrunning. unfold handleExit.
  keeping_with ltac:(first [apply keeps_saveSession; assumption
                           | apply keeps_modify; intros ? ?;
                             apply Hrunning; assumption]).
Qed.

Lemma keeps_showModels :
  (forall v s, P s -> P (set_config (Config.set_model v (config s)) s)) ->
  keeps P (showModels w).
Proof.
  intros Hmodel. unfold showModels.
  keeping_with ltac:(apply keeps_modify; intros ? ?; apply Hmodel; assumption).
Qed.

(** What a command keeps: a property of the state that each part of the
    state the command may write to has no part in. *)
Lemma keeps_handleCommand (command : string) :
  let word := JS.toLowerCase (command_word command) in
  (In word ["clear"; "history"; "system"; "file"; "read"; "search"] ->
   apart_from_transcript P) ->
  (In word ["save"; "file"; "read"; "export"; "exit"; "quit"] ->
   forall f s, P s -> P (set_fs f s)) ->
  (In word ["exit"; "quit"] -> forall b s, P s -> P (set_isRunning b s)) ->
  (word = "model" ->
   forall v s, P s -> P (set_config (Config.set_model v (config s)) s)) ->
  (In word ["temp"; "temperature"] ->
   forall t s, valid_temperature t = true -> P s ->
               P (set_config (Config.set_temperature t (config s)) s)) ->
  (In word ["tokens"; "maxtokens"] ->
   forall n s, num_ltb (num_of_Z 0) n = true -> P s ->
               P (set_config (Config.set_maxTokens n (config s)) s)) ->
  (word = "theme" ->
   forall t s, existsb (String.eqb t) validThemes = true -> P s ->
               P (set_config (Config.set_theme t (config s)) s)) ->
  keeps P (handleCommand w command).
Proof.
  intros word Htranscript Hstore Hrunning Hmodel Htemp Htokens Htheme.
  unfold command_word in word.
  unfold handleCommand. cbv beta zeta.
  change (JS.toLowerCase (hd "" (JS.split (JS.drop 1 command) " ")))
    with word.
  clearbody word.
  repeat match goal with
         | |- keeps _ (if String.eqb word ?n || String.eqb word ?m
                       then _ else _) =>
             destruct (String.eqb_spec word n);
             [|destruct (String.eqb_spec word m)]; cbn [orb]
         | |- keeps _ (if String.eqb word ?n then _ else _) =>
             destruct (String.eqb_spec word n)
         end.
  all: try (specialize (Htranscript ltac:(cbn; intuition congruence))).
  all: try (specialize (Hstore ltac:(cbn; intuition congruence))).
  all: try (specialize (Hrunning ltac:(cbn; intuition congruence))).
  all: try (specialize (Hmodel ltac:(assumption))).
  all: try (specialize (Htemp ltac:(cbn; intuition congruence))).
  all: try (specialize (Htokens ltac:(cbn; intuition congruence))).
  all: try (specialize (Htheme ltac:(assumption))).
  - apply keeps_showHelp.
  - keeping_with ltac:(apply keeps_clear; assumption).
  - keeping_with ltac:(apply keeps_saveSession; assumption).
  - apply keeps_showHistory; assumption.
  - apply keeps_copyLastMessage.
  - keeping_with ltac:(first [apply keeps_showModels; assumption
                             | apply keeps_modify; intros ? ?;
                               apply Hmodel; assumption]).
  - keeping_with ltac:(first [apply keeps_clear; assumption
                             | apply keeps_addMessage; assumption]).
  - destruct (nonempty _); [|keeping].
    destruct (valid_temperature _) eqn:E; [|keeping].
    keeping_with ltac:(apply keeps_modify; intros ? ?;
                       apply Htemp; assumption).
  - destruct (nonempty _); [|keeping].
    destruct (valid_temperature _) eqn:E; [|keeping].
    keeping_with ltac:(apply keeps_modify; intros ? ?;
                       apply Htemp; assumption).
  - destruct (nonempty _); [|keeping].
    destruct (num_ltb _ _) eqn:E; [|keeping].
    keeping_with ltac:(apply keeps_modify; intros ? ?;
                       apply Htokens; assumption).
  - destruct (nonempty _); [|keeping].
    destruct (num_ltb _ _) eqn:E; [|keeping].
    keeping_with ltac:(apply keeps_modify; intros ? ?;
                       apply Htokens; assumption).
  - destruct (nonempty _); [|keeping].
    destruct (existsb _ _) eqn:E; [|keeping].
    keeping_with ltac:(apply keeps_modify; intros ? ?;
                       apply Htheme; assumption).
  - keeping_with ltac:(apply keeps_readFile; assumption).
  - keeping_with ltac:(apply keeps_readFile; assumption).
  - apply keeps_exportConversation; assumption.
  - keeping_with ltac:(apply keeps_searchConversations; assumption).
  - apply keeps_handleExit; assumption.
  - apply keeps_handleExit; assumption.
  - keeping.
Qed.

End KeepingCommands.

Section Footprint.
Import Api Conversation Chat Notions.
Context {RT : Runtime} (w : World).

(** X22.  No line of input makes the settings invalid: when the stored
    temperature lies between 0 and 2, the stored token limit is positive
    and the stored theme is one of the four themes, the same holds after
    any command and after any message, whatever the endpoint, the history
    directory and the user's answers are. *)
Theorem input_keeps_settings_valid (input : string) (s : State) :
  Cli.guarded (config s) = true ->
  Cli.guarded (config (state_of (handleUserInput w input s))) = true.
Proof.
  revert s.
  change (keeps (fun s => Cli.guarded (config s) = true)
            (handleUserInput w input)).
  unfold handleUserInput. destruct (JS.startsWith input "/").
  - apply keeps_handleCommand; intros _;
      try (intros ? ? Hs; exact Hs);
      intros v s Hv Hs; unfold Cli.guarded in *;
      cbn [config set_config Config.temperature Config.maxTokens
             Config.theme Config.set_temperature Config.set_maxTokens
             Config.set_theme Config.set_model];
      apply andb_prop in Hs as [Hs Htheme];
      apply andb_prop in Hs as [Htemp Htokens];
      rewrite ?Hv, ?Htemp, ?Htokens, ?Htheme; reflexivity.
  - apply keeps_sendMessage; intros ? ? Hs; exact Hs.
Qed.

(** X23.  Each command writes only to its own part of the state.  The
    history directory is written by [/save], [/file], [/read], [/export],
    [/exit] and [/quit] only ([/export] writes to the path it is given,
    which can be a file of the directory); the settings are changed by
    [/model], [/temp], [/temperature], [/tokens], [/maxtokens] and
    [/theme] only; the transcript and the session id are changed by [/clear], [/history],
    [/system], [/file], [/read] and [/search] only; and only [/exit] and
    [/quit] end the chat. *)
Theorem command_footprint (command : string) (s : State) :
  let word := JS.toLowerCase (command_word command) in
  let s' := state_of (handleCommand w command s) in
  (~ In word ["save"; "file"; "read"; "export"; "exit"; "quit"] ->
   fs s' = fs s)
  /\ (~ In word ["model"; "temp"; "temperature"; "tokens"; "maxtokens";
                 "theme"] -> config s' = config s)
  /\ (~ In word ["clear"; "history"; "system"; "file"; "read"; "search"] ->
      conversation s' = conversation s)
  /\ (~ In word ["exit"; "quit"] -> isRunning s' = isRunning s).
Proof.
  intros word s'. subst s'. repeat split; intros Hword.
  - apply (keeps_handleCommand w (fun s' => fs s' = fs s));
      fold word; cbn in *;
      solve [reflexivity | tauto | intros _; intros ? ? ?; assumption
            | intros _; intros ? ? ? ?; assumption].
  - apply (keeps_handleCommand w (fun s' => config s' = config s));
      fold word; cbn in *;
      solve [reflexivity | tauto | intros _; intros ? ? ?; assumption
            | intros _; intros ? ? ? ?; assumption
            | intros ->; tauto].
  - apply (keeps_handleCommand w (fun s' => conversation s' = conversation s));
      fold word; cbn in *;
      solve [reflexivity | tauto | intros _; intros ? ? ?; assumption
            | intros _; intros ? ? ? ?; assumption].
  - apply (keeps_handleCommand w (fun s' => isRunning s' = isRunning s));
      fold word; cbn in *;
      solve [reflexivity | tauto | intros _; intros ? ? ?; assumption
            | intros _; intros ? ? ? ?; assumption].
Qed.

End Footprint.

(** [/export] with the path of a session file replaces the session
    document by the export. *)
Lemma export_overwrites_session_file :
  let s := ExampleChat.chatting ExampleStore.two_files in
  let s' :=
    Notions.state_of
      (Chat.handleCommand (RT := Reference.runtime)
         ExampleChat.overwriting_world "/export history/first.json" s) in
  Chat.fs s' !! "first.json"
  = Some (FileOperations.export_content (RT := Reference.runtime)
            FileOperations.format_json "2024-05-03T09:00:00.000Z"
            [Examples.user_message "hello"])
  /\ Chat.fs s' !! "first.json" <> Chat.fs s !! "first.json".
Proof.
  split; [vm_compute; reflexivity|].
  vm_compute. intros H. discriminate H.
Qed.

Lemma input_keeps_settings_valid_witness :
  Cli.guarded
    (Chat.config
       (Notions.state_of
          (Chat.handleUserInput (RT := Reference.runtime)
             ExampleChat.quiet_world "/tokens 512" (ExampleChat.chatting ∅))))
  = true.
Proof.
  apply (input_keeps_settings_valid (RT := Reference.runtime)
           ExampleChat.quiet_world "/tokens 512" (ExampleChat.chatting ∅)).
  vm_compute. reflexivity.
Defined.

Section ClearAndSave.
Import Api Conversation Chat Notions.
Context {RT : Runtime} (w : World).

(** X24.  [/clear] empties the transcript and keeps the session id, so a
    [/save] after it, with the history enabled, replaces the stored copy of
    the cleared conversation by a session without messages. *)
Theorem clear_then_save_overwrites (s : State) :
  Config.history_enabled (config s) = true ->
  let s1 := state_of (handleCommand w "/clear" s) in
  let s2 := state_of (handleCommand w "/save" s1) in
  sessionId (conversation s2) = sessionId (conversation s)
  /\ messages (conversation s2) = []
  /\ fs s2 !! session_file (sessionId (conversation s))
     = Some (JSON_stringify
               (session_to_json
                  {| id := sessionId (conversation s); date := now w;
                     session_messages := [] |})).
Proof.
  intros Henabled s1 s2.
  assert (H1 : s1 = set_conversation (clear (conversation s)) s)
    by reflexivity.
  assert (H2 : s2 = set_fs (saveSession (config s1) (now w) (conversation s1)
                              (fs s1)) s1) by reflexivity.
  rewrite H2, H1. cbn [conversation set_fs set_conversation config fs clear
                         sessionId messages].
  split; [reflexivity|]. split; [reflexivity|].
  unfold saveSession. rewrite Henabled.
  cbn [negb sessionId messages]. apply lookup_insert_eq.
Qed.

End ClearAndSave.

Lemma clear_then_save_overwrites_witness :
  Conversation.messages
    (Chat.conversation
       (Notions.state_of
          (Chat.handleCommand (RT := Reference.runtime)
             ExampleChat.quiet_world "/save"
             (Notions.state_of
                (Chat.handleCommand (RT := Reference.runtime)
                   ExampleChat.quiet_world "/clear"
                   (ExampleChat.chatting ∅))))))
  = []
  /\ is_Some
       (Chat.fs
          (Notions.state_of
             (Chat.handleCommand (RT := Reference.runtime)
                ExampleChat.quiet_world "/save"
                (Notions.state_of
                   (Chat.handleCommand (RT := Reference.runtime)
                      ExampleChat.quiet_world "/clear"
                      (ExampleChat.chatting ∅)))))
        !! "2024-05-03T08-59-00-000Z.json").
Proof.
  destruct (clear_then_save_overwrites (RT := Reference.runtime)
              ExampleChat.quiet_world (ExampleChat.chatting ∅))
    as (_ & Hempty & Hfile).
  - reflexivity.
  - split; [exact Hempty|]. eexists. exact Hfile.
Defined.

(** ** Text helpers and the export *)

Section TextHelpers.
Import Api Conversation FileOperations Chat.

Lemma substring_length (s : string) :
  forall n m,
    String.length (String.substring n m s)
    = Nat.min m (String.length s - n).
Proof.
  induction s as [|c s IH]; intros [|n] [|m]; cbn [String.substring
    String.length Nat.sub Nat.min]; rewrite ?IH; try reflexivity; lia.
Qed.

Lemma substring_whole (s : string) :
  String.substring 0 (String.length s) s = s.
Proof.
  rewrite <- (string_app_nil_r s) at 2. apply substring_prefix.
Qed.

Lemma drop_app (a b : string) : JS.drop (String.length a) (a +:+ b) = b.
Proof.
  induction a as [|c a IH]; [reflexivity|].
  rewrite app_cons. cbn [String.length JS.drop]. exact IH.
Qed.

Lemma endsWith_app (a b : string) : JS.endsWith (a +:+ b) b = true.
Proof.
  unfold JS.endsWith. rewrite string_app_length.
  replace (String.length a + String.length b - String.length b)%nat
    with (String.length a) by lia.
  rewrite drop_app, String.eqb_refl. cbn [andb].
  apply Nat.leb_le. lia.
Qed.

(** X25.  [truncateString] returns a text of at most [maxLength]
    characters when [maxLength] is at least 3: the text itself when it
    fits, its first [maxLength - 3] characters and three dots otherwise.
    For a smaller [maxLength] a text that does not fit is replaced by the
    three dots alone, which are longer than [maxLength]. *)
Theorem truncateString_length (str : string) (maxLength : Z) :
  (3 <= maxLength ->
   JS.length (Utils.truncateString str maxLength)
   = Z.min (JS.length str) maxLength)
  /\ (maxLength < 3 -> maxLength < JS.length str ->
      Utils.truncateString str maxLength = "...").
Proof.
  unfold Utils.truncateString. split.
  - intros Hmax. destruct (Z.leb_spec (JS.length str) maxLength); [lia|].
    rewrite substring_in_range by lia.
    unfold JS.length in *. rewrite string_app_length, substring_length.
    cbn [String.length]. lia.
  - intros Hmax Hlong.
    destruct (Z.leb_spec (JS.length str) maxLength); [lia|].
    unfold JS.substring.
    replace (Z.max 0 (Z.min (maxLength - 3) (JS.length str))) with 0
      by (unfold JS.length; lia).
    replace (Z.max 0 (Z.min 0 (JS.length str))) with 0
      by (unfold JS.length; lia).
    cbn. destruct str; reflexivity.
Qed.

(** X26.  The mask of the API key hides something only of a long key: a
    key of at most 8 characters is displayed in full in front of the dots,
    and of a key of at least 12 characters the first 8 and the last 4
    characters are displayed, whatever lies between them. *)
Theorem mask_api_key_shows (value : string) :
  (JS.length value <= 8 ->
   String.prefix value (Cli.mask_api_key value) = true)
  /\ (12 <= JS.length value ->
      exists a mid b,
        value = a +:+ mid +:+ b
        /\ String.length a = 8%nat /\ String.length b = 4%nat
        /\ Cli.mask_api_key value = a +:+ "..." +:+ b).
Proof.
  unfold Cli.mask_api_key. split.
  - intros Hshort. unfold JS.substring at 1.
    replace (Z.max 0 (Z.min 0 (JS.length value))) with 0
      by (unfold JS.length; lia).
    replace (Z.max 0 (Z.min 8 (JS.length value))) with (JS.length value)
      by (unfold JS.length in *; lia).
    replace (Z.min 0 (JS.length value)) with 0 by (unfold JS.length; lia).
    replace (Z.max 0 (JS.length value)) with (JS.length value)
      by (unfold JS.length; lia).
    rewrite Z.sub_0_r. unfold JS.length at 1. rewrite Nat2Z.id.
    change (Z.to_nat 0) with 0%nat. rewrite substring_whole.
    apply prefix_of_app.
  - intros Hlong. unfold JS.length in Hlong.
    destruct (split_at 8 value ltac:(lia)) as (a & rest & -> & Ha).
    rewrite string_app_length in Hlong.
    destruct (split_at (String.length rest - 4) rest ltac:(lia))
      as (mid & b & -> & Hmid).
    rewrite string_app_length in Hmid, Hlong.
    exists a, mid, b. split; [reflexivity|]. split; [exact Ha|].
    split; [lia|].
    rewrite !substring_in_range
      by (unfold JS.length; rewrite ?string_app_length; lia).
    unfold JS.length. rewrite !string_app_length.
    change (Z.to_nat 0) with 0%nat. rewrite Z.sub_0_r.
    change (Z.to_nat 8) with 8%nat. rewrite <- Ha at 1.
    rewrite substring_prefix.
    replace (Z.to_nat (Z.of_nat (String.length a + (String.length mid
                                   + String.length b)) - 4))
      with (String.length (a +:+ mid)) by (rewrite string_app_length; lia).
    replace (Z.to_nat (Z.of_nat (String.length a + (String.length mid
               + String.length b))
             - (Z.of_nat (String.length a + (String.length mid
                  + String.length b)) - 4)))
      with (String.length b) by lia.
    rewrite <- (string_app_nil_r b) at 2.
    rewrite <- (string_app_assoc a mid (b +:+ "")).
    rewrite (substring_middle (a +:+ mid) b ""). reflexivity.
Qed.

(** X27.  The file an export is written to always has the extension of
    the format it is written in: a path given with the command decides the
    format by ending in [.json] or [.txt]; any other path is written as
    Markdown and gets [.md] appended unless it ends with it. *)
Theorem export_target_extension (outputPath filename : string)
    (format : ExportFormat) :
  JS.endsWith (fst (export_target outputPath filename format))
    ("." +:+ format_name (snd (export_target outputPath filename format)))
  = true.
Proof.
  unfold export_target.
  destruct (negb (nonempty outputPath)).
  - cbn [fst snd]. apply endsWith_app.
  - destruct (JS.endsWith outputPath ".json") eqn:Ejson; [exact Ejson|].
    destruct (JS.endsWith outputPath ".txt") eqn:Etxt; [exact Etxt|].
    destruct (JS.endsWith outputPath ".md") eqn:Emd; cbn [negb fst snd].
    + exact Emd.
    + apply endsWith_app.
Qed.

Lemma md_export_app (ms : list ChatMessage) :
  forall head : string,
    fold_left (fun content msg => content +:+ FileOperations.md_block msg)
      ms head
    = head +:+ String.concat "" (map FileOperations.md_block ms).
Proof.
  induction ms as [|m ms IH]; intros head; cbn [fold_left map].
  - cbn. rewrite string_app_nil_r. reflexivity.
  - rewrite IH, concat_empty_cons, string_app_assoc. reflexivity.
Qed.

(** X28.  The Markdown export leaves the tool turns out: a transcript is
    exported to the same text as the transcript without its tool turns,
    so their content is not in the file. *)
Theorem md_export_drops_tool_turns `{RT : Runtime} (timestamp : string)
    (messages : list ChatMessage) :
  FileOperations.export_content format_md timestamp messages
  = FileOperations.export_content format_md timestamp
      (List.filter (fun m => negb (String.eqb (role_to_string (role m)) "tool"))
         messages).
Proof.
  unfold FileOperations.export_content. rewrite !md_export_app. f_equal.
  induction messages as [|m ms IH]; [reflexivity|].
  cbn [List.filter map]. rewrite concat_empty_cons.
  unfold FileOperations.md_block at 1.
  destruct (role m) eqn:Erole; cbn [role_to_string String.eqb Ascii.eqb
    Bool.eqb negb map];
    rewrite ?concat_empty_cons; unfold FileOperations.md_block at 2;
    rewrite ?Erole, IH; reflexivity.
Qed.

End TextHelpers.

(** ** The [config] command *)

Section ConfigCommand.
Import Chat Cli Notions.
Context {RT : Runtime} (options : ConfigOptions) (cfg0 : Config.ConfigSchema).

Lemma settled_snoc (cfg : Config.ConfigSchema) (changed : bool)
    (out : list Display) (d : Display) :
  (forall m, d <> displayInfo m) ->
  settled cfg0 (cfg, changed, out) -> settled cfg0 (cfg, changed, out ++ [d]).
Proof.
  intros Hd (Hsame & Hvalid & Hout). split; [exact Hsame|].
  split; [exact Hvalid|]. apply List.Forall_app. split; [exact Hout|].
  constructor; [exact Hd|constructor].
Qed.

Lemma settled_set (cfg cfg' : Config.ConfigSchema) (changed : bool)
    (out : list Display) (d : Display) :
  (forall m, d <> displayInfo m) ->
  (Cli.guarded cfg = true -> Cli.guarded cfg' = true) ->
  settled cfg0 (cfg, changed, out) -> settled cfg0 (cfg', true, out ++ [d]).
Proof.
  intros Hd Hset (Hsame & Hvalid & Hout). split; [discriminate|].
  split; [intros H; apply Hset, Hvalid, H|].
  apply List.Forall_app. split; [exact Hout|].
  constructor; [exact Hd|constructor].
Qed.

Ltac settle Hst :=
  first [ exact Hst
        | apply settled_snoc; [intros ?; discriminate|exact Hst]
        | eapply settled_set; [intros ?; discriminate| |exact Hst] ].

Lemma guarded_parts (cfg : Config.ConfigSchema) :
  guarded cfg = true ->
  match Config.temperature cfg with
  | Some t => valid_temperature t
  | None => true
  end = true
  /\ match Config.maxTokens cfg with
     | Some n => num_ltb (num_of_Z 0) n
     | None => true
     end = true
  /\ match Config.theme cfg with
     | Some t => existsb (String.eqb t) validThemes
     | None => true
     end = true.
Proof.
  unfold guarded. intros H. apply andb_prop in H as [H Htheme].
  apply andb_prop in H as [Htemp Htokens]. auto.
Qed.

Lemma settled_apiKey (st : Step) :
  settled cfg0 st -> settled cfg0 (apply_apiKey options st).
Proof.
  destruct st as [[cfg changed] out]. intros Hst. unfold apply_apiKey.
  destruct (given (opt_apiKey options)); settle Hst. intros H. exact H.
Qed.

Lemma settled_model (st : Step) :
  settled cfg0 st -> settled cfg0 (apply_model options st).
Proof.
  destruct st as [[cfg changed] out]. intros Hst. unfold apply_model.
  destruct (given (opt_model options)); settle Hst. intros H. exact H.
Qed.

Lemma settled_temperature (st : Step) :
  settled cfg0 st -> settled cfg0 (apply_temperature options st).
Proof.
  destruct st as [[cfg changed] out]. intros Hst. unfold apply_temperature.
  destruct (opt_temperature options) as [t|]; [|exact Hst].
  destruct (valid_temperature t) eqn:E; settle Hst.
  intros (_ & Htokens & Htheme)%guarded_parts. unfold guarded.
  cbn [Config.temperature Config.maxTokens Config.theme
         Config.set_temperature].
  rewrite E, Htokens, Htheme. reflexivity.
Qed.

Lemma settled_maxTokens (st : Step) :
  settled cfg0 st -> settled cfg0 (apply_maxTokens options st).
Proof.
  destruct st as [[cfg changed] out]. intros Hst. unfold apply_maxTokens.
  destruct (opt_maxTokens options) as [n|]; [|exact Hst].
  destruct (num_ltb (num_of_Z 0) n) eqn:E; settle Hst.
  intros (Htemp & _ & Htheme)%guarded_parts. unfold guarded.
  cbn [Config.temperature Config.maxTokens Config.theme
         Config.set_maxTokens].
  rewrite E, Htemp, Htheme. reflexivity.
Qed.

Lemma settled_theme (st : Step) :
  settled cfg0 st -> settled cfg0 (apply_theme options st).
Proof.
  destruct st as [[cfg changed] out]. intros Hst. unfold apply_theme.
  destruct (given (opt_theme options)) as [t|]; [|exact Hst].
  destruct (existsb (String.eqb t) validThemes) eqn:E; settle Hst.
  intros (Htemp & Htokens & _)%guarded_parts. unfold guarded.
  cbn [Config.temperature Config.maxTokens Config.theme Config.set_theme].
  rewrite E, Htemp, Htokens. reflexivity.
Qed.

Lemma settled_history (st : Step) :
  settled cfg0 st -> settled cfg0 (apply_history options st).
Proof.
  destruct st as [[cfg changed] out]. intros Hst. unfold apply_history.
  destruct (opt_history options); settle Hst. intros H. exact H.
Qed.

(** X29.  The [config] action never stores an invalid setting and reports
    faithfully: settings that were valid are valid afterwards, whatever
    the options are; when it displays that no changes were made, the
    configuration is what it was; and [--history] enables the history for
    the text [true] alone, any other text disables it. *)
Theorem config_action_settles :
  (guarded cfg0 = true -> guarded (fst (config_action options cfg0)) = true)
  /\ (In (displayInfo
            "No configuration changes made. Use --help to see available options.")
         (snd (config_action options cfg0)) ->
      fst (config_action options cfg0) = cfg0)
  /\ (forall text,
        opt_history options = Some text ->
        Config.history_enabled (fst (config_action options cfg0))
        = String.eqb text "true").
Proof.
  unfold config_action.
  set (st := apply_theme options _).
  assert (Hst : settled cfg0 st).
  { apply settled_theme, settled_maxTokens, settled_temperature,
      settled_model, settled_apiKey.
    split; [reflexivity|]. split; [intros H; exact H|constructor]. }
  pose proof (settled_history st Hst) as Hlast.
  split; [|split].
  - destruct (apply_history options st) as [[cfg changed] out].
    destruct Hlast as (_ & Hvalid & _). exact Hvalid.
  - destruct (apply_history options st) as [[cfg changed] out].
    destruct Hlast as (Hsame & _ & Hout). cbn [fst snd].
    destruct changed; [|intros _; apply Hsame; reflexivity].
    intros Hin. rewrite List.Forall_forall in Hout.
    destruct (Hout _ Hin _ eq_refl).
  - intros text Htext. unfold apply_history. rewrite Htext.
    destruct st as [[cfg changed] out]. reflexivity.
Qed.

End ConfigCommand.

(** ** The search results *)

Section SearchResults.
Import Api Conversation Chat Notions.
Context {RT : Runtime}.

(** X30.  The search loop never throws, and every result it collects
    comes from one of the listed sessions, carries that session's id and
    date, and shows at least one and at most three matches; there are at
    most as many results as sessions. *)
Theorem search_results_bounded (query : string)
    (sessions : list SessionSummary) (s : State) :
  exists results cm d,
    search_sessions query sessions s = (Ok results, set_conversation cm s, d)
    /\ List.Forall
         (fun r =>
            (1 <= length (matches r) <= 3)%nat
            /\ exists session,
                 In session sessions
                 /\ result_sessionId r = summary_id session
                 /\ result_date r = summary_date session)
         results
    /\ (length results <= length sessions)%nat.
Proof.
  revert s. induction sessions as [|session rest IH]; intros s.
  - exists [], (conversation s), []. cbn. rewrite set_conversation_same.
    split; [reflexivity|]. split; [constructor|lia].
  - assert (Hrest : forall results : list SearchResult,
               List.Forall
                 (fun r =>
                    (1 <= length (matches r) <= 3)%nat
                    /\ exists session,
                         In session rest
                         /\ result_sessionId r = summary_id session
                         /\ result_date r = summary_date session) results ->
               List.Forall
                 (fun r =>
                    (1 <= length (matches r) <= 3)%nat
                    /\ exists session0,
                         In session0 (session :: rest)
                         /\ result_sessionId r = summary_id session0
                         /\ result_date r = summary_date session0) results).
    { intros results. apply List.Forall_impl.
      intros r (Hn & session0 & Hin & Hid). split; [exact Hn|].
      exists session0. split; [right; exact Hin|exact Hid]. }
    cbn [search_sessions].
    unfold mbind, M_bind, catch, conversation_loadSession, gets.
    destruct (loadSession (summary_id session) (conversation s) (fs s))
      as [cm|e].
    + destruct (IH (set_conversation cm s))
        as (results & cm' & d & Hrun & Hall & Hlen).
      unfold getMessages. cbn [conversation set_conversation].
      destruct (session_matches query (messages cm)) as [|m ms] eqn:Ematches;
        unfold mret, M_ret; cbn; rewrite Hrun; cbn.
      * eexists results, cm', _. split; [reflexivity|].
        split; [apply Hrest, Hall|lia].
      * eexists _, cm', _. split; [reflexivity|]. split; [|cbn; lia].
        constructor; [|apply Hrest, Hall]. cbn [matches result_sessionId
          result_date]. split.
        -- cbn [length]. rewrite List.length_firstn. lia.
        -- exists session. split; [left; reflexivity|split; reflexivity].
    + destruct (IH s) as (results & cm' & d & Hrun & Hall & Hlen).
      unfold mret, M_ret. rewrite Hrun. cbn.
      eexists results, cm', _. split; [reflexivity|].
      split; [apply Hrest, Hall|lia].
Qed.

End SearchResults.
